(** * bill95: 95th-percentile bandwidth billing

    A shallow embedding of [bill95.py] and the properties of its billing
    computation.

    Conventions of the embedding.
    - Python [float] values are taken at two levels.  Part I carries
      the arithmetic of the script out on exact rationals ([Q]): every
      step is kept, nothing is rounded, [nan] and [inf] are not
      represented, and equality of figures is stated with [Qeq] ([==]);
      the properties of order and sign are stated on it.  Its
      continuation takes the same computation over IEEE 754 binary64
      ([F64], [Double]), every operation rounded to the nearest double;
      the properties that depend on the very double returned or printed
      are stated there.
    - Python [str] is modelled by [string]; a character stands for the code
      point of the same number (0..255).
    - An exception is a value of [Py.exn] ([LibraryError] stands for the
      exceptions of rrdtool, MySQL, SMTP and the file system); a
      computation that may raise returns a [Py.res].
    - [print] appends one entry to a list of output lines.
    - The external collaborators (system clock, local time zone, MySQL,
      the file system, rrdtool, SMTP) are the fields of an [Env]. *)

From Stdlib Require Import ZArith QArith Qround Qabs Lqa Lia.
From Stdlib Require Import List Bool String Ascii DecimalString.
From Stdlib Require Import Sorted Permutation SetoidList SetoidPermutation Qminmax.
From Stdlib Require Import SpecFloat.
From Stdlib Require DecimalFacts DecimalPos DecimalN.
Import ListNotations.

Local Open Scope string_scope.
Local Open Scope list_scope.
Local Open Scope Z_scope.

(* ================================================================== *)
(** * Part I: the program *)
(* ================================================================== *)

(** ** Python built-ins used by the script *)
Module Py.

Inductive exn : Type :=
| ValueError (msg : string)
| IndexError (msg : string)
| OverflowError (msg : string)
| LibraryError (msg : string).

(** [str(e)] *)
Definition str_of_exn (e : exn) : string :=
  match e with
  | ValueError m | IndexError m | OverflowError m | LibraryError m => m
  end.

Inductive res (A : Type) : Type :=
| Ok (a : A)
| Raise (e : exn).
Arguments Ok {A} a.
Arguments Raise {A} e.

Definition bind {A B : Type} (m : res A) (k : A -> res B) : res B :=
  match m with
  | Ok a => k a
  | Raise e => Raise e
  end.

(** [t[i]] on a tuple *)
Definition tuple_getitem {A : Type} (t : list A) (i : nat) : res A :=
  match nth_error t i with
  | Some a => Ok a
  | None => Raise (IndexError "tuple index out of range")
  end.

(** [l[i]] on a list *)
Definition list_getitem {A : Type} (l : list A) (i : nat) : res A :=
  match nth_error l i with
  | Some a => Ok a
  | None => Raise (IndexError "list index out of range")
  end.

(** [a > b] on floats *)
Definition gt (a b : Q) : bool :=
  match (b ?= a)%Q with
  | Lt => true
  | _ => false
  end.

(** [max(a, b)]: the first argument is kept unless the second is greater. *)
Definition max2 (a b : Q) : Q := if gt b a then b else a.

(** [max(x :: l)], the argument being a non-empty list: a left-to-right
    scan that keeps the first maximal item. *)
Fixpoint max_from (cur : Q) (l : list Q) : Q :=
  match l with
  | [] => cur
  | y :: l' => max_from (if gt y cur then y else cur) l'
  end.

(** [str.isspace] on one character (code points below 256). *)
Definition isspace (c : ascii) : bool :=
  let n := nat_of_ascii c in
  ((9 <=? n) && (n <=? 13) || (28 <=? n) && (n <=? 32)
   || (n =? 133) || (n =? 160))%nat.

(** [s.lstrip()] *)
Fixpoint lstrip (s : string) : string :=
  match s with
  | EmptyString => EmptyString
  | String c s' => if isspace c then lstrip s' else s
  end.

(** [s.rstrip()] *)
Fixpoint rstrip (s : string) : string :=
  match s with
  | EmptyString => EmptyString
  | String c s' =>
      match rstrip s' with
      | EmptyString => if isspace c then EmptyString else String c EmptyString
      | t => String c t
      end
  end.

(** [s.strip()] *)
Definition strip (s : string) : string := rstrip (lstrip s).

(** [s.split(sep, 1)] for a one-character separator: at most one cut, at
    the first occurrence of [sep]. *)
Fixpoint split1 (sep : ascii) (s : string) : list string :=
  match s with
  | EmptyString => [EmptyString]
  | String c s' =>
      if Ascii.eqb c sep then [EmptyString; s']
      else match split1 sep s' with
           | [] => [String c EmptyString]
           | h :: t => String c h :: t
           end
  end.

(** [sep.join(l)] *)
Definition join (sep : string) (l : list string) : string :=
  String.concat sep l.

(** [s.startswith(p)] and [s.endswith(c)] *)
Definition startswith (s p : string) : bool := String.prefix p s.

Fixpoint endswith_char (s : string) (c : ascii) : bool :=
  match s with
  | EmptyString => false
  | String d EmptyString => Ascii.eqb d c
  | String _ s' => endswith_char s' c
  end.

(** [str(n)] for an integer *)
Definition str_of_int (n : Z) : string :=
  match n with
  | Z0 => "0"
  | Zpos p => NilZero.string_of_uint (Pos.to_uint p)
  | Zneg p => ("-" ++ NilZero.string_of_uint (Pos.to_uint p))%string
  end.

(** Rounding to the nearest integer, ties to even. *)
Definition round_half_even (q : Q) : Z :=
  let f := Qfloor q in
  match (q - inject_Z f ?= 1 # 2)%Q with
  | Lt => f
  | Gt => f + 1
  | Eq => if Z.even f then f else f + 1
  end.

(** [format(x, ".2f")]: sign, integer part, point, two digits; the value
    is rounded to the nearest hundredth, ties to even. *)
Definition format_2f (x : Q) : string :=
  let n := round_half_even (Qabs x * 100)%Q in
  let frac := n mod 100 in
  let sign := match (x ?= 0)%Q with Lt => "-" | _ => "" end in
  let pad := if frac <? 10 then "0" else "" in
  (sign ++ str_of_int (n / 100) ++ "." ++ pad ++ str_of_int frac)%string.

(** [int(x)] on a float: truncation toward zero. *)
Definition int_of_float (x : Q) : Z := Z.quot (Qnum x) (Zpos (Qden x)).

End Py.

Notation "x <- m ;; k" := (Py.bind m (fun x => k))
  (at level 61, m at next level, right associativity).

(** [os.path.join] (posixpath). *)
Module OsPath.

Definition join2 (path b : string) : string :=
  if Py.startswith b "/"%string then b
  else if orb (String.eqb path ""%string) (Py.endswith_char path "/"%char)
       then (path ++ b)%string
       else (path ++ "/" ++ b)%string.

Definition join (a : string) (p : list string) : string :=
  fold_left join2 p a.

End OsPath.

(** ** numpy: [np.percentile] with the default (linear) method

    The steps of numpy's quantile routine for one quantile over a
    one-dimensional array: virtual index, neighbouring indexes, ordering
    of the array, interpolation. *)
Module Np.

Fixpoint insert (x : Q) (l : list Q) : list Q :=
  match l with
  | [] => [x]
  | y :: l' => if Qle_bool x y then x :: l else y :: insert x l'
  end.

(** The array in ascending order. *)
Fixpoint sort (l : list Q) : list Q :=
  match l with
  | [] => []
  | x :: l' => insert x (sort l')
  end.

(** [arr[i]], a negative [i] counting from the end. *)
Definition getitem (arr : list Q) (i : Z) : Py.res Q :=
  let n := Z.of_nat (List.length arr) in
  let j := if i <? 0 then n + i else i in
  if (j <? 0) || (n <=? j)
  then Py.Raise (Py.IndexError "index out of bounds")
  else Py.list_getitem arr (Z.to_nat j).

(** [_lerp(a, b, t)] *)
Definition lerp (a b t : Q) : Q :=
  let diff_b_a := (b - a)%Q in
  if Qle_bool (1 # 2) t
  then (b - diff_b_a * (1 - t))%Q
  else (a + diff_b_a * t)%Q.

(** [_get_indexes]: floor of the virtual index and its successor; at or
    above the last index both become [-1], below zero both become [0]. *)
Definition get_indexes (virtual_index : Q) (values_count : Z) : Z * Z :=
  let previous_index := Qfloor virtual_index in
  let next_index := previous_index + 1 in
  let above := Qle_bool (inject_Z (values_count - 1)) virtual_index in
  let below := Py.gt 0 virtual_index in
  if below then (0, 0)
  else if above then (-1, -1)
  else (previous_index, next_index).

Definition percentile (a : list Q) (q : Q) : Py.res Q :=
  let quantile := (q / 100)%Q in
  let values_count := Z.of_nat (List.length a) in
  let virtual_index := (inject_Z (values_count - 1) * quantile)%Q in
  let '(previous_index, next_index) :=
    get_indexes virtual_index values_count in
  let arr := sort a in
  previous <- getitem arr previous_index ;;
  next <- getitem arr next_index ;;
  let gamma := (virtual_index - inject_Z previous_index)%Q in
  Py.Ok (lerp previous next gamma).

End Np.

(** ** datetime: naive date-times of the proleptic Gregorian calendar *)
Module DT.

Record datetime : Type := mk_datetime {
  year : Z; month : Z; day : Z;
  hour : Z; minute : Z; second : Z; microsecond : Z
}.

Definition _MAXORDINAL : Z := 3652059.

Definition _DAYS_IN_MONTH : list Z :=
  [-1; 31; 28; 31; 30; 31; 30; 31; 31; 30; 31; 30; 31].

Definition _DAYS_BEFORE_MONTH : list Z :=
  [-1; 0; 31; 59; 90; 120; 151; 181; 212; 243; 273; 304; 334].

Definition _is_leap (y : Z) : bool :=
  (y mod 4 =? 0) && (negb (y mod 100 =? 0) || (y mod 400 =? 0)).

Definition _days_before_year (y : Z) : Z :=
  let y := y - 1 in
  y * 365 + y / 4 - y / 100 + y / 400.

Definition _days_in_month (y m : Z) : Z :=
  if (m =? 2) && _is_leap y then 29
  else nth (Z.to_nat m) _DAYS_IN_MONTH 0.

Definition _days_before_month (y m : Z) : Z :=
  nth (Z.to_nat m) _DAYS_BEFORE_MONTH 0
  + (if (2 <? m) && _is_leap y then 1 else 0).

Definition _ymd2ord (y m d : Z) : Z :=
  _days_before_year y + _days_before_month y m + d.

Definition _DI400Y : Z := _days_before_year 401.
Definition _DI100Y : Z := _days_before_year 101.
Definition _DI4Y : Z := _days_before_year 5.

Definition _ord2ymd (n : Z) : Z * Z * Z :=
  let n := n - 1 in
  let n400 := n / _DI400Y in
  let n := n mod _DI400Y in
  let y := n400 * 400 + 1 in
  let n100 := n / _DI100Y in
  let n := n mod _DI100Y in
  let n4 := n / _DI4Y in
  let n := n mod _DI4Y in
  let n1 := n / 365 in
  let n := n mod 365 in
  let y := y + n100 * 100 + n4 * 4 + n1 in
  if (n1 =? 4) || (n100 =? 4) then (y - 1, 12, 31)
  else
    let leapyear := (n1 =? 3) && (negb (n4 =? 24) || (n100 =? 3)) in
    let m := Z.shiftr (n + 50) 5 in
    let preceding :=
      nth (Z.to_nat m) _DAYS_BEFORE_MONTH 0
      + (if (2 <? m) && leapyear then 1 else 0) in
    let '(m, preceding) :=
      if n <? preceding
      then (m - 1,
            preceding - (nth (Z.to_nat (m - 1)) _DAYS_IN_MONTH 0
                         + (if (m - 1 =? 2) && leapyear then 1 else 0)))
      else (m, preceding) in
    (y, m, n - preceding + 1).

(** [datetime(year, month, day)]: the constructor checks its fields. *)
Definition make (y m d : Z) : Py.res datetime :=
  if negb ((1 <=? y) && (y <=? 9999))
  then Py.Raise (Py.ValueError "year is out of range")
  else if negb ((1 <=? m) && (m <=? 12))
  then Py.Raise (Py.ValueError "month must be in 1..12")
  else if negb ((1 <=? d) && (d <=? _days_in_month y m))
  then Py.Raise (Py.ValueError "day is out of range for month")
  else Py.Ok (mk_datetime y m d 0 0 0 0).

Definition toordinal (t : datetime) : Z :=
  _ymd2ord (year t) (month t) (day t).

(** [timedelta]: days, seconds in [0, 86400), microseconds in [0, 10^6). *)
Record timedelta : Type := mk_timedelta {
  days : Z; seconds : Z; microseconds : Z
}.

Definition normalize (d s us : Z) : timedelta :=
  let s := s + us / 1000000 in
  let us := us mod 1000000 in
  mk_timedelta (d + s / 86400) (s mod 86400) us.

Definition timedelta_seconds (s : Z) : timedelta := normalize 0 s 0.

Definition neg (d : timedelta) : timedelta :=
  normalize (- days d) (- seconds d) (- microseconds d).

Definition td_add (a b : timedelta) : timedelta :=
  normalize (days a + days b) (seconds a + seconds b)
            (microseconds a + microseconds b).

(** [datetime + timedelta] *)
Definition add (t : datetime) (other : timedelta) : Py.res datetime :=
  let delta :=
    td_add (normalize (toordinal t)
                      (hour t * 3600 + minute t * 60 + second t)
                      (microsecond t))
           other in
  let hh := seconds delta / 3600 in
  let rem := seconds delta mod 3600 in
  let mm := rem / 60 in
  let ss := rem mod 60 in
  if (0 <? days delta) && (days delta <=? _MAXORDINAL)
  then let '(y, m, d) := _ord2ymd (days delta) in
       Py.Ok (mk_datetime y m d hh mm ss (microseconds delta))
  else Py.Raise (Py.OverflowError "date value out of range").

(** [datetime - timedelta] *)
Definition sub (t : datetime) (other : timedelta) : Py.res datetime :=
  add t (neg other).

Definition month_names : list string :=
  [""; "January"; "February"; "March"; "April"; "May"; "June"; "July";
   "August"; "September"; "October"; "November"; "December"].

(** [t.strftime("%B %Y")] in the C locale, for a four-digit year. *)
Definition strftime_B_Y (t : datetime) : string :=
  (nth (Z.to_nat (month t)) month_names "" ++ " "
     ++ Py.str_of_int (year t))%string.

(** [t.timestamp()] of a naive date-time: the system's conversion of local
    time to whole POSIX seconds, plus the microseconds. *)
Definition timestamp (mktime : datetime -> Z) (t : datetime) : Q :=
  (inject_Z (mktime t) + inject_Z (microsecond t) / 1000000)%Q.

End DT.

(** ** The script *)

(** What [rrdtool.fetch] returns: the time range [(start, end, step)], the
    names of the data series, and one tuple per time step holding a value
    or [None] for every series. *)
Record fetch_data : Type := mk_fetch {
  fd_range : Z * Z * Z;
  fd_names : list string;
  fd_rows : list (list (option Q))
}.

(** A row of the directory query: [ifIndex], [ifAlias], [hostname]. *)
Record port_row : Type := mk_row {
  ifIndex : Z;
  ifAlias : string;
  hostname : string
}.

Record db_config : Type := mk_db_config {
  db_host : string; db_user : string; db_password : string;
  db_database : string
}.

(** The collaborators of one run. *)
Record Env : Type := mk_env {
  (** the n-th reading of [datetime.datetime.now()] *)
  now : nat -> DT.datetime;
  (** local time to POSIX seconds *)
  mktime : DT.datetime -> Z;
  (** reading the config file and scanning it for the four settings *)
  load_observium_db_config : string -> Py.res db_config;
  (** connecting and running the ports query *)
  mysql_ports : db_config -> Py.res (list port_row);
  (** [os.path.exists] *)
  path_exists : string -> bool;
  (** [rrdtool.fetch(file, "AVERAGE", "--start", s, "--end", e)] *)
  rrd_fetch : string -> Z -> Z -> Py.res fetch_data;
  (** handing (recipient, subject, body) to SMTP: [None] on success *)
  send_email : string -> string -> string -> option Py.exn
}.

Definition in_idx : nat := 0%nat.
Definition out_idx : nat := 1%nat.

(** The list comprehension of [compute_95th]: rows are visited in order;
    [row[out_idx]] is only read when [row[in_idx]] is not [None]. *)
Fixpoint combined_vals (data : list (list (option Q))) : Py.res (list Q) :=
  match data with
  | [] => Py.Ok []
  | row :: rest =>
      a <- Py.tuple_getitem row in_idx ;;
      match a with
      | None => combined_vals rest
      | Some x =>
          b <- Py.tuple_getitem row out_idx ;;
          match b with
          | None => combined_vals rest
          | Some y =>
              vs <- combined_vals rest ;;
              Py.Ok (Py.max2 x y :: vs)
          end
      end
  end.

(** [np.array(vals) * 8 / 1e6] *)
Definition to_mbps (vals : list Q) : list Q :=
  map (fun v => (v * 8 / 1000000)%Q) vals.

(** The body of [compute_95th] once the fetch has returned. *)
Definition percentile_of_fetch (rrd_file : string) (f : fetch_data)
  : Py.res Q :=
  if (List.length (fd_names f) <? 2)%nat
  then Py.Raise (Py.ValueError
         ("RRD " ++ rrd_file ++ " must have at least two DS (in/out)")%string)
  else
    vals <- combined_vals (fd_rows f) ;;
    match vals with
    | [] => Py.Ok 0%Q
    | _ :: _ => Np.percentile (to_mbps vals) 95
    end.

Definition compute_95th (env : Env) (rrd_file : string) (start_ts end_ts : Z)
  : Py.res Q :=
  f <- rrd_fetch env rrd_file start_ts end_ts ;;
  percentile_of_fetch rrd_file f.

Definition get_date_range (now : DT.datetime) (mktime : DT.datetime -> Z)
    (prev_month : bool) : Py.res (Z * Z) :=
  if prev_month then
    first_this_month <- DT.make (DT.year now) (DT.month now) 1 ;;
    last_month_end <- DT.sub first_this_month (DT.timedelta_seconds 1) ;;
    last_month_start <-
      DT.make (DT.year last_month_end) (DT.month last_month_end) 1 ;;
    Py.Ok (Py.int_of_float (DT.timestamp mktime last_month_start),
           Py.int_of_float (DT.timestamp mktime last_month_end))
  else
    start_month <- DT.make (DT.year now) (DT.month now) 1 ;;
    Py.Ok (Py.int_of_float (DT.timestamp mktime start_month),
           Py.int_of_float (DT.timestamp mktime now)).

Definition get_month_label (now : DT.datetime) (prev_month : bool)
  : Py.res string :=
  if prev_month then
    first_this_month <- DT.make (DT.year now) (DT.month now) 1 ;;
    last_month_end <- DT.sub first_this_month (DT.timedelta_seconds 1) ;;
    Py.Ok (DT.strftime_B_Y last_month_end)
  else Py.Ok (DT.strftime_B_Y now).

(** [customers]: a dictionary from customer name to its list of RRD
    files, in insertion order of the keys. *)
Definition customers_dict : Type := list (string * list string).

(** [customers[k].append(v)] on a [defaultdict(list)] *)
Fixpoint dict_append (k v : string) (d : customers_dict) : customers_dict :=
  match d with
  | [] => [(k, [v])]
  | (k', vs) :: rest =>
      if String.eqb k' k then (k', vs ++ [v]) :: rest
      else (k', vs) :: dict_append k v rest
  end.

(** [alias.split(":", 1)[1].strip()], ["Unknown"] on [IndexError]. *)
Definition cust_name_of (alias : string) : string :=
  match Py.list_getitem (Py.split1 ":"%char alias) 1 with
  | Py.Ok s => Py.strip s
  | Py.Raise _ => "Unknown"
  end.

Definition rrd_path (rrd_base : string) (r : port_row) : string :=
  OsPath.join rrd_base
    [hostname r; ("port-" ++ Py.str_of_int (ifIndex r) ++ ".rrd")%string].

(** The loop of [load_customer_interfaces] over the rows; the state is
    the printed lines and the dictionary. *)
Fixpoint group_rows (env : Env) (rrd_base : string) (rows : list port_row)
    (out : list string) (customers : customers_dict)
  : list string * customers_dict :=
  match rows with
  | [] => (out, customers)
  | r :: rest =>
      let alias := ifAlias r in
      let cust_name := cust_name_of alias in
      let rrd_file := rrd_path rrd_base r in
      if path_exists env rrd_file
      then group_rows env rrd_base rest out
             (dict_append cust_name rrd_file customers)
      else group_rows env rrd_base rest
             (out ++ [("Warning: RRD file not found for interface '"
                        ++ alias ++ "': " ++ rrd_file)%string])
             customers
  end.

Definition load_customer_interfaces (env : Env) (cfg : db_config)
    (rrd_base : string) : list string * Py.res customers_dict :=
  match mysql_ports env cfg with
  | Py.Raise e => ([], Py.Raise e)
  | Py.Ok [] =>
      (["Warning: No interfaces found with ifAlias starting with 'Cust:'"],
       Py.Ok [])
  | Py.Ok rows =>
      let '(out, customers) := group_rows env rrd_base rows [] [] in
      (out, Py.Ok customers)
  end.

(** Command-line arguments after parsing. *)
Record Args : Type := mk_args {
  observium_config : string;
  prev : bool;
  email : option string;
  rrd_base : string
}.

(** What a run leaves behind: the printed lines, the messages handed to
    SMTP as (recipient, subject, body), the exception that ended the run if
    one did, and the exit status of the process (0 when [main] returns, 1
    when an exception reaches the top level). *)
Record Outcome : Type := mk_outcome {
  stdout : list string;
  mails : list (string * string * string);
  uncaught : option Py.exn;
  exit_code : Z
}.

Definition returned (out : list string) (sent : list (string * string * string))
  : Outcome := mk_outcome out sent None 0.

Definition crashed (out : list string) (e : Py.exn) : Outcome :=
  mk_outcome out [] (Some e) 1.

(** The inner loop of [main] over one customer's RRD files. *)
Fixpoint collect_samples (env : Env) (start_ts end_ts : Z)
    (rrd_list : list string) (out : list string) (combined_samples : list Q)
  : list string * list Q :=
  match rrd_list with
  | [] => (out, combined_samples)
  | rrd :: rest =>
      match compute_95th env rrd start_ts end_ts with
      | Py.Ok val =>
          collect_samples env start_ts end_ts rest out
            (combined_samples ++ [val])
      | Py.Raise e =>
          collect_samples env start_ts end_ts rest
            (out ++ [("Error reading " ++ rrd ++ ": "
                       ++ Py.str_of_exn e)%string])
            combined_samples
      end
  end.

(** [max(combined_samples)] if the list is non-empty, [0.0] otherwise. *)
Definition val_95_of (combined_samples : list Q) : Q :=
  match combined_samples with
  | [] => 0%Q
  | x :: l => Py.max_from x l
  end.

Definition report_line (cust_name : string) (val_95 : Q) : string :=
  (cust_name ++ ": " ++ Py.format_2f val_95 ++ " Mbps")%string.

(** The outer loop of [main] over [customers.items()]; it also keeps the
    billed figure of every customer next to its report line. *)
Fixpoint bill_customers (env : Env) (start_ts end_ts : Z)
    (customers : customers_dict) (out : list string)
    (results : list (string * Q)) (lines : list string)
  : list string * list (string * Q) * list string :=
  match customers with
  | [] => (out, results, lines)
  | (cust_name, rrd_list) :: rest =>
      let '(out', combined_samples) :=
        collect_samples env start_ts end_ts rrd_list out [] in
      let val_95 := val_95_of combined_samples in
      bill_customers env start_ts end_ts rest out'
        (results ++ [(cust_name, val_95)])
        (lines ++ [report_line cust_name val_95])
  end.

Definition report_subject (month_label : string) : string :=
  ("95th Percentile Billing Report for " ++ month_label)%string.

Definition build_report (month_label : string) (lines : list string)
  : string :=
  let header :=
    ("95th Percentile Billing Report for " ++ month_label
       ++ String "010"%char EmptyString)%string in
  (header ++ String "010"%char EmptyString
     ++ Py.join (String "010"%char EmptyString) lines)%string.

(** [if args.email:] — [None] and the empty string are both false. *)
Definition email_given (a : Args) : option string :=
  match email a with
  | Some EmptyString => None
  | other => other
  end.

Definition main (args : Args) (env : Env) : Outcome :=
  match get_date_range (now env 0%nat) (mktime env) (prev args) with
  | Py.Raise e => crashed [] e
  | Py.Ok (start_ts, end_ts) =>
  match get_month_label (now env 1%nat) (prev args) with
  | Py.Raise e => crashed [] e
  | Py.Ok month_label =>
  match load_observium_db_config env (observium_config args) with
  | Py.Raise e => crashed [] e
  | Py.Ok cfg =>
  match load_customer_interfaces env cfg (rrd_base args) with
  | (out, Py.Raise e) => crashed out e
  | (out, Py.Ok []) =>
      returned (out ++ ["No customers with RRDs found. Exiting."]) []
  | (out, Py.Ok customers) =>
      let '(out', _, lines) :=
        bill_customers env start_ts end_ts customers out [] [] in
      let report := build_report month_label lines in
      match email_given args with
      | Some to_addr =>
          let subject := report_subject month_label in
          match send_email env to_addr subject report with
          | None => returned out' [(to_addr, subject, report)]
          | Some e => crashed out' e
          end
      | None => returned (out' ++ [report]) []
      end
  end end end end.

(** The billing results of a run: customer name and billed Mbps, for a
    run that reaches the billing loop. *)
Definition billing_results (args : Args) (env : Env)
  : option (list (string * Q)) :=
  match get_date_range (now env 0%nat) (mktime env) (prev args),
        get_month_label (now env 1%nat) (prev args),
        load_observium_db_config env (observium_config args) with
  | Py.Ok (start_ts, end_ts), Py.Ok _, Py.Ok cfg =>
      match load_customer_interfaces env cfg (rrd_base args) with
      | (out, Py.Ok (c :: cs)) =>
          let '(_, results, _) :=
            bill_customers env start_ts end_ts (c :: cs) out [] [] in
          Some results
      | _ => None
      end
  | _, _, _ => None
  end.

(** The printed lines and the customer groups a run has once the
    directory has been read: [None] when an earlier step raised. *)
Definition discovered (args : Args) (env : Env)
  : option (list string * customers_dict) :=
  match get_date_range (now env 0%nat) (mktime env) (prev args),
        get_month_label (now env 1%nat) (prev args),
        load_observium_db_config env (observium_config args) with
  | Py.Ok _, Py.Ok _, Py.Ok cfg =>
      match load_customer_interfaces env cfg (rrd_base args) with
      | (out, Py.Ok customers) => Some (out, customers)
      | _ => None
      end
  | _, _, _ => None
  end.

(* ================================================================== *)
(** * Part II: the reference notions of the specification *)
(* ================================================================== *)

(** A fetch result as rrdtool builds it: at least two data series, and
    every row as wide as the list of series names. *)
Definition well_formed (f : fetch_data) : Prop :=
  (2 <= List.length (fd_names f))%nat
  /\ Forall (fun row => List.length row = List.length (fd_names f))
            (fd_rows f).

(** A sample of the data model (the timestamp plays no part in the
    percentile and is left out): inbound and outbound rate, each possibly
    absent. *)
Record Sample : Type := mk_sample {
  inRate : option Q;
  outRate : option Q
}.

Definition sample_of_row (row : list (option Q)) : Sample :=
  mk_sample (nth 0 row None) (nth 1 row None).

Definition samples_of_fetch (f : fetch_data) : list Sample :=
  map sample_of_row (fd_rows f).

(** Steps 1 and 2 of the percentile engine: for every sample with both
    directions present, the larger of the two rates, in Mbps. *)
Fixpoint reference_mbps (samples : list Sample) : list Q :=
  match samples with
  | [] => []
  | s :: rest =>
      match inRate s, outRate s with
      | Some i, Some o =>
          (Qmax i o * 8 / 1000000)%Q :: reference_mbps rest
      | _, _ => reference_mbps rest
      end
  end.

(** Step 1 alone: the combined rate of every sample with both directions
    present, the larger of its two rates. *)
Fixpoint combined_rates (samples : list Sample) : list Q :=
  match samples with
  | [] => []
  | s :: rest =>
      match inRate s, outRate s with
      | Some i, Some o => Qmax i o :: combined_rates rest
      | _, _ => combined_rates rest
      end
  end.

(** Step 4 on values already in ascending order: the index is
    [0.95 * (n - 1)], and the result interpolates linearly between the
    values at its floor and ceiling ranks. *)
Definition interp95 (sorted : list Q) : Q :=
  let n := Z.of_nat (List.length sorted) in
  let index := ((95 # 100) * inject_Z (n - 1))%Q in
  let lo := Qfloor index in
  let hi := Qceiling index in
  let a := nth (Z.to_nat lo) sorted 0%Q in
  let b := nth (Z.to_nat hi) sorted 0%Q in
  (a + (b - a) * (index - inject_Z lo))%Q.

(** A sample in which a direction is absent. *)
Definition is_gap (row : list (option Q)) : Prop :=
  (2 <= List.length row)%nat
  /\ (nth 0 row None = None \/ nth 1 row None = None).

(** The percentiles of the interfaces whose computation succeeded. *)
Fixpoint computed_percentiles (env : Env) (start_ts end_ts : Z)
    (rrd_list : list string) : list Q :=
  match rrd_list with
  | [] => []
  | rrd :: rest =>
      match compute_95th env rrd start_ts end_ts with
      | Py.Ok v => v :: computed_percentiles env start_ts end_ts rest
      | Py.Raise _ => computed_percentiles env start_ts end_ts rest
      end
  end.

(** [v] is the greatest element of [vals]. *)
Definition is_maximum (vals : list Q) (v : Q) : Prop :=
  In v vals /\ forall x, In x vals -> (x <= v)%Q.

(** Every rate of the two series that are read is non-negative. *)
Definition nonneg_rates (f : fetch_data) : Prop :=
  forall row x,
    In row (fd_rows f) ->
    nth_error row in_idx = Some (Some x)
    \/ nth_error row out_idx = Some (Some x) ->
    (0 <= x)%Q.

(** Some sample has a negative rate in one of the two series read. *)
Definition has_negative_rate (f : fetch_data) : Prop :=
  exists row x,
    In row (fd_rows f)
    /\ (nth_error row in_idx = Some (Some x)
        \/ nth_error row out_idx = Some (Some x))
    /\ (x < 0)%Q.

(** [c] is the letter [lower] in either case. *)
Definition letter (c lower upper : ascii) : bool :=
  Ascii.eqb c lower || Ascii.eqb c upper.

(** The filter of the directory query, [ifAlias REGEXP '^[Cc]ust:'].
    MySQL compares without regard to case under its default collation, so
    the letters of "cust" are accepted in either case; the aliases the
    pattern matches as written are among them. *)
Definition alias_matches_prefix (alias : string) : bool :=
  match alias with
  | String c0 (String c1 (String c2 (String c3 (String c4 _)))) =>
      letter c0 "c" "C" && letter c1 "u" "U" && letter c2 "s" "S"
      && letter c3 "t" "T" && Ascii.eqb c4 ":"
  | _ => false
  end.

(** The text of [s] after its first [n] characters. *)
Definition text_from (n : nat) (s : string) : string :=
  String.substring n (String.length s - n) s.

(** No colon occurs in [s]. *)
Fixpoint colon_free (s : string) : bool :=
  match s with
  | EmptyString => true
  | String c s' => negb (Ascii.eqb c ":") && colon_free s'
  end.

(** The names of [l] in order of first occurrence. *)
Fixpoint first_seen_from (seen l : list string) : list string :=
  match l with
  | [] => []
  | x :: l' =>
      if existsb (String.eqb x) seen then first_seen_from seen l'
      else x :: first_seen_from (seen ++ [x]) l'
  end.

Definition first_seen (l : list string) : list string :=
  first_seen_from [] l.

(** Customer names of the directory rows whose RRD file exists, in row
    order. *)
Definition discovered_names (env : Env) (rrd_base : string)
    (rows : list port_row) : list string :=
  map (fun r => cust_name_of (ifAlias r))
      (filter (fun r => path_exists env (rrd_path rrd_base r)) rows).

(** [customers.get(k)] *)
Fixpoint dict_get (k : string) (d : customers_dict) : option (list string) :=
  match d with
  | [] => None
  | (k', vs) :: rest => if String.eqb k' k then Some vs else dict_get k rest
  end.

(** The same fetch with its data series listed in another order:
    position [i] of the result holds series [nth i order]. *)
Definition reorder {A : Type} (order : list nat) (l : list A) : list A :=
  flat_map (fun i => match nth_error l i with
                     | Some a => [a]
                     | None => []
                     end) order.

Definition reorder_series (order : list nat) (f : fetch_data) : fetch_data :=
  mk_fetch (fd_range f) (reorder order (fd_names f))
           (map (reorder order) (fd_rows f)).

Definition newline : string := String "010"%char EmptyString.

(** ** Sample inputs *)

Definition series_names : list string := ["INOCTETS"; "OUTOCTETS"].

(** Three samples with both directions and one gap. *)
Definition fetch_mixed : fetch_data :=
  mk_fetch (0, 1200, 300) series_names
    [[Some 1250000%Q; Some 625000%Q];
     [None; Some 10%Q];
     [Some 2500000%Q; Some 5000000%Q];
     [Some 3750000%Q; Some 3750000%Q]].

(** One sample of 10 Mbps among gaps. *)
Definition fetch_with_gaps : fetch_data :=
  mk_fetch (0, 1200, 300) series_names
    [[None; Some 5%Q];
     [Some 1250000%Q; Some 625000%Q];
     [Some 7%Q; None];
     [None; None]].

(** A sample with negative rates. *)
Definition fetch_negative : fetch_data :=
  mk_fetch (0, 300, 300) series_names [[Some (-1)%Q; Some (-1)%Q]].

(** A fetch whose only sample has the given rates. *)
Definition fetch_one (i o : Q) : fetch_data :=
  mk_fetch (0, 300, 300) series_names [[Some i; Some o]].

(** Three data series. *)
Definition fetch_three_series : fetch_data :=
  mk_fetch (0, 300, 300) ["INOCTETS"; "OUTOCTETS"; "INERRORS"]
    [[Some 1000000%Q; Some 2000000%Q; Some 0%Q]].

Definition sample_config : db_config :=
  mk_db_config "localhost" "observium" "secret" "observium".

(** A time zone without offset. *)
Definition utc_mktime (t : DT.datetime) : Z :=
  (DT.toordinal t - 719163) * 86400
  + DT.hour t * 3600 + DT.minute t * 60 + DT.second t.

Definition sample_env (rows : list port_row)
    (fetch : string -> Py.res fetch_data) : Env :=
  mk_env (fun _ => DT.mk_datetime 2025 9 15 10 30 0 0)
         utc_mktime
         (fun _ => Py.Ok sample_config)
         (fun _ => Py.Ok rows)
         (fun _ => true)
         (fun file _ _ => fetch file)
         (fun _ _ _ => None).

Definition sample_args : Args :=
  mk_args "/opt/observium/config.php" true None "/opt/observium/rrd".

(** The directory of the end-to-end scenario: two interfaces of Acme, one
    of Beta; the second interface of Acme carries 55 Mbps, the first 30
    Mbps, and the RRD of Beta cannot be read. *)
Definition scenario_rows : list port_row :=
  [mk_row 1 "Cust:Acme" "edge1";
   mk_row 2 "cust:  Acme " "edge1";
   mk_row 7 "Cust: Beta" "edge2"].

Definition scenario_fetch (file : string) : Py.res fetch_data :=
  if String.eqb file "/opt/observium/rrd/edge1/port-1.rrd"
  then Py.Ok (fetch_one 3750000 1000)
  else if String.eqb file "/opt/observium/rrd/edge1/port-2.rrd"
  then Py.Ok (fetch_one 20 6875000)
  else Py.Raise (Py.LibraryError "could not read the RRD").

Definition scenario_env : Env := sample_env scenario_rows scenario_fetch.

(** A directory without customer interfaces. *)
Definition empty_env : Env :=
  sample_env [] (fun _ => Py.Ok fetch_mixed).

(** Every interface of the scenario's directory carries the same
    traffic. *)
Definition steady_env : Env :=
  sample_env scenario_rows (fun _ => Py.Ok fetch_mixed).

(** A customer whose only interface reports negative rates. *)
Definition negative_env : Env :=
  sample_env [mk_row 1 "Cust:Acme" "edge1"] (fun _ => Py.Ok fetch_negative).

(** ** Further notions *)

(** Two outcomes of [compute_95th] that return the same figure. *)
Definition same_figure (a b : Py.res Q) : Prop :=
  match a, b with
  | Py.Ok x, Py.Ok y => (x == y)%Q
  | _, _ => False
  end.

(** The figure of a list of Mbps values: [0.0] for none, else the
    interpolation over the values in ascending order. *)
Definition figure_of (vals : list Q) : Q :=
  match vals with
  | [] => 0%Q
  | _ :: _ => interp95 (Np.sort vals)
  end.

(** A row with its first two entries exchanged. *)
Definition swap_in_out (row : list (option Q)) : list (option Q) :=
  match row with
  | a :: b :: rest => b :: a :: rest
  | _ => row
  end.

(** Twenty samples of 10 Mbps and one burst of a million Mbps. *)
Definition fetch_burst : fetch_data :=
  mk_fetch (0, 6300, 300) series_names
    ([Some 125000000000%Q; Some 0%Q]
       :: repeat [Some 1250000%Q; Some 1250000%Q] 20).

(** An environment in which every RRD holds the given fetch result. *)
Definition constant_env (r : Py.res fetch_data) : Env :=
  sample_env scenario_rows (fun _ => r).

(** The month before month [m] of year [y]. *)
Definition previous_month (y m : Z) : Z * Z :=
  if m =? 1 then (y - 1, 12) else (y, m - 1).

(** For the first of month [m] of year [y], one second earlier is
    23:59:59 on the last day of the previous month; before January of
    year 1 there is no date. *)
Definition last_second_before (y m : Z) : bool :=
  match DT.make y m 1 with
  | Py.Ok first =>
      match DT.sub first (DT.timedelta_seconds 1) with
      | Py.Ok t =>
          let '(py, pm) := previous_month y m in
          (DT.year t =? py) && (DT.month t =? pm)
          && (DT.day t =? DT._days_in_month py pm)
          && (DT.hour t =? 23) && (DT.minute t =? 59)
          && (DT.second t =? 59) && (DT.microsecond t =? 0)
      | Py.Raise _ => (y =? 1) && (m =? 1)
      end
  | Py.Raise _ => false
  end.

(** The check over every month of [n] years from year [y] on. *)
Fixpoint months_checked_from (n : nat) (y : Z) : bool :=
  match n with
  | O => true
  | S n' =>
      forallb (last_second_before y) [1; 2; 3; 4; 5; 6; 7; 8; 9; 10; 11; 12]
      && months_checked_from n' (y + 1)
  end.

(** The line printed for a directory row without RRD file. *)
Definition missing_warning (rrd_base : string) (r : port_row) : string :=
  ("Warning: RRD file not found for interface '" ++ ifAlias r ++ "': "
     ++ rrd_path rrd_base r)%string.

(** The RRD files, in row order, of the rows that name customer [name]
    and have their file. *)
Definition paths_of (env : Env) (rrd_base name : string)
    (rows : list port_row) : list string :=
  map (rrd_path rrd_base)
      (filter (fun r => path_exists env (rrd_path rrd_base r)
                        && String.eqb (cust_name_of (ifAlias r)) name)
              rows).

(** The scenario with the RRD file of Acme's second interface missing. *)
Definition missing_file_env : Env :=
  mk_env (fun _ => DT.mk_datetime 2025 9 15 10 30 0 0)
         utc_mktime
         (fun _ => Py.Ok sample_config)
         (fun _ => Py.Ok scenario_rows)
         (fun p => negb (String.eqb p "/opt/observium/rrd/edge1/port-2.rrd"))
         (fun file _ _ => scenario_fetch file)
         (fun _ _ _ => None).

(** The line printed when reading an RRD raised [e]. *)
Definition error_line (rrd : string) (e : Py.exn) : string :=
  ("Error reading " ++ rrd ++ ": " ++ Py.str_of_exn e)%string.

(** The error lines of the RRD files whose computation raises, in
    order. *)
Fixpoint error_lines (env : Env) (start_ts end_ts : Z)
    (rrd_list : list string) : list string :=
  match rrd_list with
  | [] => []
  | rrd :: rest =>
      match compute_95th env rrd start_ts end_ts with
      | Py.Ok _ => error_lines env start_ts end_ts rest
      | Py.Raise e => error_line rrd e :: error_lines env start_ts end_ts rest
      end
  end.

(** The same arguments with another [--email]. *)
Definition with_email (args : Args) (e : option string) : Args :=
  mk_args (observium_config args) (prev args) e (rrd_base args).

(** The figure [main] bills for a list of RRD files: the inner loop
    followed by the maximum. *)
Definition billed_figure (env : Env) (start_ts end_ts : Z)
    (rrd_list : list string) : Q :=
  val_95_of (snd (collect_samples env start_ts end_ts rrd_list [] [])).

(** A mail server that refuses every message. *)
Definition refusing_env : Env :=
  mk_env (fun _ => DT.mk_datetime 2025 9 15 10 30 0 0)
         utc_mktime
         (fun _ => Py.Ok sample_config)
         (fun _ => Py.Ok scenario_rows)
         (fun _ => true)
         (fun file _ _ => scenario_fetch file)
         (fun _ _ _ => Some (Py.LibraryError "connection refused")).

(** A configuration file that cannot be read. *)
Definition unreadable_config_env : Env :=
  mk_env (fun _ => DT.mk_datetime 2025 9 15 10 30 0 0)
         utc_mktime
         (fun _ => Py.Raise (Py.LibraryError "no such file"))
         (fun _ => Py.Ok scenario_rows)
         (fun _ => true)
         (fun file _ _ => scenario_fetch file)
         (fun _ _ _ => None).

(** ** Scanning the configuration text ([load_observium_db_config]) *)

(** The text of [s] after the prefix [p], when [s] starts with [p]. *)
Fixpoint strip_prefix (p s : string) : option string :=
  match p with
  | EmptyString => Some s
  | String a p' =>
      match s with
      | EmptyString => None
      | String b s' => if Ascii.eqb a b then strip_prefix p' s' else None
      end
  end.

(** The longest run of characters other than a single quote at the start
    of [s], and the rest of [s]. *)
Fixpoint take_unquoted (s : string) : string * string :=
  match s with
  | EmptyString => (EmptyString, EmptyString)
  | String c s' =>
      if Ascii.eqb c "'" then (EmptyString, s)
      else let '(v, r) := take_unquoted s' in (String c v, r)
  end.

(** The literal start of the pattern of a setting, [$config['KEY']]. *)
Definition setting_literal (key : string) : string :=
  ("$config['" ++ key ++ "']")%string.

(** A match of [\$config\['KEY'\]\s*=\s*'([^']+)'] that starts at the
    first character of [s]: its group 1.  Every repetition of the pattern
    is followed by a character it cannot match, so the greedy choice is
    the only one. *)
Definition match_setting (key s : string) : option string :=
  match strip_prefix (setting_literal key) s with
  | None => None
  | Some r1 =>
      match Py.lstrip r1 with
      | EmptyString => None
      | String c1 r2 =>
          if negb (Ascii.eqb c1 "=") then None
          else
            match Py.lstrip r2 with
            | EmptyString => None
            | String c2 r3 =>
                if negb (Ascii.eqb c2 "'") then None
                else
                  match take_unquoted r3 with
                  | (String c v, String _ _) => Some (String c v)
                  | _ => None
                  end
            end
      end
  end.

(** [re.search(pattern, s)]: the match at the leftmost position that has
    one; [None] when there is none. *)
Fixpoint search_setting (key s : string) : option string :=
  match match_setting key s with
  | Some v => Some v
  | None =>
      match s with
      | EmptyString => None
      | String _ s' => search_setting key s'
      end
  end.

(** The body of [load_observium_db_config] on the text read from the
    file.  [None] stands for the [AttributeError] that [.group(1)] raises
    on the [None] of a search without match. *)
Definition scan_observium_config (content : string) : option db_config :=
  match search_setting "db_host" content with
  | None => None
  | Some h =>
      match search_setting "db_user" content with
      | None => None
      | Some u =>
          match search_setting "db_pass" content with
          | None => None
          | Some p =>
              match search_setting "db_name" content with
              | None => None
              | Some n => Some (mk_db_config h u p n)
              end
          end
      end
  end.

(** No single quote occurs in [s]. *)
Fixpoint quote_free (s : string) : bool :=
  match s with
  | EmptyString => true
  | String c s' => negb (Ascii.eqb c "'") && quote_free s'
  end.

(** No dollar sign occurs in [s]. *)
Fixpoint dollar_free (s : string) : bool :=
  match s with
  | EmptyString => true
  | String c s' => negb (Ascii.eqb c "$") && dollar_free s'
  end.

(** [s] consists of whitespace. *)
Fixpoint all_space (s : string) : bool :=
  match s with
  | EmptyString => true
  | String c s' => Py.isspace c && all_space s'
  end.

(** A line of a configuration file that sets [key] to [v]. *)
Definition setting_line (key v : string) : string :=
  ("$config['" ++ key ++ "'] = '" ++ v ++ "';" ++ newline)%string.

(** A configuration file with the four database settings. *)
Definition render_observium_config (c : db_config) : string :=
  ("<?php" ++ newline
     ++ setting_line "db_host" (db_host c)
     ++ setting_line "db_user" (db_user c)
     ++ setting_line "db_pass" (db_password c)
     ++ setting_line "db_name" (db_database c))%string.

(** Neither a quote, a dollar sign nor a semicolon occurs in [s]. *)
Fixpoint plain (s : string) : bool :=
  match s with
  | EmptyString => true
  | String c s' =>
      negb (Ascii.eqb c "'") && negb (Ascii.eqb c "$")
      && negb (Ascii.eqb c ";") && plain s'
  end.

(** What a search for a setting finds in a file that sets it to [v]. *)
Definition found (v : string) : option string :=
  match v with
  | EmptyString => None
  | String _ _ => Some v
  end.

(** No slash occurs in [s]. *)
Fixpoint slash_free (s : string) : bool :=
  match s with
  | EmptyString => true
  | String c s' => negb (Ascii.eqb c "/") && slash_free s'
  end.

(** The file name of the RRD of a port. *)
Definition port_file (r : port_row) : string :=
  ("port-" ++ Py.str_of_int (ifIndex r) ++ ".rrd")%string.
(* ================================================================== *)
(** * Part I, continued: the figures in double precision *)
(* ================================================================== *)

(** The rates rrdtool returns, the arithmetic of numpy and the figure that
    [format] prints are IEEE 754 binary64 numbers.  The definitions above
    carry the arithmetic out exactly, which is all that the properties of
    order and sign stated on them need.  Where the rounding of each
    operation matters (the exact figure returned, the digits printed) the
    program is taken over binary64: [F64] is the arithmetic, [Double] the
    computation of the script on it. *)

(** ** IEEE 754 binary64

    A double is a [spec_float] of precision 53 and maximal exponent 1024;
    every operation rounds its exact result to the nearest double, ties
    to even. *)
Module F64.

Definition prec : Z := 53.
Definition emax : Z := 1024.

Definition float : Type := spec_float.

(** The values of the format: the mantissa of a finite number has at most
    53 bits, and exactly 53 unless the exponent is the least one. *)
Definition is_double (x : float) : bool := valid_binary prec emax x.

Definition zero : float := S754_zero false.

(** The double nearest to an integer. *)
Definition of_int (z : Z) : float := binary_normalize prec emax z 0 false.

Definition one : float := of_int 1.

Definition add : float -> float -> float := SFadd prec emax.
Definition sub : float -> float -> float := SFsub prec emax.
Definition mul : float -> float -> float := SFmul prec emax.
Definition div : float -> float -> float := SFdiv prec emax.

(** [a < b] and [a <= b]; both are false when an argument is [nan]. *)
Definition ltb : float -> float -> bool := SFltb.
Definition leb : float -> float -> bool := SFleb.

(** [0.5] *)
Definition half : float := div (of_int 1) (of_int 2).

Definition is_nan (x : float) : bool :=
  match x with
  | S754_nan => true
  | _ => false
  end.

Definition is_zero (x : float) : bool :=
  match x with
  | S754_zero _ => true
  | _ => false
  end.

(** Neither [nan] nor an infinity. *)
Definition is_finite (x : float) : bool :=
  match x with
  | S754_zero _ | S754_finite _ _ _ => true
  | _ => false
  end.

Definition sign_bit (x : float) : bool :=
  match x with
  | S754_zero s | S754_infinity s | S754_finite s _ _ => s
  | S754_nan => false
  end.

(** [np.floor(x).astype(np.intp)]: the greatest integer not above a
    finite [x]; the conversion of an infinity or of [nan] yields the least
    64-bit integer. *)
Definition floor (x : float) : Z :=
  match x with
  | S754_zero _ => 0
  | S754_finite s m e =>
      let v := cond_Zopp s (Zpos m) in
      if e <? 0 then v / 2 ^ (- e) else v * 2 ^ e
  | _ => - 2 ^ 63
  end.

(** The rational number a finite double stands for. *)
Definition to_Q (x : float) : Q :=
  match x with
  | S754_finite s m e =>
      let v := inject_Z (cond_Zopp s (Zpos m)) in
      if e <? 0 then (v / inject_Z (2 ^ (- e)))%Q
      else (v * inject_Z (2 ^ e))%Q
  | _ => 0%Q
  end.

End F64.

(** ** The script on doubles *)
Module Double.

(** [a > b] on floats *)
Definition gt (a b : F64.float) : bool := F64.ltb b a.

(** [max(a, b)]: the first argument is kept unless the second is greater. *)
Definition max2 (a b : F64.float) : F64.float := if gt b a then b else a.

(** [max(x :: l)]: a left-to-right scan that keeps the first maximal
    item. *)
Fixpoint max_from (cur : F64.float) (l : list F64.float) : F64.float :=
  match l with
  | [] => cur
  | y :: l' => max_from (if gt y cur then y else cur) l'
  end.

(** [format(x, ".2f")]: the sign, the integer part, the point and two
    digits of the decimal nearest to the exact value of the double, ties
    to even; [nan] and the infinities are spelled out. *)
Definition format_2f (x : F64.float) : string :=
  match x with
  | S754_nan => "nan"
  | S754_infinity s => if s then "-inf" else "inf"
  | _ =>
      let n := Py.round_half_even (Qabs (F64.to_Q x) * 100)%Q in
      let frac := n mod 100 in
      let sign := if F64.sign_bit x then "-" else "" in
      let pad := if frac <? 10 then "0" else "" in
      (sign ++ Py.str_of_int (n / 100) ++ "." ++ pad
         ++ Py.str_of_int frac)%string
  end.

(** The order numpy sorts floats by: [a < b], every number before
    [nan]. *)
Definition sort_lt (a b : F64.float) : bool :=
  F64.ltb a b || (F64.is_nan b && negb (F64.is_nan a)).

Fixpoint insert (x : F64.float) (l : list F64.float) : list F64.float :=
  match l with
  | [] => [x]
  | y :: l' => if sort_lt y x then y :: insert x l' else x :: l
  end.

(** The array in ascending order. *)
Fixpoint sort (l : list F64.float) : list F64.float :=
  match l with
  | [] => []
  | x :: l' => insert x (sort l')
  end.

(** [arr[i]], a negative [i] counting from the end. *)
Definition getitem (arr : list F64.float) (i : Z) : Py.res F64.float :=
  let n := Z.of_nat (List.length arr) in
  let j := if i <? 0 then n + i else i in
  if (j <? 0) || (n <=? j)
  then Py.Raise (Py.IndexError "index out of bounds")
  else Py.list_getitem arr (Z.to_nat j).

(** [_lerp(a, b, t)]: the second form replaces the first where
    [t >= 0.5]. *)
Definition lerp (a b t : F64.float) : F64.float :=
  let diff_b_a := F64.sub b a in
  if F64.leb F64.half t
  then F64.sub b (F64.mul diff_b_a (F64.sub F64.one t))
  else F64.add a (F64.mul diff_b_a t).

(** [_get_indexes]: floor of the virtual index and its successor (whole
    numbers, held exactly); at or above the last index both become [-1],
    below zero both become [0]. *)
Definition get_indexes (virtual_index : F64.float) (values_count : Z) : Z * Z :=
  let previous_index := F64.floor virtual_index in
  let next_index := previous_index + 1 in
  let above := F64.leb (F64.of_int (values_count - 1)) virtual_index in
  let below := F64.ltb virtual_index F64.zero in
  if below then (0, 0)
  else if above then (-1, -1)
  else (previous_index, next_index).

(** [np.percentile(a, q)] with the default (linear) method, for one
    quantile over a one-dimensional array of doubles. *)
Definition percentile (a : list F64.float) (q : Z) : Py.res F64.float :=
  let quantile := F64.div (F64.of_int q) (F64.of_int 100) in
  let values_count := Z.of_nat (List.length a) in
  let virtual_index := F64.mul (F64.of_int (values_count - 1)) quantile in
  let '(previous_index, next_index) :=
    get_indexes virtual_index values_count in
  let arr := sort a in
  last <- getitem arr (-1) ;;
  previous <- getitem arr previous_index ;;
  next <- getitem arr next_index ;;
  let gamma := F64.sub virtual_index (F64.of_int previous_index) in
  let result := lerp previous next gamma in
  Py.Ok (if F64.is_nan last then last else result).

(** What [rrdtool.fetch] returns; a value is a double, [None] standing
    for an unknown value. *)
Record fetch_data : Type := mk_fetch {
  fd_range : Z * Z * Z;
  fd_names : list string;
  fd_rows : list (list (option F64.float))
}.

(** [rrdtool.fetch(file, "AVERAGE", "--start", s, "--end", e)] *)
Definition fetcher : Type := string -> Z -> Z -> Py.res fetch_data.

(** The list comprehension of [compute_95th]. *)
Fixpoint combined_vals (data : list (list (option F64.float)))
  : Py.res (list F64.float) :=
  match data with
  | [] => Py.Ok []
  | row :: rest =>
      a <- Py.tuple_getitem row in_idx ;;
      match a with
      | None => combined_vals rest
      | Some x =>
          b <- Py.tuple_getitem row out_idx ;;
          match b with
          | None => combined_vals rest
          | Some y =>
              vs <- combined_vals rest ;;
              Py.Ok (max2 x y :: vs)
          end
      end
  end.

(** [np.array(vals) * 8 / 1e6] *)
Definition to_mbps (vals : list F64.float) : list F64.float :=
  map (fun v => F64.div (F64.mul v (F64.of_int 8)) (F64.of_int 1000000))
      vals.

(** The body of [compute_95th] once the fetch has returned. *)
Definition percentile_of_fetch (rrd_file : string) (f : fetch_data)
  : Py.res F64.float :=
  if (List.length (fd_names f) <? 2)%nat
  then Py.Raise (Py.ValueError
         ("RRD " ++ rrd_file ++ " must have at least two DS (in/out)")%string)
  else
    vals <- combined_vals (fd_rows f) ;;
    match vals with
    | [] => Py.Ok F64.zero
    | _ :: _ => percentile (to_mbps vals) 95
    end.

Definition compute_95th (rrd_fetch : fetcher) (rrd_file : string)
    (start_ts end_ts : Z) : Py.res F64.float :=
  f <- rrd_fetch rrd_file start_ts end_ts ;;
  percentile_of_fetch rrd_file f.

(** The inner loop of [main] over one customer's RRD files. *)
Fixpoint collect_samples (rrd_fetch : fetcher) (start_ts end_ts : Z)
    (rrd_list : list string) (out : list string)
    (combined_samples : list F64.float) : list string * list F64.float :=
  match rrd_list with
  | [] => (out, combined_samples)
  | rrd :: rest =>
      match compute_95th rrd_fetch rrd start_ts end_ts with
      | Py.Ok val =>
          collect_samples rrd_fetch start_ts end_ts rest out
            (combined_samples ++ [val])
      | Py.Raise e =>
          collect_samples rrd_fetch start_ts end_ts rest
            (out ++ [("Error reading " ++ rrd ++ ": "
                       ++ Py.str_of_exn e)%string])
            combined_samples
      end
  end.

(** [max(combined_samples)] if the list is non-empty, [0.0] otherwise. *)
Definition val_95_of (combined_samples : list F64.float) : F64.float :=
  match combined_samples with
  | [] => F64.zero
  | x :: l => max_from x l
  end.

Definition report_line (cust_name : string) (val_95 : F64.float) : string :=
  (cust_name ++ ": " ++ format_2f val_95 ++ " Mbps")%string.

(** The outer loop of [main] over [customers.items()]; it also keeps the
    billed figure of every customer next to its report line. *)
Fixpoint bill_customers (rrd_fetch : fetcher) (start_ts end_ts : Z)
    (customers : customers_dict) (out : list string)
    (results : list (string * F64.float)) (lines : list string)
  : list string * list (string * F64.float) * list string :=
  match customers with
  | [] => (out, results, lines)
  | (cust_name, rrd_list) :: rest =>
      let '(out', combined_samples) :=
        collect_samples rrd_fetch start_ts end_ts rrd_list out [] in
      let val_95 := val_95_of combined_samples in
      bill_customers rrd_fetch start_ts end_ts rest out'
        (results ++ [(cust_name, val_95)])
        (lines ++ [report_line cust_name val_95])
  end.

(** [main]; the collaborators are those of [env], except for the storage,
    which is [rrd_fetch]. *)
Definition main (args : Args) (env : Env) (rrd_fetch : fetcher) : Outcome :=
  match get_date_range (now env 0%nat) (mktime env) (prev args) with
  | Py.Raise e => crashed [] e
  | Py.Ok (start_ts, end_ts) =>
  match get_month_label (now env 1%nat) (prev args) with
  | Py.Raise e => crashed [] e
  | Py.Ok month_label =>
  match load_observium_db_config env (observium_config args) with
  | Py.Raise e => crashed [] e
  | Py.Ok cfg =>
  match load_customer_interfaces env cfg (rrd_base args) with
  | (out, Py.Raise e) => crashed out e
  | (out, Py.Ok []) =>
      returned (out ++ ["No customers with RRDs found. Exiting."]) []
  | (out, Py.Ok customers) =>
      let '(out', _, lines) :=
        bill_customers rrd_fetch start_ts end_ts customers out [] [] in
      let report := build_report month_label lines in
      match email_given args with
      | Some to_addr =>
          let subject := report_subject month_label in
          match send_email env to_addr subject report with
          | None => returned out' [(to_addr, subject, report)]
          | Some e => crashed out' e
          end
      | None => returned (out' ++ [report]) []
      end
  end end end end.

(** The billing results of a run: customer name and billed Mbps, for a
    run that reaches the billing loop. *)
Definition billing_results (args : Args) (env : Env) (rrd_fetch : fetcher)
  : option (list (string * F64.float)) :=
  match get_date_range (now env 0%nat) (mktime env) (prev args),
        get_month_label (now env 1%nat) (prev args),
        load_observium_db_config env (observium_config args) with
  | Py.Ok (start_ts, end_ts), Py.Ok _, Py.Ok cfg =>
      match load_customer_interfaces env cfg (rrd_base args) with
      | (out, Py.Ok (c :: cs)) =>
          let '(_, results, _) :=
            bill_customers rrd_fetch start_ts end_ts (c :: cs) out [] [] in
          Some results
      | _ => None
      end
  | _, _, _ => None
  end.

End Double.

(* ================================================================== *)
(** * Part II, continued: reference notions in double precision *)
(* ================================================================== *)

(** Two doubles that compare equal or are both [nan]: the same number,
    but for the sign of a zero. *)
Definition same_double (a b : F64.float) : Prop :=
  a = b \/ (F64.is_zero a = true /\ F64.is_zero b = true).

(** The place of a double in the order numpy sorts by: the negative
    infinity, the negative numbers, the zeros, the positive numbers, the
    positive infinity, [nan]. *)
Definition sort_key (x : F64.float) : Z * Z * Z :=
  match x with
  | S754_infinity true => (-2, 0, 0)
  | S754_finite true m e => (-1, - e, Zneg m)
  | S754_zero _ => (0, 0, 0)
  | S754_finite false m e => (1, e, Zpos m)
  | S754_infinity false => (2, 0, 0)
  | S754_nan => (3, 0, 0)
  end.

Definition key_lt (a b : Z * Z * Z) : Prop :=
  fst (fst a) < fst (fst b)
  \/ (fst (fst a) = fst (fst b)
      /\ (snd (fst a) < snd (fst b)
          \/ (snd (fst a) = snd (fst b) /\ snd a < snd b))).

(** No item is followed by a smaller one. *)
Definition not_after (x y : F64.float) : Prop :=
  Double.sort_lt y x = false.

(** A fetch result as rrdtool builds it: at least two data series, every
    row as wide as the list of series names, every value a double other
    than [nan] (an unknown value is reported as [None]). *)
Definition is_rate (x : F64.float) : Prop :=
  F64.is_double x = true /\ F64.is_nan x = false.

Definition well_formed_doubles (f : Double.fetch_data) : Prop :=
  (2 <= List.length (Double.fd_names f))%nat
  /\ Forall (fun row => List.length row = List.length (Double.fd_names f))
            (Double.fd_rows f)
  /\ Forall (Forall (fun v => match v with
                              | Some x => is_rate x
                              | None => True
                              end))
            (Double.fd_rows f).

(** The larger of two rates (either one when they are equal). *)
Definition larger (i o : F64.float) : F64.float :=
  if F64.leb o i then i else o.

(** The combined rate of a row with both directions present: the larger
    of the entries at positions 0 and 1. *)
Definition combined_rate (row : list (option F64.float))
  : option F64.float :=
  match nth 0 row None, nth 1 row None with
  | Some i, Some o => Some (larger i o)
  | _, _ => None
  end.

(** Steps 1 and 2 of the percentile engine: the combined rate of every
    row with both directions present, times 8, divided by 1 000 000. *)
Fixpoint mbps_values (rows : list (list (option F64.float)))
  : list F64.float :=
  match rows with
  | [] => []
  | row :: rest =>
      match combined_rate row with
      | Some r =>
          F64.div (F64.mul r (F64.of_int 8)) (F64.of_int 1000000)
            :: mbps_values rest
      | None => mbps_values rest
      end
  end.

(** [0.95] *)
Definition q95 : F64.float := F64.div (F64.of_int 95) (F64.of_int 100).

(** The floor and the ceiling of [0.95 * k], as whole numbers. *)
Definition floor_rank (k : Z) : Z := 95 * k / 100.
Definition ceiling_rank (k : Z) : Z := - (- (95 * k) / 100).

(** Step 4 on [n] values already in ascending order: the index is
    [0.95 * (n - 1)]; the result lies between the values [a] and [b] at
    its floor and ceiling ranks, at the fraction [g] by which the index
    exceeds its floor.  It is evaluated as [a + (b - a) * g] for [g] below
    one half and as [b - (b - a) * (1 - g)] from one half on, each
    operation rounding to the nearest double. *)
Definition interpolate (a b g : F64.float) : F64.float :=
  if F64.leb F64.half g
  then F64.sub b (F64.mul (F64.sub b a) (F64.sub F64.one g))
  else F64.add a (F64.mul (F64.sub b a) g).

Definition interp95_double (sorted : list F64.float) : F64.float :=
  let k := Z.of_nat (List.length sorted) - 1 in
  let index := F64.mul q95 (F64.of_int k) in
  let a := nth (Z.to_nat (floor_rank k)) sorted F64.zero in
  let b := nth (Z.to_nat (ceiling_rank k)) sorted F64.zero in
  let g := F64.sub index (F64.of_int (floor_rank k)) in
  interpolate a b g.

(** The same with the one formula [a + (b - a) * g] throughout. *)
Definition interp95_one_formula (sorted : list F64.float) : F64.float :=
  let k := Z.of_nat (List.length sorted) - 1 in
  let index := F64.mul q95 (F64.of_int k) in
  let a := nth (Z.to_nat (floor_rank k)) sorted F64.zero in
  let b := nth (Z.to_nat (ceiling_rank k)) sorted F64.zero in
  let g := F64.sub index (F64.of_int (floor_rank k)) in
  F64.add a (F64.mul (F64.sub b a) g).

(** [sorted] lists the values of [vals] in ascending order. *)
Definition ascending (sorted vals : list F64.float) : Prop :=
  Sorted (fun x y => F64.leb x y = true) sorted /\ Permutation sorted vals.

(** The reference 95th percentile of the rows of a fetch, in double
    precision. *)
Definition percentile95_double (rows : list (list (option F64.float)))
    (v : F64.float) : Prop :=
  exists sorted,
    ascending sorted (mbps_values rows)
    /\ same_double v (interp95_double sorted).

(** The difference of any two of the values is a finite double: the
    values are finite and not so far apart that their difference
    overflows. *)
Definition differences_finite (vals : list F64.float) : bool :=
  forallb (fun a => forallb (fun b => F64.is_finite (F64.sub b a)) vals)
          vals.

(** A finite double of moderate size: zero, or with exponent and
    magnitude within [b]. *)
Definition moderate (b : Z) (x : F64.float) : Prop :=
  match x with
  | S754_zero _ => True
  | S754_finite _ m e => - b <= e /\ Zpos (digits2_pos m) + e <= b
  | _ => False
  end.

(** For [k + 1] values, numpy's index arithmetic in double precision
    arrives at the floor rank of [0.95 * k] and the rank after it; the
    fraction [g] of the index and [1 - g] are finite, and [g] is zero when
    [0.95 * k] is whole. *)
Definition index_check (k : Z) : bool :=
  let virtual_index := F64.mul (F64.of_int k) q95 in
  let g := F64.sub virtual_index (F64.of_int (floor_rank k)) in
  (let '(previous_index, next_index) :=
     Double.get_indexes virtual_index (k + 1) in
   (previous_index =? floor_rank k) && (next_index =? floor_rank k + 1))
  && F64.is_finite g
  && F64.is_finite (F64.sub F64.one g)
  && (negb (95 * k mod 100 =? 0) || F64.is_zero g).

(** The number of values up to which the index arithmetic is covered:
    the whole part and the fraction of [0.95 * k] come out right as long
    as [k] keeps five bits to spare in a double. *)
Definition max_values : Z := 2 ^ 48.

(** ** The text of a figure with two decimals *)

(** The text before and after the first point of [s]. *)
Fixpoint split_point (s : string) : option (string * string) :=
  match s with
  | EmptyString => None
  | String c s' =>
      if Ascii.eqb c "." then Some (EmptyString, s')
      else match split_point s' with
           | Some (w, f) => Some (String c w, f)
           | None => None
           end
  end.

(** A leading minus sign and the text after it. *)
Definition strip_sign (s : string) : bool * string :=
  match s with
  | String "-" rest => (true, rest)
  | _ => (false, s)
  end.

(** Reading a text of the form [-]digits.dd, the digits without a
    redundant leading zero: the sign and the number of hundredths. *)
Definition read_2f (s : string) : option (bool * Z) :=
  let '(negative, body) := strip_sign s in
  match split_point body with
  | None => None
  | Some (w, f) =>
      match NilZero.uint_of_string w, NilZero.uint_of_string f with
      | Some dw, Some df =>
          if (String.length f =? 2)%nat
             && Decimal.uint_beq (Decimal.unorm dw) dw
          then Some (negative,
                     100 * Z.of_N (N.of_uint dw) + Z.of_N (N.of_uint df))
          else None
      | _, _ => None
      end
  end.

(** [n] hundredths is the multiple of 0.01 nearest to [r], the even one
    of the two when [r] lies halfway. *)
Definition nearest_hundredths (r : Q) (n : Z) : Prop :=
  (Qabs (r * 100 - inject_Z n) <= 1 # 2)%Q
  /\ ((Qabs (r * 100 - inject_Z n) == 1 # 2)%Q -> Z.even n = true).

(** [s] shows the double [x] with two decimals. *)
Definition two_decimals (x : F64.float) (s : string) : Prop :=
  match x with
  | S754_nan => s = "nan"
  | S754_infinity sign => s = if sign then "-inf" else "inf"
  | _ =>
      exists n,
        read_2f s = Some (F64.sign_bit x, n)
        /\ nearest_hundredths (Qabs (F64.to_Q x)) n
  end.

(** The lines of a text, each but the last followed by a line feed. *)
Fixpoint lines_text (lines : list string) : string :=
  match lines with
  | [] => ""
  | [l] => l
  | l :: rest => (l ++ newline ++ lines_text rest)%string
  end.

(** The text of a report: the header line naming the period, an empty
    line (each ended by a line feed), and one line per customer with the
    text of its figure. *)
Definition report_layout (label : string) (entries : list (string * string))
  : string :=
  ("95th Percentile Billing Report for " ++ label ++ newline
     ++ "" ++ newline
     ++ lines_text
          (map (fun e => (fst e ++ ": " ++ snd e ++ " Mbps")%string)
               entries))%string.

(** No point occurs in [s]. *)
Fixpoint point_free (s : string) : bool :=
  match s with
  | EmptyString => true
  | String c s' => negb (Ascii.eqb c ".") && point_free s'
  end.

(** The two digits [format_2f] writes for [r] hundredths are read back
    as [r]. *)
Definition fraction_check (r : Z) : bool :=
  let pad := if r <? 10 then "0" else "" in
  let text := (pad ++ Py.str_of_int r)%string in
  (String.length text =? 2)%nat
  && match NilZero.uint_of_string text with
     | Some d => Z.of_N (N.of_uint d) =? r
     | None => false
     end.

(** ** Sample inputs in double precision *)

(** A fetch whose rows hold the given whole rates. *)
Definition whole_row (i o : Z) : list (option F64.float) :=
  [Some (F64.of_int i); Some (F64.of_int o)].

Definition fetch_of_rows (rows : list (list (option F64.float)))
  : Double.fetch_data :=
  Double.mk_fetch (0, 300 * Z.of_nat (List.length rows), 300) series_names
                  rows.

(** Three samples with both directions and one gap. *)
Definition fetch_mixed_doubles : Double.fetch_data :=
  fetch_of_rows
    [whole_row 1250000 625000;
     [None; Some (F64.of_int 10)];
     whole_row 2500000 5000000;
     whole_row 3750000 3750000].

(** Two samples of 1 and 32 bytes per second. *)
Definition fetch_two_rates : Double.fetch_data :=
  fetch_of_rows [whole_row 1 0; whole_row 32 0].

(** One sample whose rate is the double [2^1023]. *)
Definition fetch_huge : Double.fetch_data :=
  fetch_of_rows [whole_row (2 ^ 1023) 0].

(** A directory of three customers. *)
Definition rounding_rows : list port_row :=
  [mk_row 1 "Cust:Acme" "edge1";
   mk_row 2 "cust:  Acme " "edge1";
   mk_row 7 "Cust: Beta" "edge2";
   mk_row 9 "Cust:Gamma" "edge3"].

Definition rounding_env : Env :=
  sample_env rounding_rows
             (fun _ => Py.Raise (Py.LibraryError "could not read the RRD")).

(** Acme's interfaces carry 334 375 and 1 000 bytes per second, Beta's
    carries 625, Gamma's RRD cannot be read. *)
Definition rounding_fetch : Double.fetcher :=
  fun file _ _ =>
    if String.eqb file "/opt/observium/rrd/edge1/port-1.rrd"
    then Py.Ok (fetch_of_rows [whole_row 334375 1000])
    else if String.eqb file "/opt/observium/rrd/edge1/port-2.rrd"
    then Py.Ok (fetch_of_rows [whole_row 20 1000])
    else if String.eqb file "/opt/observium/rrd/edge2/port-7.rrd"
    then Py.Ok (fetch_of_rows [whole_row 625 0])
    else Py.Raise (Py.LibraryError "could not read the RRD").

(* ================================================================== *)
(** * Part III: properties *)
(* ================================================================== *)

Local Open Scope Q_scope.

(** ** Ordering of the array *)

Lemma Qle_bool_false (x y : Q) : Qle_bool x y = false -> y < x.
Proof.
  intros H. apply Qnot_le_lt. intros L.
  apply Qle_bool_iff in L. congruence.
Qed.

Lemma gt_true (a b : Q) : Py.gt a b = true <-> b < a.
Proof.
  unfold Py.gt. rewrite Qlt_alt. destruct (b ?= a); split; congruence.
Qed.

Lemma gt_false (a b : Q) : Py.gt a b = false <-> a <= b.
Proof.
  split; intros H.
  - apply Qnot_lt_le. intros L. apply gt_true in L. congruence.
  - destruct (Py.gt a b) eqn:E; [|reflexivity].
    apply gt_true in E. exfalso. apply (Qlt_not_le _ _ E H).
Qed.

Lemma insert_length (x : Q) (l : list Q) :
  List.length (Np.insert x l) = S (List.length l).
Proof.
  induction l as [|y l IH]; simpl; [reflexivity|].
  destruct (Qle_bool x y); simpl; congruence.
Qed.

Lemma sort_length (l : list Q) : List.length (Np.sort l) = List.length l.
Proof.
  induction l as [|x l IH]; simpl; [reflexivity|].
  rewrite insert_length. congruence.
Qed.

Lemma insert_In (x y : Q) (l : list Q) :
  In y (Np.insert x l) <-> y = x \/ In y l.
Proof.
  induction l as [|z l IH]; simpl.
  - intuition.
  - destruct (Qle_bool x z); simpl; [intuition|].
    rewrite IH. intuition.
Qed.

Lemma sort_In (y : Q) (l : list Q) : In y (Np.sort l) <-> In y l.
Proof.
  induction l as [|x l IH]; simpl; [reflexivity|].
  rewrite insert_In, IH. intuition.
Qed.

Lemma insert_eqlist (x x' : Q) (l l' : list Q) :
  x == x' -> eqlistA Qeq l l' ->
  eqlistA Qeq (Np.insert x l) (Np.insert x' l').
Proof.
  intros Hx H. induction H as [|y y' l l' Hy Hl IH]; simpl.
  - repeat constructor. exact Hx.
  - assert (E : Qle_bool x y = Qle_bool x' y').
    { destruct (Qle_bool x y) eqn:E1, (Qle_bool x' y') eqn:E2;
        try reflexivity; exfalso.
      - apply Qle_bool_iff in E1. apply Qle_bool_false in E2.
        rewrite Hx, Hy in E1. apply (Qlt_not_le _ _ E2 E1).
      - apply Qle_bool_iff in E2. apply Qle_bool_false in E1.
        rewrite <- Hx, <- Hy in E2. apply (Qlt_not_le _ _ E1 E2). }
    rewrite <- E. destruct (Qle_bool x y).
    + repeat constructor; assumption.
    + constructor; assumption.
Qed.

Lemma eqlistA_Qeq_refl (l : list Q) : eqlistA Qeq l l.
Proof. induction l; constructor; [reflexivity|assumption]. Qed.

Lemma insert_swap (x y : Q) (l : list Q) :
  eqlistA Qeq (Np.insert x (Np.insert y l)) (Np.insert y (Np.insert x l)).
Proof.
  induction l as [|z l IH]; simpl.
  - destruct (Qle_bool x y) eqn:Exy, (Qle_bool y x) eqn:Eyx;
      try apply eqlistA_Qeq_refl.
    + apply Qle_bool_iff in Exy, Eyx.
      assert (x == y) by (apply Qle_antisym; assumption).
      repeat constructor; [assumption|symmetry; assumption].
    + apply Qle_bool_false in Exy, Eyx. exfalso.
      apply (Qlt_irrefl x). apply (Qlt_trans _ y); assumption.
  - destruct (Qle_bool y z) eqn:Eyz, (Qle_bool x z) eqn:Exz; simpl;
      destruct (Qle_bool x y) eqn:Exy, (Qle_bool y x) eqn:Eyx;
      rewrite ?Eyz, ?Exz; try apply eqlistA_Qeq_refl;
      repeat match goal with
             | H : Qle_bool _ _ = true |- _ => apply Qle_bool_iff in H
             | H : Qle_bool _ _ = false |- _ => apply Qle_bool_false in H
             end;
      try (exfalso; lra).
    + assert (x == y) by lra.
      constructor; [assumption|]. constructor; [symmetry; assumption|].
      apply eqlistA_Qeq_refl.
    + constructor; [reflexivity|exact IH].
    + constructor; [reflexivity|exact IH].
    + constructor; [reflexivity|exact IH].
Qed.

Lemma eqlistA_Qeq_trans (l1 l2 l3 : list Q) :
  eqlistA Qeq l1 l2 -> eqlistA Qeq l2 l3 -> eqlistA Qeq l1 l3.
Proof.
  intros H. revert l3. induction H; intros l3 H3; inversion H3; subst.
  - constructor.
  - constructor; [etransitivity; eassumption|auto].
Qed.

Lemma sort_permA (l1 l2 : list Q) :
  PermutationA Qeq l1 l2 -> eqlistA Qeq (Np.sort l1) (Np.sort l2).
Proof.
  induction 1; simpl.
  - constructor.
  - apply insert_eqlist; assumption.
  - apply insert_swap.
  - eapply eqlistA_Qeq_trans; eassumption.
Qed.


(** ** The percentile *)

Lemma lerp_eq (a b t : Q) : Np.lerp a b t == a + (b - a) * t.
Proof. unfold Np.lerp. destruct (Qle_bool (1 # 2) t); ring. Qed.

Lemma getitem_nonneg (arr : list Q) (i : Z) :
  (0 <= i < Z.of_nat (List.length arr))%Z ->
  Np.getitem arr i = Py.Ok (nth (Z.to_nat i) arr 0).
Proof.
  intros [H0 H1]. unfold Np.getitem.
  destruct (Z.ltb_spec i 0) as [L|_]; [lia|].
  destruct (Z.ltb_spec i 0) as [L|_]; [lia|].
  destruct (Z.leb_spec (Z.of_nat (List.length arr)) i) as [L|_]; [lia|].
  simpl. unfold Py.list_getitem.
  destruct (nth_error arr (Z.to_nat i)) eqn:E.
  - rewrite (nth_error_nth _ _ _ E). reflexivity.
  - apply nth_error_None in E. lia.
Qed.

Lemma getitem_last (arr : list Q) :
  arr <> [] ->
  Np.getitem arr (-1) = Py.Ok (nth (List.length arr - 1) arr 0).
Proof.
  intros Hne. unfold Np.getitem.
  assert (0 < List.length arr)%nat
    by (destruct arr; [congruence|simpl; lia]).
  change (-1 <? 0)%Z with true. cbv iota.
  destruct (Z.ltb_spec (Z.of_nat (List.length arr) + -1) 0) as [L|_]; [lia|].
  destruct (Z.leb_spec (Z.of_nat (List.length arr))
              (Z.of_nat (List.length arr) + -1)) as [L|_]; [lia|].
  simpl. unfold Py.list_getitem.
  replace (Z.to_nat (Z.of_nat (List.length arr) + -1))
    with (List.length arr - 1)%nat by lia.
  destruct (nth_error arr (List.length arr - 1)) eqn:E.
  - rewrite (nth_error_nth _ _ _ E). reflexivity.
  - apply nth_error_None in E. lia.
Qed.

Lemma virtual_index_bounds (k : Z) :
  (0 <= k)%Z ->
  0 <= inject_Z k * (95 / 100)
  /\ ((0 < k)%Z -> inject_Z k * (95 / 100) < inject_Z k).
Proof.
  intros Hk. rewrite Zle_Qle in Hk. change (inject_Z 0) with 0 in Hk.
  setoid_replace (95 / 100) with (19 # 20) by reflexivity.
  split.
  - lra.
  - intros Hp. rewrite Zlt_Qlt in Hp. change (inject_Z 0) with 0 in Hp. lra.
Qed.

Lemma floor_bounds (x : Q) (k : Z) :
  0 <= x -> x < inject_Z k -> (0 <= Qfloor x < k)%Z.
Proof.
  intros H0 Hk. split.
  - change 0%Z with (Qfloor 0). apply Qfloor_resp_le; exact H0.
  - rewrite Zlt_Qlt. eapply Qle_lt_trans; [apply Qfloor_le|exact Hk].
Qed.

(** The ceiling rank is the floor rank when the index is whole, and the
    next rank otherwise. *)
Lemma ceiling_floor (x : Q) :
  (x == inject_Z (Qfloor x) /\ Qceiling x = Qfloor x)
  \/ (inject_Z (Qfloor x) < x /\ Qceiling x = (Qfloor x + 1)%Z).
Proof.
  destruct (Qeq_dec x (inject_Z (Qfloor x))) as [E|N].
  - left. split; [exact E|].
    rewrite E at 1. apply Qceiling_Z.
  - right.
    assert (L : inject_Z (Qfloor x) < x).
    { destruct (proj1 (Qle_lteq _ _) (Qfloor_le x)) as [L|E]; [exact L|].
      exfalso. apply N. symmetry. exact E. }
    split; [exact L|].
    assert (H1 : (Qfloor x < Qceiling x)%Z).
    { rewrite Zlt_Qlt. eapply Qlt_le_trans; [exact L|apply Qle_ceiling]. }
    assert (H2 : (Qceiling x - 1 < Qfloor x + 1)%Z).
    { rewrite Zlt_Qlt. eapply Qlt_trans; [apply Qceiling_lt|apply Qlt_floor]. }
    lia.
Qed.

Lemma get_indexes_95 (n : Z) :
  (1 <= n)%Z ->
  Np.get_indexes (inject_Z (n - 1) * (95 / 100)) n
  = if (n =? 1)%Z then ((-1)%Z, (-1)%Z)
    else (Qfloor (inject_Z (n - 1) * (95 / 100)),
          (Qfloor (inject_Z (n - 1) * (95 / 100)) + 1)%Z).
Proof.
  intros Hn.
  destruct (virtual_index_bounds (n - 1)) as [H0 H1]; [lia|].
  unfold Np.get_indexes.
  rewrite (proj2 (gt_false 0 _) H0).
  destruct (Z.eqb_spec n 1) as [E|N].
  - subst n. reflexivity.
  - destruct (Qle_bool (inject_Z (n - 1)) (inject_Z (n - 1) * (95 / 100)))
      eqn:E; [|reflexivity].
    apply Qle_bool_iff in E. exfalso.
    apply (Qlt_not_le _ _ (H1 ltac:(lia)) E).
Qed.

(** [np.percentile(a, 95)] on a non-empty array returns a value; it is the
    interpolation at index [0.95 * (n - 1)] of the ascending array, and a
    convex combination of two of the array's elements. *)
Lemma percentile_95_ok (a : list Q) :
  a <> [] ->
  exists v x y g,
    Np.percentile a 95 = Py.Ok v
    /\ v == interp95 (Np.sort a)
    /\ In x a /\ In y a /\ 0 <= g /\ g <= 1
    /\ v == (1 - g) * x + g * y.
Proof.
  intros Hne.
  assert (Hlen : (1 <= Z.of_nat (List.length a))%Z)
    by (destruct a; [congruence|simpl List.length; lia]).
  assert (Hsne : Np.sort a <> []).
  { intros E. apply (f_equal (@List.length Q)) in E.
    rewrite sort_length in E. simpl in E. lia. }
  unfold Np.percentile, interp95.
  rewrite sort_length.
  set (n := Z.of_nat (List.length a)) in *.
  set (vi := inject_Z (n - 1) * (95 / 100)).
  assert (Hidx : (95 # 100) * inject_Z (n - 1) == vi) by (unfold vi; field).
  rewrite (Qfloor_comp _ _ Hidx), (Qceiling_comp _ _ Hidx).
  destruct (virtual_index_bounds (n - 1)) as [H0 H1]; [lia|].
  fold vi in H0, H1.
  unfold vi at 1. rewrite (get_indexes_95 n Hlen). fold vi.
  set (arr := Np.sort a).
  destruct (Z.eqb_spec n 1) as [E1|N1].
  - (* a single value *)
    rewrite (getitem_last arr Hsne). simpl Py.bind.
    assert (Hl : List.length arr = 1%nat)
      by (unfold arr; rewrite sort_length; lia).
    rewrite Hl. simpl Nat.sub.
    assert (Hvi : vi == 0) by (unfold vi; rewrite E1; reflexivity).
    assert (Hf : Qfloor vi = 0%Z) by (rewrite (Qfloor_comp _ _ Hvi); reflexivity).
    assert (Hc : Qceiling vi = 0%Z)
      by (rewrite (Qceiling_comp _ _ Hvi); reflexivity).
    rewrite Hf, Hc. simpl Z.to_nat.
    assert (Hin : In (nth 0 arr 0) a).
    { apply sort_In. apply nth_In. fold arr. lia. }
    exists (Np.lerp (nth 0 arr 0) (nth 0 arr 0) (vi - inject_Z (-1))),
      (nth 0 arr 0), (nth 0 arr 0), 0.
    repeat split; try assumption; try lra; rewrite lerp_eq; ring.
  - (* two values or more *)
    destruct (floor_bounds vi (n - 1) H0 (H1 ltac:(lia))) as [Hp0 Hp1].
    pose proof (ceiling_floor vi) as Hcf.
    set (p := Qfloor vi) in *.
    assert (Hl : Z.of_nat (List.length arr) = n)
      by (unfold arr; rewrite sort_length; reflexivity).
    rewrite (getitem_nonneg arr p) by lia.
    rewrite (getitem_nonneg arr (p + 1)) by lia.
    simpl Py.bind.
    set (A := nth (Z.to_nat p) arr 0).
    set (B := nth (Z.to_nat (p + 1)) arr 0).
    assert (HA : In A a).
    { apply sort_In. apply nth_In. fold arr. lia. }
    assert (HB : In B a).
    { apply sort_In. apply nth_In. fold arr. lia. }
    assert (Hg0 : 0 <= vi - inject_Z p).
    { pose proof (Qfloor_le vi). fold p in H. lra. }
    assert (Hg1 : vi - inject_Z p <= 1).
    { pose proof (Qlt_floor vi) as H. fold p in H.
      rewrite inject_Z_plus in H. change (inject_Z 1) with 1 in H. lra. }
    exists (Np.lerp A B (vi - inject_Z p)), A, B, (vi - inject_Z p).
    repeat split; try assumption; [|rewrite lerp_eq; ring].
    rewrite lerp_eq, Hidx.
    destruct Hcf as [[Ev Ec]|[Lv Ec]].
    + rewrite Ec. fold A.
      setoid_replace (vi - inject_Z p) with 0 by lra. ring.
    + rewrite Ec. fold B. reflexivity.
Qed.

Lemma eqlistA_nth (s s' : list Q) :
  eqlistA Qeq s s' -> forall i, nth i s 0 == nth i s' 0.
Proof.
  induction 1 as [|x x' l l' Hx Hl IH]; intros i.
  - reflexivity.
  - destruct i; simpl; [exact Hx|apply IH].
Qed.

Lemma eqlistA_In (s s' : list Q) (x : Q) :
  eqlistA Qeq s s' -> In x s -> exists x', In x' s' /\ x == x'.
Proof.
  induction 1 as [|y y' l l' Hy Hl IH]; intros Hin; [contradiction|].
  destruct Hin as [E|Hin].
  - subst y. exists y'. split; [left; reflexivity|exact Hy].
  - destruct (IH Hin) as [x' [H1 H2]]. exists x'. split; [right|]; assumption.
Qed.

Lemma interp95_eqlist (s s' : list Q) :
  eqlistA Qeq s s' -> interp95 s == interp95 s'.
Proof.
  intros H. unfold interp95.
  rewrite (eqlistA_length H).
  rewrite (eqlistA_nth s s' H (Z.to_nat (Qfloor _))).
  rewrite (eqlistA_nth s s' H (Z.to_nat (Qceiling _))).
  reflexivity.
Qed.

(** ** The list comprehension *)

Lemma max2_Qmax (x y : Q) : Py.max2 x y == Qmax x y.
Proof.
  unfold Py.max2. destruct (Py.gt y x) eqn:E.
  - apply gt_true in E. symmetry. apply Q.max_r. apply Qlt_le_weak; exact E.
  - apply gt_false in E. symmetry. apply Q.max_l. exact E.
Qed.

Lemma tuple_getitem_nth (row : list (option Q)) (i : nat) :
  (i < List.length row)%nat ->
  Py.tuple_getitem row i = Py.Ok (nth i row None).
Proof.
  intros H. unfold Py.tuple_getitem.
  destruct (nth_error row i) eqn:E.
  - rewrite (nth_error_nth _ _ _ E). reflexivity.
  - apply nth_error_None in E. lia.
Qed.

(** On rows of width two or more the comprehension never raises, and its
    values, once in Mbps, are those of the reference. *)
Lemma combined_vals_ok (rows : list (list (option Q))) :
  Forall (fun row => (2 <= List.length row)%nat) rows ->
  exists vals,
    combined_vals rows = Py.Ok vals
    /\ eqlistA Qeq (to_mbps vals)
         (reference_mbps (map sample_of_row rows)).
Proof.
  induction 1 as [|row rows Hrow Hrows IH].
  - exists []. split; [reflexivity|constructor].
  - destruct IH as [vals [Hv He]]. simpl combined_vals.
    unfold in_idx, out_idx.
    rewrite (tuple_getitem_nth row 0) by lia. simpl Py.bind.
    simpl map. simpl reference_mbps.
    destruct (nth 0 row None) as [x|] eqn:E0.
    + rewrite (tuple_getitem_nth row 1) by lia. simpl Py.bind.
      destruct (nth 1 row None) as [y|] eqn:E1.
      * rewrite Hv. simpl Py.bind.
        exists (Py.max2 x y :: vals). split; [reflexivity|].
        simpl. constructor; [|exact He].
        rewrite max2_Qmax. reflexivity.
      * exists vals. split; assumption.
    + exists vals. split; assumption.
Qed.

(** Before the conversion the values are the combined rates: for every
    row with both entries present, the larger of the entries at positions
    0 and 1. *)
Lemma combined_vals_rates (rows : list (list (option Q))) :
  Forall (fun row => (2 <= List.length row)%nat) rows ->
  exists vals,
    combined_vals rows = Py.Ok vals
    /\ eqlistA Qeq vals (combined_rates (map sample_of_row rows)).
Proof.
  induction 1 as [|row rows Hrow Hrows IH].
  - exists []. split; [reflexivity|constructor].
  - destruct IH as [vals [Hv He]]. simpl combined_vals.
    unfold in_idx, out_idx.
    rewrite (tuple_getitem_nth row 0) by lia. simpl Py.bind.
    simpl map. simpl combined_rates.
    destruct (nth 0 row None) as [x|] eqn:E0.
    + rewrite (tuple_getitem_nth row 1) by lia. simpl Py.bind.
      destruct (nth 1 row None) as [y|] eqn:E1.
      * rewrite Hv. simpl Py.bind.
        exists (Py.max2 x y :: vals). split; [reflexivity|].
        constructor; [apply max2_Qmax|exact He].
      * exists vals. split; assumption.
    + exists vals. split; assumption.
Qed.

Lemma combined_rates_In (rows : list (list (option Q)))
    (row : list (option Q)) (i o : Q) :
  In row rows -> nth 0 row None = Some i -> nth 1 row None = Some o ->
  In (Qmax i o) (combined_rates (map sample_of_row rows)).
Proof.
  intros Hin Hi Ho. induction rows as [|r rows IH]; [contradiction|].
  simpl map. simpl combined_rates.
  destruct Hin as [->|Hin].
  - rewrite Hi, Ho. left. reflexivity.
  - destruct (nth 0 r None); [|apply IH; exact Hin].
    destruct (nth 1 r None); [right|]; apply IH; exact Hin.
Qed.

Lemma eqlistA_InA (s s' : list Q) (x : Q) :
  eqlistA Qeq s s' -> In x s' -> InA Qeq x s.
Proof.
  induction 1 as [|a b s s' Hab _ IH]; intros Hin; [contradiction|].
  destruct Hin as [->|Hin].
  - left. symmetry. exact Hab.
  - right. apply IH. exact Hin.
Qed.

Lemma well_formed_rows (f : fetch_data) :
  well_formed f ->
  Forall (fun row => (2 <= List.length row)%nat) (fd_rows f).
Proof.
  intros [Hn Hr]. eapply Forall_impl; [|exact Hr].
  intros row E. simpl in E. lia.
Qed.

Lemma well_formed_names (f : fetch_data) :
  well_formed f -> (List.length (fd_names f) <? 2)%nat = false.
Proof. intros [Hn _]. apply Nat.ltb_ge. exact Hn. Qed.

(** On a well-formed fetch the percentile is computed, from the values of
    the reference; nothing is returned for an absent direction. *)
Lemma percentile_of_fetch_ok (rrd_file : string) (f : fetch_data) :
  well_formed f ->
  exists vals,
    combined_vals (fd_rows f) = Py.Ok vals
    /\ eqlistA Qeq (to_mbps vals) (reference_mbps (samples_of_fetch f))
    /\ percentile_of_fetch rrd_file f
       = match vals with
         | [] => Py.Ok 0
         | _ :: _ => Np.percentile (to_mbps vals) 95
         end.
Proof.
  intros Hwf.
  destruct (combined_vals_ok (fd_rows f) (well_formed_rows f Hwf))
    as [vals [Hv He]].
  exists vals. repeat split; [exact Hv|exact He|].
  unfold percentile_of_fetch.
  rewrite (well_formed_names f Hwf), Hv. reflexivity.
Qed.


(** ** Bounds of the percentile *)

Lemma convex_nonneg (x y g : Q) :
  0 <= x -> 0 <= y -> 0 <= g -> g <= 1 -> 0 <= (1 - g) * x + g * y.
Proof.
  intros Hx Hy Hg0 Hg1.
  assert (0 <= (1 - g) * x) by (apply Qmult_le_0_compat; lra).
  assert (0 <= g * y) by (apply Qmult_le_0_compat; lra).
  lra.
Qed.

Lemma convex_negative (x y g : Q) :
  x < 0 -> y < 0 -> 0 <= g -> g <= 1 -> (1 - g) * x + g * y < 0.
Proof.
  intros Hx Hy Hg0 Hg1.
  assert (H1 : 0 <= (1 - g) * (- x)) by (apply Qmult_le_0_compat; lra).
  assert (H2 : 0 <= g * (- y)) by (apply Qmult_le_0_compat; lra).
  destruct (Qlt_le_dec g (1 # 2)) as [L|L].
  - assert (H3 : 0 < (1 - g) * (- x)) by (apply Qmult_lt_0_compat; lra).
    lra.
  - assert (H3 : 0 < g * (- y)) by (apply Qmult_lt_0_compat; lra).
    lra.
Qed.

Lemma mbps_eq (r : Q) : r * 8 / 1000000 == r * (8 # 1000000).
Proof. field. Qed.

Lemma to_mbps_In (vals : list Q) (m : Q) :
  In m (to_mbps vals) -> exists v, In v vals /\ m = v * 8 / 1000000.
Proof.
  unfold to_mbps. rewrite in_map_iff. intros [v [E H]].
  exists v. split; [exact H|symmetry; exact E].
Qed.

Lemma percentile_nonneg (a : list Q) (v : Q) :
  (forall x, In x a -> 0 <= x) -> Np.percentile a 95 = Py.Ok v -> 0 <= v.
Proof.
  intros Ha Hv. destruct a as [|a0 a']; [discriminate Hv|].
  destruct (percentile_95_ok (a0 :: a') ltac:(discriminate))
    as [v' [x [y [g [Hok [_ [Hx [Hy [Hg0 [Hg1 Hconv]]]]]]]]]].
  rewrite Hok in Hv. injection Hv as <-.
  rewrite Hconv. apply convex_nonneg; auto.
Qed.

Lemma combined_vals_nonneg (rows : list (list (option Q))) (vals : list Q) :
  (forall row x, In row rows ->
     nth_error row in_idx = Some (Some x)
     \/ nth_error row out_idx = Some (Some x) -> 0 <= x) ->
  combined_vals rows = Py.Ok vals ->
  forall v, In v vals -> 0 <= v.
Proof.
  revert vals. induction rows as [|row rows IH]; intros vals Hn Hv v Hin.
  - simpl in Hv. injection Hv as <-. contradiction.
  - assert (Hn' : forall row0 x, In row0 rows ->
              nth_error row0 in_idx = Some (Some x)
              \/ nth_error row0 out_idx = Some (Some x) -> 0 <= x)
      by (intros r x Hr; apply Hn; right; exact Hr).
    cbn [combined_vals] in Hv. unfold Py.tuple_getitem in Hv.
    destruct (nth_error row in_idx) as [[x|]|] eqn:E0; cbn [Py.bind] in Hv;
      try discriminate; try (eapply IH; eassumption).
    destruct (nth_error row out_idx) as [[y|]|] eqn:E1; cbn [Py.bind] in Hv;
      try discriminate; try (eapply IH; eassumption).
    destruct (combined_vals rows) as [vs|] eqn:Ec; cbn [Py.bind] in Hv;
      try discriminate.
    injection Hv as <-. destruct Hin as [<-|Hin].
    + unfold Py.max2. destruct (Py.gt y x).
      * apply (Hn row y); [left; reflexivity|right; exact E1].
      * apply (Hn row x); [left; reflexivity|left; exact E0].
    + eapply IH; [exact Hn'|reflexivity|exact Hin].
Qed.

(** With non-negative rates, whatever [compute_95th] returns is
    non-negative. *)
Lemma percentile_of_fetch_nonneg (rrd_file : string) (f : fetch_data) (v : Q) :
  nonneg_rates f -> percentile_of_fetch rrd_file f = Py.Ok v -> 0 <= v.
Proof.
  intros Hn Hv. unfold percentile_of_fetch in Hv.
  destruct (List.length (fd_names f) <? 2)%nat; [discriminate|].
  destruct (combined_vals (fd_rows f)) as [vals|] eqn:Ec; simpl in Hv;
    [|discriminate].
  destruct vals as [|v0 vals'].
  - injection Hv as <-. lra.
  - apply (percentile_nonneg (to_mbps (v0 :: vals'))); [|exact Hv].
    intros x Hx. destruct (to_mbps_In _ _ Hx) as [r [Hr ->]].
    pose proof (combined_vals_nonneg _ _ Hn Ec r Hr).
    rewrite mbps_eq. lra.
Qed.

(** ** Gaps *)

Lemma combined_vals_gaps (gaps rest : list (list (option Q))) :
  Forall is_gap gaps -> combined_vals (gaps ++ rest) = combined_vals rest.
Proof.
  induction 1 as [|row gaps [Hlen Habs] Hg IH]; [reflexivity|].
  simpl app. cbn [combined_vals]. unfold in_idx, out_idx.
  rewrite (tuple_getitem_nth row 0) by lia. cbn [Py.bind].
  destruct (nth 0 row None) as [x|] eqn:E0; [|exact IH].
  rewrite (tuple_getitem_nth row 1) by lia. cbn [Py.bind].
  destruct Habs as [Habs|Habs]; [discriminate|].
  rewrite Habs. exact IH.
Qed.

Lemma percentile_single (m : Q) :
  exists v, Np.percentile [m] 95 = Py.Ok v /\ v == m.
Proof.
  destruct (percentile_95_ok [m] ltac:(discriminate))
    as [v [x [y [g [Hok [_ [Hx [Hy [_ [_ Hconv]]]]]]]]]].
  exists v. split; [exact Hok|].
  destruct Hx as [<-|[]]. destruct Hy as [<-|[]].
  rewrite Hconv. ring.
Qed.


Ltac gap_rows :=
  repeat first
    [ apply Forall_nil
    | apply Forall_cons;
      [ split; [simpl; lia|simpl; first [left; reflexivity|right; reflexivity]]
      | ] ].


(** ** Negative rates *)


Lemma fetch_negative_has_negative_rate : has_negative_rate fetch_negative.
Proof.
  exists [Some (-1); Some (-1)], (-1).
  split; [left; reflexivity|]. split; [left; reflexivity|reflexivity].
Qed.



(** ** The billing loop *)

Lemma max_from_maximum (x : Q) (l : list Q) :
  is_maximum (x :: l) (Py.max_from x l).
Proof.
  revert x. induction l as [|y l IH]; intros x.
  - split; [left; reflexivity|].
    intros z [<-|[]]. apply Qle_refl.
  - simpl Py.max_from.
    destruct (IH (if Py.gt y x then y else x)) as [Hin Hub].
    assert (Hc : x <= (if Py.gt y x then y else x)
                 /\ y <= (if Py.gt y x then y else x)).
    { destruct (Py.gt y x) eqn:E.
      - apply gt_true in E. split; [apply Qlt_le_weak; exact E|apply Qle_refl].
      - apply gt_false in E. split; [apply Qle_refl|exact E]. }
    destruct Hc as [Hx Hy].
    assert (Hm : (if Py.gt y x then y else x)
                 <= Py.max_from (if Py.gt y x then y else x) l)
      by (apply Hub; left; reflexivity).
    split.
    + destruct Hin as [E|Hin].
      * rewrite <- E. destruct (Py.gt y x); [right; left|left]; reflexivity.
      * right; right; exact Hin.
    + intros z [<-|[<-|Hz]].
      * eapply Qle_trans; eassumption.
      * eapply Qle_trans; eassumption.
      * apply Hub. right; exact Hz.
Qed.

Lemma collect_samples_values (env : Env) (s e : Z) (rrd_list : list string)
    (out : list string) (acc : list Q) :
  snd (collect_samples env s e rrd_list out acc)
  = acc ++ computed_percentiles env s e rrd_list.
Proof.
  revert out acc. induction rrd_list as [|rrd rest IH]; intros out acc; simpl.
  - rewrite app_nil_r. reflexivity.
  - destruct (compute_95th env rrd s e) as [v|err].
    + rewrite IH, <- app_assoc. reflexivity.
    + apply IH.
Qed.

(** The figure billed to a customer group. *)
Lemma bill_customers_results (env : Env) (s e : Z) (customers : customers_dict)
    (out : list string) (results : list (string * Q)) (lines : list string) :
  snd (fst (bill_customers env s e customers out results lines))
  = results
    ++ map (fun c => (fst c, val_95_of (computed_percentiles env s e (snd c))))
           customers.
Proof.
  revert out results lines.
  induction customers as [|[name rrds] rest IH]; intros out results lines;
    simpl.
  - rewrite app_nil_r. reflexivity.
  - pose proof (collect_samples_values env s e rrds out []) as Hc.
    destruct (collect_samples env s e rrds out []) as [out' samples].
    simpl in Hc. subst samples.
    rewrite IH, <- app_assoc. reflexivity.
Qed.


(** ** Sign of the billed figure *)

Lemma computed_percentiles_nonneg (env : Env) (s e : Z)
    (rrd_list : list string) :
  (forall file s' e' f, rrd_fetch env file s' e' = Py.Ok f -> nonneg_rates f) ->
  forall v, In v (computed_percentiles env s e rrd_list) -> 0 <= v.
Proof.
  intros Henv. induction rrd_list as [|rrd rest IH]; intros v Hin.
  - contradiction.
  - simpl in Hin.
    destruct (compute_95th env rrd s e) as [v'|err] eqn:Ec; [|auto].
    destruct Hin as [<-|Hin]; [|auto].
    unfold compute_95th in Ec.
    destruct (rrd_fetch env rrd s e) as [f|err] eqn:Ef; [|discriminate].
    cbn [Py.bind] in Ec.
    eapply percentile_of_fetch_nonneg; [eapply Henv; exact Ef|exact Ec].
Qed.

Lemma val_95_of_nonneg (l : list Q) :
  (forall v, In v l -> 0 <= v) -> 0 <= val_95_of l.
Proof.
  intros H. destruct l as [|x l]; simpl.
  - apply Qle_refl.
  - apply H. apply (max_from_maximum x l).
Qed.


Lemma fetch_mixed_nonneg : nonneg_rates fetch_mixed.
Proof.
  intros row x Hin H. simpl in Hin.
  repeat (destruct Hin as [<-|Hin];
          [destruct H as [H|H]; simpl in H; inversion H; subst;
           compute; discriminate|]).
  contradiction.
Qed.



(** ** Exit status *)

Lemma main_after_discovery (args : Args) (env : Env) (out : list string)
    (customers : customers_dict) :
  discovered args env = Some (out, customers) ->
  exists s e label,
    get_date_range (now env 0%nat) (mktime env) (prev args) = Py.Ok (s, e)
    /\ get_month_label (now env 1%nat) (prev args) = Py.Ok label
    /\ main args env
       = match customers with
         | [] => returned (out ++ ["No customers with RRDs found. Exiting."]) []
         | _ :: _ =>
             let '(out', _, lines) :=
               bill_customers env s e customers out [] [] in
             let report := build_report label lines in
             match email_given args with
             | Some to_addr =>
                 match send_email env to_addr (report_subject label) report with
                 | None => returned out' [(to_addr, report_subject label, report)]
                 | Some err => crashed out' err
                 end
             | None => returned (out' ++ [report]) []
             end
         end.
Proof.
  unfold discovered, main. intros H.
  destruct (get_date_range _ _ _) as [[s e]|]; [|discriminate].
  destruct (get_month_label _ _) as [label|]; [|discriminate].
  destruct (load_observium_db_config _ _) as [cfg|]; [|discriminate].
  destruct (load_customer_interfaces _ _ _) as [out0 [cs|]]; [|discriminate].
  injection H as -> ->.
  exists s, e, label. split; [reflexivity|]. split; [reflexivity|].
  destruct customers; reflexivity.
Qed.

(** C4, as the code has it.  Once the directory has been read, a run
    that finds no customer group prints its notice, builds no report and
    returns, so the exit code is zero; a run with customer groups ends
    with exit code zero however many interfaces were skipped with a
    warning (provided the report, if mailed, is accepted for delivery). *)
Theorem exit_code_after_discovery (args : Args) (env : Env)
    (out : list string) (customers : customers_dict) :
  discovered args env = Some (out, customers) ->
  (customers = [] ->
   main args env
   = mk_outcome (out ++ ["No customers with RRDs found. Exiting."]) [] None 0)
  /\ (email_given args = None
      \/ (forall to_addr subject body,
            send_email env to_addr subject body = None) ->
      exit_code (main args env) = 0%Z /\ uncaught (main args env) = None).
Proof.
  intros H.
  destruct (main_after_discovery args env out customers H)
    as [s [e [label [_ [_ Hm]]]]].
  rewrite Hm. split.
  - intros ->. reflexivity.
  - intros Hmail. destruct customers as [|c cs]; [split; reflexivity|].
    destruct (bill_customers env s e (c :: cs) out [] []) as [[out' res] lines].
    cbv beta iota zeta.
    destruct (email_given args) as [to_addr|] eqn:Em.
    + destruct Hmail as [Hmail|Hmail]; [discriminate|].
      rewrite Hmail. split; reflexivity.
    + split; reflexivity.
Qed.

Lemma exit_code_after_discovery_witness :
  (exit_code (main sample_args scenario_env) = 0%Z
   /\ uncaught (main sample_args scenario_env) = None)
  /\ main sample_args empty_env
     = mk_outcome
         ["Warning: No interfaces found with ifAlias starting with 'Cust:'";
          "No customers with RRDs found. Exiting."] [] None 0.
Proof.
  split.
  - eapply (exit_code_after_discovery sample_args scenario_env).
    + vm_compute. reflexivity.
    + left. reflexivity.
  - eapply (exit_code_after_discovery sample_args empty_env
              ["Warning: No interfaces found with ifAlias starting with 'Cust:'"]
              []).
    + vm_compute. reflexivity.
    + reflexivity.
Defined.

(** The claim C4 fails on the code: with no customer group discovered
    the run returns normally, and its exit code is zero. *)
Lemma no_customers_exit_code_zero :
  discovered sample_args empty_env
  = Some (["Warning: No interfaces found with ifAlias starting with 'Cust:'"],
          [])
  /\ exit_code (main sample_args empty_env) = 0%Z.
Proof. split; vm_compute; reflexivity. Qed.

(** ** The billing period *)

Lemma int_of_whole_timestamp (mktime : DT.datetime -> Z) (t : DT.datetime) :
  DT.microsecond t = 0%Z ->
  Py.int_of_float (DT.timestamp mktime t) = mktime t.
Proof.
  intros H. unfold Py.int_of_float, DT.timestamp. rewrite H.
  cbn [Qnum Qden Qplus Qdiv Qmult Qinv inject_Z Z.mul Pos.mul].
  rewrite Z.add_0_r. apply Z.quot_mul. discriminate.
Qed.

(** C6. With the system clock anywhere on 2025-09-15, previous-month mode
    yields the label "August 2025" and the window from local time
    2025-08-01T00:00:00 to local time 2025-08-31T23:59:59, both as POSIX
    seconds; the end is one second before 2025-09-01T00:00:00, the first
    instant of the current month. *)
Theorem previous_month_of_2025_09_15 (hh mm ss us : Z)
    (mktime : DT.datetime -> Z) :
  get_month_label (DT.mk_datetime 2025 9 15 hh mm ss us) true
  = Py.Ok "August 2025"
  /\ get_date_range (DT.mk_datetime 2025 9 15 hh mm ss us) mktime true
     = Py.Ok (mktime (DT.mk_datetime 2025 8 1 0 0 0 0),
              mktime (DT.mk_datetime 2025 8 31 23 59 59 0))
  /\ DT.add (DT.mk_datetime 2025 8 31 23 59 59 0) (DT.timedelta_seconds 1)
     = Py.Ok (DT.mk_datetime 2025 9 1 0 0 0 0).
Proof.
  split; [reflexivity|]. split; [|reflexivity].
  unfold get_date_range.
  change (DT.make (DT.year (DT.mk_datetime 2025 9 15 hh mm ss us))
                  (DT.month (DT.mk_datetime 2025 9 15 hh mm ss us)) 1)
    with (Py.Ok (DT.mk_datetime 2025 9 1 0 0 0 0)).
  cbn [Py.bind].
  change (DT.sub (DT.mk_datetime 2025 9 1 0 0 0 0) (DT.timedelta_seconds 1))
    with (Py.Ok (DT.mk_datetime 2025 8 31 23 59 59 0)).
  cbn [Py.bind].
  change (DT.make (DT.year (DT.mk_datetime 2025 8 31 23 59 59 0))
                  (DT.month (DT.mk_datetime 2025 8 31 23 59 59 0)) 1)
    with (Py.Ok (DT.mk_datetime 2025 8 1 0 0 0 0)).
  cbn [Py.bind].
  rewrite !int_of_whole_timestamp by reflexivity. reflexivity.
Qed.

(** ** Discovery order and the report *)

Lemma string_append_assoc (a b c : string) :
  ((a ++ b) ++ c)%string = (a ++ (b ++ c))%string.
Proof. induction a as [|ch a IH]; simpl; [reflexivity|rewrite IH; reflexivity]. Qed.

Lemma dict_append_keys (k v : string) (d : customers_dict) :
  map fst (dict_append k v d)
  = if existsb (String.eqb k) (map fst d) then map fst d
    else map fst d ++ [k].
Proof.
  induction d as [|[k' vs] rest IH]; simpl; [reflexivity|].
  rewrite (String.eqb_sym k k').
  destruct (String.eqb k' k); simpl; [reflexivity|].
  rewrite IH. destruct (existsb (String.eqb k) (map fst rest)); reflexivity.
Qed.

Lemma group_rows_keys (env : Env) (base : string) (rows : list port_row)
    (out : list string) (d : customers_dict) :
  map fst (snd (group_rows env base rows out d))
  = map fst d ++ first_seen_from (map fst d) (discovered_names env base rows).
Proof.
  revert out d. unfold discovered_names.
  induction rows as [|r rest IH]; intros out d; simpl.
  - rewrite app_nil_r. reflexivity.
  - destruct (path_exists env (rrd_path base r)); simpl.
    + rewrite IH, dict_append_keys.
      destruct (existsb (String.eqb (cust_name_of (ifAlias r))) (map fst d)).
      * reflexivity.
      * rewrite <- app_assoc. reflexivity.
    + apply IH.
Qed.

(** The customer groups come in the order in which their names are first
    seen among the directory rows that have an RRD file. *)
Lemma load_customer_interfaces_order (env : Env) (cfg : db_config)
    (base : string) (rows : list port_row) (out : list string)
    (customers : customers_dict) :
  mysql_ports env cfg = Py.Ok rows ->
  load_customer_interfaces env cfg base = (out, Py.Ok customers) ->
  map fst customers = first_seen (discovered_names env base rows).
Proof.
  intros Hq Hl. unfold load_customer_interfaces in Hl. rewrite Hq in Hl.
  destruct rows as [|r rest].
  - injection Hl as _ <-. reflexivity.
  - pose proof (group_rows_keys env base (r :: rest) [] []) as Hk.
    destruct (group_rows env base (r :: rest) [] []) as [out0 cs].
    injection Hl as _ <-. exact Hk.
Qed.


(** ** Series are read by position *)

Lemma combined_vals_agree (rows rows' : list (list (option Q))) :
  Forall2 (fun r r' => nth_error r in_idx = nth_error r' in_idx
                       /\ nth_error r out_idx = nth_error r' out_idx)
          rows rows' ->
  combined_vals rows = combined_vals rows'.
Proof.
  induction 1 as [|r r' rows rows' [H0 H1] _ IH]; [reflexivity|].
  cbn [combined_vals]. unfold Py.tuple_getitem.
  rewrite H0, H1, IH. reflexivity.
Qed.

(** C9. With two data series or more, [compute_95th] combines the
    entries at positions 0 and 1 of every row: its figure is
    [np.percentile] of the larger of these two entries, taken for every
    row in which both are present and converted to Mbps.  Nothing else is
    read: two fetch results that agree at positions 0 and 1 yield the
    same outcome, whatever the names and the number of their series.
    Hence the figure depends on the order in which storage lists the
    series: listing the third series of [fetch_three_series] first
    changes it. *)
Theorem series_selected_by_position :
  (forall (rrd_file : string) (f : fetch_data),
     (2 <= List.length (fd_names f))%nat ->
     Forall (fun row => (2 <= List.length row)%nat) (fd_rows f) ->
     exists vals,
       combined_vals (fd_rows f) = Py.Ok vals
       /\ eqlistA Qeq vals (combined_rates (samples_of_fetch f))
       /\ percentile_of_fetch rrd_file f
          = match vals with
            | [] => Py.Ok 0
            | _ :: _ => Np.percentile (to_mbps vals) 95
            end)
  /\ (forall (rrd_file : string) (f f' : fetch_data),
        (2 <= List.length (fd_names f))%nat ->
        (2 <= List.length (fd_names f'))%nat ->
        Forall2 (fun r r' => nth_error r in_idx = nth_error r' in_idx
                             /\ nth_error r out_idx = nth_error r' out_idx)
                (fd_rows f) (fd_rows f') ->
        percentile_of_fetch rrd_file f = percentile_of_fetch rrd_file f')
  /\ (exists v v',
        percentile_of_fetch "port-1.rrd" fetch_three_series = Py.Ok v
        /\ percentile_of_fetch "port-1.rrd"
             (reorder_series [2; 0; 1]%nat fetch_three_series) = Py.Ok v'
        /\ fd_names (reorder_series [2; 0; 1]%nat fetch_three_series)
           = ["INERRORS"; "INOCTETS"; "OUTOCTETS"]
        /\ ~ v == v').
Proof.
  split; [|split].
  - intros rrd_file f Hn Hrows.
    destruct (combined_vals_rates (fd_rows f) Hrows) as [vals [Hv He]].
    exists vals. split; [exact Hv|]. split; [exact He|].
    unfold percentile_of_fetch.
    apply Nat.ltb_ge in Hn. rewrite Hn, Hv. reflexivity.
  - intros rrd_file f f' Hn Hn' Hrows. unfold percentile_of_fetch.
    apply Nat.ltb_ge in Hn, Hn'. rewrite Hn, Hn'.
    rewrite (combined_vals_agree _ _ Hrows). reflexivity.
  - eexists. eexists.
    split; [vm_compute; reflexivity|].
    split; [vm_compute; reflexivity|].
    split; [reflexivity|]. intros H. discriminate H.
Qed.

Lemma series_selected_by_position_witness :
  (exists vals,
     combined_vals (fd_rows fetch_three_series) = Py.Ok vals
     /\ eqlistA Qeq vals [Qmax 1000000 2000000]
     /\ percentile_of_fetch "port-1.rrd" fetch_three_series
        = Np.percentile (to_mbps vals) 95)
  /\ percentile_of_fetch "port-1.rrd" fetch_three_series
     = percentile_of_fetch "port-1.rrd" (fetch_one 1000000 2000000).
Proof.
  split.
  - destruct (proj1 series_selected_by_position "port-1.rrd"
                fetch_three_series) as [vals [Hv [He Hp]]].
    + simpl. lia.
    + repeat constructor.
    + exists vals. split; [exact Hv|]. split; [exact He|].
      rewrite Hp. destruct vals; [inversion He|reflexivity].
  - apply (proj1 (proj2 series_selected_by_position) "port-1.rrd"
             fetch_three_series (fetch_one 1000000 2000000)).
    + simpl. lia.
    + simpl. lia.
    + repeat constructor.
Defined.

(** ** Customer names *)

Lemma split1_first_colon (pre post : string) :
  colon_free pre = true ->
  Py.split1 ":" (pre ++ String ":" post) = [pre; post].
Proof.
  induction pre as [|c pre IH]; simpl; intros H; [reflexivity|].
  apply andb_true_iff in H. destruct H as [Hc Hpre].
  apply negb_true_iff in Hc. rewrite Hc, (IH Hpre). reflexivity.
Qed.

Lemma cust_name_after_first_colon (pre post : string) :
  colon_free pre = true ->
  cust_name_of (pre ++ String ":" post) = Py.strip post.
Proof.
  intros H. unfold cust_name_of. rewrite (split1_first_colon pre post H).
  reflexivity.
Qed.

Lemma substring_all (s : string) : String.substring 0 (String.length s) s = s.
Proof. induction s as [|c s IH]; simpl; [reflexivity|rewrite IH; reflexivity]. Qed.

Lemma letter_inv (c lower upper : ascii) :
  letter c lower upper = true -> c = lower \/ c = upper.
Proof.
  unfold letter. intros H. apply orb_true_iff in H.
  destruct H as [H|H]; apply Ascii.eqb_eq in H; auto.
Qed.

(** A matching alias is four letters without a colon, a colon, and the
    text from the sixth character on. *)
Lemma alias_prefix_inv (alias : string) :
  alias_matches_prefix alias = true ->
  exists pre,
    alias = (pre ++ String ":" (text_from 5 alias))%string
    /\ colon_free pre = true.
Proof.
  unfold alias_matches_prefix, text_from.
  destruct alias as [|c0 [|c1 [|c2 [|c3 [|c4 rest]]]]]; try discriminate.
  intros H. repeat (apply andb_true_iff in H; destruct H as [H ?]).
  repeat match goal with
         | E : Ascii.eqb _ _ = true |- _ => apply Ascii.eqb_eq in E; subst
         end.
  exists (String c0 (String c1 (String c2 (String c3 EmptyString)))).
  split.
  - simpl. rewrite Nat.sub_0_r, substring_all. reflexivity.
  - repeat match goal with
           | E : letter _ _ _ = true |- _ =>
               apply letter_inv in E; destruct E; subst
           end; reflexivity.
Qed.

Lemma dict_get_append_same (k v : string) (d : customers_dict) :
  dict_get k (dict_append k v d)
  = Some (match dict_get k d with
          | Some vs => vs ++ [v]
          | None => [v]
          end).
Proof.
  induction d as [|[k' vs] rest IH]; simpl.
  - rewrite String.eqb_refl. reflexivity.
  - destruct (String.eqb k' k) eqn:E; simpl; rewrite E; [reflexivity|exact IH].
Qed.

Lemma dict_get_append_other (k k' v : string) (d : customers_dict) :
  k' <> k -> dict_get k' (dict_append k v d) = dict_get k' d.
Proof.
  intros N. induction d as [|[k0 vs] rest IH]; simpl.
  - apply String.eqb_neq in N. rewrite String.eqb_sym, N. reflexivity.
  - destruct (String.eqb k0 k) eqn:E; simpl.
    + apply String.eqb_eq in E. subst k0.
      apply not_eq_sym in N. apply String.eqb_neq in N. rewrite N. reflexivity.
    + rewrite IH. reflexivity.
Qed.

(** Files already filed under a customer stay there. *)
Lemma group_rows_keeps (env : Env) (base : string) (rows : list port_row)
    (out : list string) (d : customers_dict) (k file : string)
    (files : list string) :
  dict_get k d = Some files -> In file files ->
  exists files',
    dict_get k (snd (group_rows env base rows out d)) = Some files'
    /\ In file files'.
Proof.
  revert out d files. induction rows as [|r rest IH]; intros out d files Hg Hin.
  - exists files. split; assumption.
  - simpl. destruct (path_exists env (rrd_path base r)); [|eapply IH; eauto].
    destruct (String.eqb_spec k (cust_name_of (ifAlias r))) as [E|N].
    + subst k. eapply IH.
      * rewrite dict_get_append_same, Hg. reflexivity.
      * apply in_or_app. left. exact Hin.
    + eapply IH; [|exact Hin].
      rewrite dict_get_append_other by exact N. exact Hg.
Qed.

(** Every row with an RRD file is filed under the name derived from its
    alias. *)
Lemma group_rows_files (env : Env) (base : string) (rows : list port_row)
    (out : list string) (d : customers_dict) (r : port_row) :
  In r rows -> path_exists env (rrd_path base r) = true ->
  exists files,
    dict_get (cust_name_of (ifAlias r))
             (snd (group_rows env base rows out d)) = Some files
    /\ In (rrd_path base r) files.
Proof.
  revert out d. induction rows as [|r0 rest IH]; intros out d Hin Hex.
  - contradiction.
  - destruct Hin as [->|Hin].
    + simpl. rewrite Hex.
      eapply group_rows_keeps; [apply dict_get_append_same|].
      destruct (dict_get (cust_name_of (ifAlias r)) d);
        [apply in_or_app; right|]; left; reflexivity.
    + simpl. destruct (path_exists env (rrd_path base r0)); apply IH; assumption.
Qed.

(** C10. For a directory row whose alias matches the customer prefix,
    the customer name is the text after the first colon of the alias (the
    colon that ends the prefix), without leading and trailing whitespace,
    and the row's RRD file, when it exists, is filed under that name.  So
    "Cust:Acme" and "cust:  Acme " both name the customer "Acme" and fall
    into one group. *)
Theorem customer_name_from_alias (alias : string) :
  alias_matches_prefix alias = true ->
  cust_name_of alias = Py.strip (text_from 5 alias)
  /\ (exists pre,
        alias = (pre ++ String ":" (text_from 5 alias))%string
        /\ colon_free pre = true)
  /\ (forall (env : Env) (cfg : db_config) (base : string)
             (rows : list port_row) (out : list string)
             (customers : customers_dict) (r : port_row),
        mysql_ports env cfg = Py.Ok rows ->
        load_customer_interfaces env cfg base = (out, Py.Ok customers) ->
        In r rows ->
        ifAlias r = alias ->
        path_exists env (rrd_path base r) = true ->
        exists files,
          dict_get (Py.strip (text_from 5 alias)) customers = Some files
          /\ In (rrd_path base r) files)
  /\ cust_name_of "Cust:Acme" = "Acme"
  /\ cust_name_of "cust:  Acme " = "Acme".
Proof.
  intros Hm.
  pose proof (alias_prefix_inv alias Hm) as Hpre.
  assert (Hname : cust_name_of alias = Py.strip (text_from 5 alias)).
  { destruct Hpre as [pre [E Hfree]]. rewrite E at 1.
    apply cust_name_after_first_colon. exact Hfree. }
  split; [exact Hname|]. split; [exact Hpre|]. split; [|split; reflexivity].
  intros env cfg base rows out customers r Hq Hl Hin Ha Hex.
  rewrite <- Hname, <- Ha.
  unfold load_customer_interfaces in Hl. rewrite Hq in Hl.
  destruct rows as [|r0 rest]; [contradiction|].
  pose proof (group_rows_files env base (r0 :: rest) [] [] r Hin Hex) as Hf.
  destruct (group_rows env base (r0 :: rest) [] []) as [out0 cs].
  injection Hl as _ <-. exact Hf.
Qed.

Lemma customer_name_from_alias_witness :
  cust_name_of "cust:  Acme " = Py.strip (text_from 5 "cust:  Acme ")
  /\ exists files,
       dict_get (Py.strip (text_from 5 "cust:  Acme "))
         [("Acme", ["/opt/observium/rrd/edge1/port-1.rrd";
                    "/opt/observium/rrd/edge1/port-2.rrd"]);
          ("Beta", ["/opt/observium/rrd/edge2/port-7.rrd"])]
       = Some files
       /\ In "/opt/observium/rrd/edge1/port-2.rrd" files.
Proof.
  destruct (customer_name_from_alias "cust:  Acme " eq_refl)
    as [Hname [_ [Hgroup _]]].
  split; [exact Hname|].
  apply (Hgroup scenario_env sample_config "/opt/observium/rrd"
           scenario_rows [] _ (mk_row 2 "cust:  Acme " "edge1")).
  - reflexivity.
  - vm_compute. reflexivity.
  - right. left. reflexivity.
  - reflexivity.
  - reflexivity.
Defined.

(** ** The end-to-end scenario *)

Lemma compute_95th_of_fetch (env : Env) (rrd_file : string) (s e : Z)
    (f : fetch_data) :
  rrd_fetch env rrd_file s e = Py.Ok f ->
  compute_95th env rrd_file s e = percentile_of_fetch rrd_file f.
Proof. intros H. unfold compute_95th. rewrite H. reflexivity. Qed.

(** Interfaces of Acme at 30 and 55 Mbps and an unreadable interface of
    Beta: one warning, then the report with Acme at 55.00 and Beta at
    0.00, and exit code zero. *)
Lemma scenario_run :
  main sample_args scenario_env
  = mk_outcome
      ["Error reading /opt/observium/rrd/edge2/port-7.rrd: could not read the RRD";
       ("95th Percentile Billing Report for August 2025" ++ newline
          ++ newline
          ++ "Acme: 55.00 Mbps" ++ newline
          ++ "Beta: 0.00 Mbps")%string]
      [] None 0.
Proof. vm_compute. reflexivity. Qed.

(* ================================================================== *)
(** * Part III, continued: the figures in double precision *)
(* ================================================================== *)

Section DoublePrecision.

Local Open Scope Z_scope.

(** ** The order of doubles *)

Lemma compare_cont_spec (m1 m2 : positive) :
  Pos.compare_cont Eq m1 m2 = (Zpos m1 ?= Zpos m2).
Proof. reflexivity. Qed.

Lemma sort_lt_key (x y : F64.float) :
  Double.sort_lt x y = true <-> key_lt (sort_key x) (sort_key y).
Proof.
  unfold Double.sort_lt, F64.ltb, SFltb, SFcompare, key_lt.
  destruct x as [[]|[]| |[] mx ex], y as [[]|[]| |[] my ey];
    cbn [sort_key fst snd F64.is_nan negb andb orb];
    try (split; [intros; lia|intros; reflexivity]);
    try (split; [discriminate|intros; lia]);
    rewrite ?compare_cont_spec;
    destruct (Z.compare_spec ex ey); destruct (Z.compare_spec (Zpos mx) (Zpos my));
    cbn [CompOpp orb];
    try (split; [intros; lia|intros; reflexivity]);
    try (split; [discriminate|intros; lia]).
Qed.

Lemma sort_key_inj (x y : F64.float) :
  sort_key x = sort_key y -> same_double x y.
Proof.
  unfold same_double.
  destruct x as [[]|[]| |[] mx ex], y as [[]|[]| |[] my ey];
    cbn [sort_key F64.is_zero]; intros H; try discriminate;
    try (left; reflexivity); try (right; split; reflexivity);
    injection H as H1 H2; left; f_equal; lia.
Qed.

Lemma same_double_key (x y : F64.float) :
  same_double x y -> sort_key x = sort_key y.
Proof.
  intros [->|[Hx Hy]]; [reflexivity|].
  destruct x, y; try discriminate; reflexivity.
Qed.

Lemma same_double_refl (x : F64.float) : same_double x x.
Proof. left; reflexivity. Qed.

Lemma same_double_sym (x y : F64.float) : same_double x y -> same_double y x.
Proof. intros [->|[Hx Hy]]; [left; reflexivity|right; split; assumption]. Qed.

Lemma same_double_trans (x y z : F64.float) :
  same_double x y -> same_double y z -> same_double x z.
Proof.
  intros H1 H2. apply sort_key_inj.
  rewrite (same_double_key _ _ H1). apply same_double_key; exact H2.
Qed.

Lemma sort_lt_false (x y : F64.float) :
  Double.sort_lt x y = false <-> ~ key_lt (sort_key x) (sort_key y).
Proof.
  rewrite <- sort_lt_key. destruct (Double.sort_lt x y); split; congruence.
Qed.

Lemma sort_lt_asym (x y : F64.float) :
  Double.sort_lt x y = true -> Double.sort_lt y x = false.
Proof. rewrite sort_lt_false, sort_lt_key. unfold key_lt. lia. Qed.

Lemma sort_lt_equiv (x y : F64.float) :
  Double.sort_lt x y = false -> Double.sort_lt y x = false ->
  same_double x y.
Proof.
  rewrite !sort_lt_false. unfold key_lt. intros H1 H2.
  apply sort_key_inj.
  destruct (sort_key x) as [[a b] c], (sort_key y) as [[a' b'] c'].
  cbn [fst snd] in *. repeat f_equal; lia.
Qed.

Lemma sort_lt_same (x x' y y' : F64.float) :
  same_double x x' -> same_double y y' ->
  Double.sort_lt x y = Double.sort_lt x' y'.
Proof.
  intros Hx Hy.
  destruct (Double.sort_lt x y) eqn:E, (Double.sort_lt x' y') eqn:E';
    try reflexivity; exfalso.
  - apply sort_lt_false in E'. apply sort_lt_key in E.
    rewrite (same_double_key _ _ Hx), (same_double_key _ _ Hy) in E. auto.
  - apply sort_lt_false in E. apply sort_lt_key in E'.
    rewrite (same_double_key _ _ Hx), (same_double_key _ _ Hy) in E. auto.
Qed.

(** On numbers, [a <= b] is the negation of [b < a] in the order of the
    sort. *)
Lemma leb_sort_lt (x y : F64.float) :
  F64.is_nan x = false -> F64.is_nan y = false ->
  F64.leb x y = negb (Double.sort_lt y x).
Proof.
  unfold Double.sort_lt, F64.leb, F64.ltb, SFleb, SFltb, SFcompare.
  destruct x as [[]|[]| |[] mx ex], y as [[]|[]| |[] my ey];
    cbn [F64.is_nan negb andb orb]; intros Hx Hy; try discriminate;
    try reflexivity;
    rewrite !compare_cont_spec;
    rewrite (Z.compare_antisym ex ey), (Z.compare_antisym (Zpos mx) (Zpos my));
    destruct (ex ?= ey); destruct (Zpos mx ?= Zpos my); reflexivity.
Qed.

Lemma ltb_sort_lt (x y : F64.float) :
  F64.is_nan x = false -> F64.is_nan y = false ->
  F64.ltb x y = Double.sort_lt x y.
Proof.
  unfold Double.sort_lt. intros Hx Hy. rewrite Hy. cbn [andb].
  rewrite orb_false_r. reflexivity.
Qed.

(** ** Ordering of the array *)

Lemma double_insert_length (x : F64.float) (l : list F64.float) :
  List.length (Double.insert x l) = S (List.length l).
Proof.
  induction l as [|y l IH]; simpl; [reflexivity|].
  destruct (Double.sort_lt y x); simpl; [f_equal; exact IH|reflexivity].
Qed.

Lemma double_sort_length (l : list F64.float) :
  List.length (Double.sort l) = List.length l.
Proof.
  induction l as [|x l IH]; simpl; [reflexivity|].
  rewrite double_insert_length. f_equal. exact IH.
Qed.

Lemma double_insert_perm (x : F64.float) (l : list F64.float) :
  Permutation (Double.insert x l) (x :: l).
Proof.
  induction l as [|y l IH]; simpl; [reflexivity|].
  destruct (Double.sort_lt y x); [|reflexivity].
  rewrite IH. apply perm_swap.
Qed.

Lemma double_sort_perm (l : list F64.float) : Permutation (Double.sort l) l.
Proof.
  induction l as [|x l IH]; simpl; [reflexivity|].
  rewrite double_insert_perm. constructor. exact IH.
Qed.

Lemma double_insert_HdRel (x a : F64.float) (l : list F64.float) :
  not_after a x -> HdRel not_after a l ->
  HdRel not_after a (Double.insert x l).
Proof.
  intros Hax H. destruct l as [|y l]; simpl.
  - constructor. exact Hax.
  - destruct (Double.sort_lt y x); constructor; [|exact Hax].
    inversion H; assumption.
Qed.

Lemma double_insert_sorted (x : F64.float) (l : list F64.float) :
  Sorted not_after l -> Sorted not_after (Double.insert x l).
Proof.
  induction l as [|y l IH]; intros H; simpl.
  - repeat constructor.
  - destruct (Double.sort_lt y x) eqn:E.
    + inversion H as [|? ? Hs Hh]; subst.
      constructor; [apply IH; exact Hs|].
      apply double_insert_HdRel; [|exact Hh].
      apply sort_lt_asym; exact E.
    + constructor; [exact H|]. constructor. exact E.
Qed.

Lemma double_sort_sorted (l : list F64.float) :
  Sorted not_after (Double.sort l).
Proof.
  induction l as [|x l IH]; simpl; [constructor|].
  apply double_insert_sorted; exact IH.
Qed.

Lemma double_sort_of_sorted (l : list F64.float) :
  Sorted not_after l -> Double.sort l = l.
Proof.
  induction l as [|x l IH]; intros H; simpl; [reflexivity|].
  inversion H as [|? ? Hs Hh]; subst.
  rewrite (IH Hs).
  destruct l as [|y l]; simpl; [reflexivity|].
  inversion Hh as [|? ? Hxy]; subst.
  unfold not_after in Hxy. rewrite Hxy. reflexivity.
Qed.

Lemma double_insert_same (x x' : F64.float) (l l' : list F64.float) :
  same_double x x' -> Forall2 same_double l l' ->
  Forall2 same_double (Double.insert x l) (Double.insert x' l').
Proof.
  intros Hx H. induction H as [|y y' l l' Hy Hl IH]; simpl.
  - constructor; [exact Hx|constructor].
  - rewrite (sort_lt_same y y' x x' Hy Hx).
    destruct (Double.sort_lt y' x').
    + constructor; assumption.
    + constructor; [exact Hx|]. constructor; assumption.
Qed.

Lemma Forall2_same_refl (l : list F64.float) : Forall2 same_double l l.
Proof. induction l; constructor; [apply same_double_refl|assumption]. Qed.

Lemma Forall2_same_trans (l1 l2 l3 : list F64.float) :
  Forall2 same_double l1 l2 -> Forall2 same_double l2 l3 ->
  Forall2 same_double l1 l3.
Proof.
  intros H. revert l3. induction H; intros l3 H3; inversion H3; subst.
  - constructor.
  - constructor; [eapply same_double_trans; eassumption|auto].
Qed.

Ltac order_keys :=
  repeat match goal with
         | H : Double.sort_lt _ _ = true |- _ => apply sort_lt_key in H
         | H : Double.sort_lt _ _ = false |- _ => apply sort_lt_false in H
         end;
  unfold key_lt in *.

Lemma double_insert_swap (x y : F64.float) (l : list F64.float) :
  Forall2 same_double (Double.insert x (Double.insert y l))
                      (Double.insert y (Double.insert x l)).
Proof.
  induction l as [|z l IH]; simpl.
  - destruct (Double.sort_lt y x) eqn:Eyx, (Double.sort_lt x y) eqn:Exy;
      try apply Forall2_same_refl.
    + apply sort_lt_asym in Eyx. congruence.
    + pose proof (sort_lt_equiv _ _ Exy Eyx) as E.
      constructor; [exact E|].
      constructor; [apply same_double_sym; exact E|constructor].
  - destruct (Double.sort_lt z y) eqn:Ezy, (Double.sort_lt z x) eqn:Ezx,
             (Double.sort_lt y x) eqn:Eyx, (Double.sort_lt x y) eqn:Exy;
      simpl; rewrite ?Ezy, ?Ezx, ?Eyx, ?Exy; simpl;
      rewrite ?Ezy, ?Ezx, ?Eyx, ?Exy;
      try apply Forall2_same_refl;
      try (constructor; [apply same_double_refl|exact IH]);
      try (exfalso; order_keys; lia).
    pose proof (sort_lt_equiv _ _ Exy Eyx) as E.
    constructor; [exact E|].
    constructor; [apply same_double_sym; exact E|].
    apply Forall2_same_refl.
Qed.

Lemma double_sort_perm_same (l1 l2 : list F64.float) :
  Permutation l1 l2 -> Forall2 same_double (Double.sort l1) (Double.sort l2).
Proof.
  induction 1; simpl.
  - constructor.
  - apply double_insert_same; [apply same_double_refl|assumption].
  - apply double_insert_swap.
  - eapply Forall2_same_trans; eassumption.
Qed.

Lemma not_nan_In_sort (l : list F64.float) :
  Forall (fun x => F64.is_nan x = false) l ->
  Forall (fun x => F64.is_nan x = false) (Double.sort l).
Proof.
  intros H. rewrite Forall_forall in *. intros x Hx. apply H.
  apply (Permutation_in _ (double_sort_perm l)). exact Hx.
Qed.

Lemma sorted_leb_not_after (l : list F64.float) :
  Forall (fun x => F64.is_nan x = false) l ->
  Sorted (fun x y => F64.leb x y = true) l <-> Sorted not_after l.
Proof.
  induction l as [|x l IH]; intros Hn.
  - split; constructor.
  - inversion Hn as [|? ? Hx Hl]; subst.
    split; intros H; inversion H as [|? ? Hs Hh]; subst;
      (constructor; [apply IH; assumption|]);
      destruct l as [|y l]; constructor;
      inversion Hh as [|? ? Hxy]; subst;
      inversion Hl as [|? ? Hy _]; subst; unfold not_after in *.
    + rewrite (leb_sort_lt _ _ Hx Hy) in Hxy.
      destruct (Double.sort_lt y x); [discriminate|reflexivity].
    + rewrite (leb_sort_lt _ _ Hx Hy), Hxy. reflexivity.
Qed.

(** An ascending arrangement of numbers is, entry by entry and but for
    the sign of a zero, the array in the order [Double.sort] puts it. *)
Lemma double_arrangement_unique (sorted vals : list F64.float) :
  Forall (fun x => F64.is_nan x = false) vals ->
  ascending sorted vals ->
  Forall2 same_double sorted (Double.sort vals).
Proof.
  intros Hn [Hs Hp].
  assert (Hn' : Forall (fun x => F64.is_nan x = false) sorted).
  { rewrite Forall_forall in *. intros x Hx. apply Hn.
    apply (Permutation_in _ Hp). exact Hx. }
  apply (sorted_leb_not_after _ Hn') in Hs.
  rewrite <- (double_sort_of_sorted sorted Hs) at 1.
  apply double_sort_perm_same; exact Hp.
Qed.

Lemma double_sort_ascending (vals : list F64.float) :
  Forall (fun x => F64.is_nan x = false) vals ->
  ascending (Double.sort vals) vals.
Proof.
  intros Hn. split; [|apply double_sort_perm].
  apply sorted_leb_not_after; [apply not_nan_In_sort; exact Hn|].
  apply double_sort_sorted.
Qed.

(** ** Arithmetic up to the sign of a zero *)

Ltac zero_cases :=
  repeat match goal with
         | H : F64.is_zero ?x = true |- _ =>
             destruct x as [[]|[]| |[] ? ?]; try discriminate H; clear H
         end.

Lemma add_same (x x' y y' : F64.float) :
  same_double x x' -> same_double y y' ->
  same_double (F64.add x y) (F64.add x' y').
Proof.
  intros [->|[Hx Hx']] [->|[Hy Hy']]; [left; reflexivity| | |];
    zero_cases;
    try (destruct y' as [[]|[]| |[] ? ?]);
    try (destruct x' as [[]|[]| |[] ? ?]);
    cbn; try (left; reflexivity); right; split; reflexivity.
Qed.

Lemma sub_same (x x' y y' : F64.float) :
  same_double x x' -> same_double y y' ->
  same_double (F64.sub x y) (F64.sub x' y').
Proof.
  intros [->|[Hx Hx']] [->|[Hy Hy']]; [left; reflexivity| | |];
    zero_cases;
    try (destruct y' as [[]|[]| |[] ? ?]);
    try (destruct x' as [[]|[]| |[] ? ?]);
    cbn; try (left; reflexivity); right; split; reflexivity.
Qed.

Lemma mul_same (x x' y y' : F64.float) :
  same_double x x' -> same_double y y' ->
  same_double (F64.mul x y) (F64.mul x' y').
Proof.
  intros [->|[Hx Hx']] [->|[Hy Hy']]; [left; reflexivity| | |];
    zero_cases;
    try (destruct y' as [[]|[]| |[] ? ?]);
    try (destruct x' as [[]|[]| |[] ? ?]);
    cbn; try (left; reflexivity); right; split; reflexivity.
Qed.

Lemma interpolate_same (a a' b b' g : F64.float) :
  same_double a a' -> same_double b b' ->
  same_double (interpolate a b g) (interpolate a' b' g).
Proof.
  intros Ha Hb. unfold interpolate.
  destruct (F64.leb F64.half g).
  - apply sub_same; [exact Hb|].
    apply mul_same; [apply sub_same; assumption|apply same_double_refl].
  - apply add_same; [exact Ha|].
    apply mul_same; [apply sub_same; assumption|apply same_double_refl].
Qed.

Lemma lerp_interpolate (a b t : F64.float) :
  Double.lerp a b t = interpolate a b t.
Proof. reflexivity. Qed.

Lemma mul_comm (x y : F64.float) : F64.mul x y = F64.mul y x.
Proof.
  unfold F64.mul, SFmul.
  destruct x as [sx|sx| |sx mx ex], y as [sy|sy| |sy my ey];
    try reflexivity; rewrite ?(xorb_comm sx sy); try reflexivity.
  rewrite (Pos.mul_comm mx my), (Z.add_comm ex ey). reflexivity.
Qed.

(** ** Rounding never yields [nan] *)

Lemma iter_pos_invariant {A : Type} (P : A -> Prop) (f : A -> A) :
  (forall x, P x -> P (f x)) ->
  forall p x, P x -> P (iter_pos f p x).
Proof.
  intros Hf. induction p as [p IH|p IH|]; intros x Hx; simpl.
  - apply IH, IH, Hf, Hx.
  - apply IH, IH, Hx.
  - apply Hf, Hx.
Qed.

Lemma shr_1_nonneg (mrs : shr_record) :
  0 <= shr_m mrs -> 0 <= shr_m (shr_1 mrs).
Proof.
  destruct mrs as [m r s]. simpl.
  destruct m as [|[p|p|]|p]; simpl; lia.
Qed.

Lemma shr_fexp_nonneg (m e : Z) (l : location) :
  0 <= m -> 0 <= shr_m (fst (shr_fexp F64.prec F64.emax m e l)).
Proof.
  intros Hm. unfold shr_fexp, shr.
  assert (H0 : 0 <= shr_m (shr_record_of_loc m l)).
  { destruct l as [|[]]; exact Hm. }
  destruct (fexp F64.prec F64.emax (Zdigits2 m + e) - e) as [|p|p];
    cbn [fst]; try exact H0.
  apply (iter_pos_invariant (fun mrs => 0 <= shr_m mrs));
    [apply shr_1_nonneg|exact H0].
Qed.

Lemma round_nearest_even_nonneg (m : Z) (l : location) :
  0 <= m -> 0 <= round_nearest_even m l.
Proof.
  intros Hm. destruct l as [|[]]; simpl; try lia.
  destruct (Z.even m); lia.
Qed.

Lemma binary_round_aux_not_nan (sx : bool) (mx ex : Z) (lx : location) :
  0 <= mx ->
  F64.is_nan (binary_round_aux F64.prec F64.emax sx mx ex lx) = false.
Proof.
  intros Hm. unfold binary_round_aux.
  pose proof (shr_fexp_nonneg mx ex lx Hm) as H1.
  destruct (shr_fexp F64.prec F64.emax mx ex lx) as [mrs' e'].
  cbn [fst] in H1.
  pose proof (shr_fexp_nonneg _ e' loc_Exact
                (round_nearest_even_nonneg _ (loc_of_shr_record mrs') H1))
    as H2.
  destruct (shr_fexp F64.prec F64.emax
              (round_nearest_even (shr_m mrs') (loc_of_shr_record mrs'))
              e' loc_Exact) as [mrs'' e''].
  cbn [fst] in H2.
  destruct (shr_m mrs'') as [|p|p]; [reflexivity| |lia].
  destruct (e'' <=? F64.emax - F64.prec); reflexivity.
Qed.

Lemma mul_not_nan (x : F64.float) (sy : bool) (my : positive) (ey : Z) :
  F64.is_nan x = false ->
  F64.is_nan (F64.mul x (S754_finite sy my ey)) = false.
Proof.
  destruct x as [sx|sx| |sx mx ex]; intros H; try discriminate H;
    try reflexivity.
  apply binary_round_aux_not_nan. lia.
Qed.

Lemma div_not_nan (x : F64.float) (sy : bool) (my : positive) (ey : Z) :
  F64.is_nan x = false ->
  F64.is_nan (F64.div x (S754_finite sy my ey)) = false.
Proof.
  destruct x as [sx|sx| |sx mx ex]; intros H; try discriminate H;
    try reflexivity.
  unfold F64.div, SFdiv, SFdiv_core_binary.
  set (e' := Z.min _ _). set (m' := match ex - ey - e' with
                                     | 0 => Zpos mx
                                     | Zpos _ => Z.shiftl (Zpos mx) (ex - ey - e')
                                     | Zneg _ => 0
                                     end).
  assert (Hm' : 0 <= m').
  { subst m'. destruct (ex - ey - e'); try lia.
    apply Z.shiftl_nonneg. lia. }
  pose proof (Z_div_mod m' (Zpos my) eq_refl) as Hd.
  destruct (Z.div_eucl m' (Zpos my)) as [q r].
  apply binary_round_aux_not_nan. nia.
Qed.

Lemma to_mbps_not_nan (vals : list F64.float) :
  Forall (fun x => F64.is_nan x = false) vals ->
  Forall (fun x => F64.is_nan x = false) (Double.to_mbps vals).
Proof.
  intros H. unfold Double.to_mbps. apply Forall_map.
  eapply Forall_impl; [|exact H]. intros x Hx. cbv beta.
  set (c := F64.of_int 1000000). vm_compute in c. subst c.
  set (c := F64.of_int 8). vm_compute in c. subst c.
  apply div_not_nan, mul_not_nan, Hx.
Qed.

(** ** The samples of a fetch *)

Lemma max2_larger (x y : F64.float) :
  F64.is_nan x = false -> F64.is_nan y = false ->
  Double.max2 x y = larger x y.
Proof.
  intros Hx Hy. unfold Double.max2, Double.gt, larger.
  rewrite (leb_sort_lt y x Hy Hx), (ltb_sort_lt x y Hx Hy).
  destruct (Double.sort_lt x y); reflexivity.
Qed.

Lemma larger_not_nan (x y : F64.float) :
  F64.is_nan x = false -> F64.is_nan y = false ->
  F64.is_nan (larger x y) = false.
Proof. intros Hx Hy. unfold larger. destruct (F64.leb y x); assumption. Qed.

Lemma double_tuple_getitem_nth (row : list (option F64.float)) (i : nat) :
  (i < List.length row)%nat ->
  Py.tuple_getitem row i = Py.Ok (nth i row None).
Proof.
  intros H. unfold Py.tuple_getitem.
  destruct (nth_error row i) eqn:E.
  - rewrite (nth_error_nth _ _ None E). reflexivity.
  - apply nth_error_None in E. lia.
Qed.

Lemma rate_at (row : list (option F64.float)) (i : nat) (x : F64.float) :
  Forall (fun v => match v with
                   | Some x => is_rate x
                   | None => True
                   end) row ->
  nth i row None = Some x -> F64.is_nan x = false.
Proof.
  intros H E. rewrite Forall_forall in H.
  destruct (Nat.lt_ge_cases i (List.length row)) as [Hi|Hi].
  - specialize (H (nth i row None) (nth_In _ _ Hi)). rewrite E in H.
    apply H.
  - rewrite nth_overflow in E by exact Hi. discriminate.
Qed.

(** On a well-formed fetch the values handed to [np.percentile] are the
    reference values, and none of them is [nan]. *)
Lemma double_combined_vals_ok (rows : list (list (option F64.float))) :
  Forall (fun row => (2 <= List.length row)%nat) rows ->
  Forall (Forall (fun v => match v with
                           | Some x => is_rate x
                           | None => True
                           end)) rows ->
  exists vals,
    Double.combined_vals rows = Py.Ok vals
    /\ Double.to_mbps vals = mbps_values rows
    /\ Forall (fun x => F64.is_nan x = false) vals.
Proof.
  induction rows as [|row rows IH]; intros Hw Hr.
  - exists []. repeat split; constructor.
  - inversion Hw as [|? ? Hrow Hw']; subst.
    inversion Hr as [|? ? Hrate Hr']; subst.
    destruct (IH Hw' Hr') as [vals [Hv [Hm Hn]]].
    cbn [Double.combined_vals mbps_values]. unfold combined_rate.
    unfold in_idx, out_idx.
    rewrite !double_tuple_getitem_nth by lia. cbn [Py.bind].
    destruct (nth 0 row None) as [x|] eqn:E0; [|exists vals; auto].
    destruct (nth 1 row None) as [y|] eqn:E1; [|exists vals; auto].
    rewrite Hv. cbn [Py.bind].
    pose proof (rate_at row 0 x Hrate E0) as Hx.
    pose proof (rate_at row 1 y Hrate E1) as Hy.
    exists (Double.max2 x y :: vals). split; [reflexivity|].
    rewrite (max2_larger x y Hx Hy). split.
    + cbn [Double.to_mbps map]. f_equal. exact Hm.
    + constructor; [apply larger_not_nan; assumption|exact Hn].
Qed.

Lemma well_formed_doubles_rows (f : Double.fetch_data) :
  well_formed_doubles f ->
  Forall (fun row => (2 <= List.length row)%nat) (Double.fd_rows f).
Proof.
  intros [Hn [Hr _]]. eapply Forall_impl; [|exact Hr].
  cbv beta. intros row E. rewrite E. exact Hn.
Qed.

(** ** Indexing *)

Lemma double_getitem_nth (arr : list F64.float) (i : Z) :
  0 <= i < Z.of_nat (List.length arr) ->
  Double.getitem arr i = Py.Ok (nth (Z.to_nat i) arr F64.zero).
Proof.
  intros [H0 H1]. unfold Double.getitem.
  destruct (Z.ltb_spec i 0) as [L|_]; [lia|].
  destruct (Z.ltb_spec i 0) as [L|_]; [lia|].
  destruct (Z.leb_spec (Z.of_nat (List.length arr)) i) as [L|_]; [lia|].
  simpl. unfold Py.list_getitem.
  destruct (nth_error arr (Z.to_nat i)) eqn:E.
  - rewrite (nth_error_nth _ _ _ E). reflexivity.
  - apply nth_error_None in E. lia.
Qed.

Lemma double_getitem_last (arr : list F64.float) :
  arr <> [] ->
  Double.getitem arr (-1)
  = Py.Ok (nth (List.length arr - 1) arr F64.zero).
Proof.
  intros Hne. unfold Double.getitem.
  assert (0 < List.length arr)%nat
    by (destruct arr; [congruence|simpl; lia]).
  change (-1 <? 0) with true. cbv iota.
  destruct (Z.ltb_spec (Z.of_nat (List.length arr) + -1) 0) as [L|_]; [lia|].
  destruct (Z.leb_spec (Z.of_nat (List.length arr))
              (Z.of_nat (List.length arr) + -1)) as [L|_]; [lia|].
  simpl. unfold Py.list_getitem.
  replace (Z.to_nat (Z.of_nat (List.length arr) + -1))
    with (List.length arr - 1)%nat by lia.
  destruct (nth_error arr (List.length arr - 1)) eqn:E.
  - rewrite (nth_error_nth _ _ _ E). reflexivity.
  - apply nth_error_None in E. lia.
Qed.

Lemma floor_rank_bounds (k : Z) :
  1 <= k -> 0 <= floor_rank k /\ floor_rank k + 1 <= k.
Proof.
  intros H. unfold floor_rank.
  Z.to_euclidean_division_equations. lia.
Qed.

Lemma ceiling_rank_cases (k : Z) :
  (95 * k mod 100 = 0 /\ ceiling_rank k = floor_rank k)
  \/ (95 * k mod 100 <> 0 /\ ceiling_rank k = floor_rank k + 1).
Proof.
  unfold ceiling_rank, floor_rank.
  Z.to_euclidean_division_equations. lia.
Qed.

(** ** The value [np.percentile] returns *)

(** With at least two values: the interpolation between the values at the
    floor rank and the rank after it. *)
Lemma double_percentile_ok (a : list F64.float) (k : Z) :
  Z.of_nat (List.length a) = k + 1 ->
  1 <= k ->
  index_check k = true ->
  Forall (fun x => F64.is_nan x = false) a ->
  Double.percentile a 95
  = Py.Ok (interpolate
             (nth (Z.to_nat (floor_rank k)) (Double.sort a) F64.zero)
             (nth (Z.to_nat (floor_rank k + 1)) (Double.sort a) F64.zero)
             (F64.sub (F64.mul q95 (F64.of_int k))
                      (F64.of_int (floor_rank k)))).
Proof.
  intros Hlen Hk Hc Hn. unfold Double.percentile.
  change (F64.div (F64.of_int 95) (F64.of_int 100)) with q95.
  rewrite Hlen. replace (k + 1 - 1) with k by lia.
  unfold index_check in Hc.
  apply andb_prop in Hc. destruct Hc as [Hc _].
  apply andb_prop in Hc. destruct Hc as [Hc _].
  apply andb_prop in Hc. destruct Hc as [Hc _].
  destruct (Double.get_indexes (F64.mul (F64.of_int k) q95) (k + 1))
    as [p n].
  apply andb_prop in Hc. destruct Hc as [Hp Hnx].
  apply Z.eqb_eq in Hp, Hnx. subst p n.
  destruct (floor_rank_bounds k Hk) as [H0 H1].
  assert (Hs : Z.of_nat (List.length (Double.sort a)) = k + 1)
    by (rewrite double_sort_length; exact Hlen).
  assert (Hne : Double.sort a <> []).
  { intros E. rewrite E in Hs. simpl in Hs. lia. }
  rewrite (double_getitem_last _ Hne). cbn [Py.bind].
  rewrite !double_getitem_nth by lia. cbn [Py.bind].
  assert (Hlast : F64.is_nan (nth (List.length (Double.sort a) - 1)
                                  (Double.sort a) F64.zero) = false).
  { pose proof (not_nan_In_sort a Hn) as Hn'.
    rewrite Forall_forall in Hn'. apply Hn'. apply nth_In. lia. }
  rewrite Hlast, lerp_interpolate, (mul_comm (F64.of_int k) q95).
  reflexivity.
Qed.

Lemma sub_self (x : F64.float) :
  F64.is_finite x = true -> F64.sub x x = F64.zero.
Proof.
  destruct x as [[]|[]| |s m e]; intros H; try discriminate H;
    try reflexivity.
  unfold F64.sub, SFsub. cbv zeta. rewrite Z.min_id. unfold shl_align.
  rewrite Z.sub_diag. reflexivity.
Qed.

Lemma mul_finite_zero (d z : F64.float) :
  F64.is_finite d = true -> F64.is_zero z = true ->
  F64.is_zero (F64.mul d z) = true.
Proof.
  destruct d as [[]|[]| |[] m e], z as [[]|[]| |[] mz ez]; intros Hd Hz;
    try discriminate; reflexivity.
Qed.

Lemma mul_zero_finite (z g : F64.float) :
  F64.is_zero z = true -> F64.is_finite g = true ->
  F64.is_zero (F64.mul z g) = true.
Proof.
  destruct z as [[]|[]| |[] mz ez], g as [[]|[]| |[] m e]; intros Hz Hg;
    try discriminate; reflexivity.
Qed.

Lemma add_zero_same (a z : F64.float) :
  F64.is_zero z = true -> same_double (F64.add a z) a.
Proof.
  destruct z as [[]|[]| |[] mz ez], a as [[]|[]| |[] m e]; intros Hz;
    try discriminate; cbn; try (left; reflexivity); right; split; reflexivity.
Qed.

Lemma sub_zero_same (a z : F64.float) :
  F64.is_zero z = true -> same_double (F64.sub a z) a.
Proof.
  destruct z as [[]|[]| |[] mz ez], a as [[]|[]| |[] m e]; intros Hz;
    try discriminate; cbn; try (left; reflexivity); right; split; reflexivity.
Qed.

(** Interpolating between a finite value and itself gives that value. *)
Lemma interpolate_equal (c g : F64.float) :
  F64.is_finite c = true ->
  F64.is_finite g = true -> F64.is_finite (F64.sub F64.one g) = true ->
  same_double (interpolate c c g) c.
Proof.
  intros Hc Hg Hg1. unfold interpolate. rewrite (sub_self c Hc).
  destruct (F64.leb F64.half g).
  - apply sub_zero_same. apply mul_zero_finite; [reflexivity|exact Hg1].
  - apply add_zero_same. apply mul_zero_finite; [reflexivity|exact Hg].
Qed.

(** With a weight of zero the value at the floor rank is returned, if
    the two values are a finite distance apart. *)
Lemma interpolate_at_zero (a b g : F64.float) :
  F64.is_zero g = true -> F64.is_finite (F64.sub b a) = true ->
  same_double (interpolate a b g) a.
Proof.
  intros Hg Hd. unfold interpolate.
  assert (E : F64.leb F64.half g = false).
  { destruct g as [[]|[]| |[] m e]; try discriminate Hg; reflexivity. }
  rewrite E. apply add_zero_same. apply mul_finite_zero; assumption.
Qed.

(** One value is its own percentile. *)
Lemma double_percentile_single (x : F64.float) :
  F64.is_finite x = true -> Double.percentile [x] 95 = Py.Ok x.
Proof.
  intros Hx. unfold Double.percentile.
  cbn [List.length Z.of_nat Pos.of_succ_nat Z.sub Z.opp Z.add Z.pos_sub].
  set (vi := F64.mul (F64.of_int 0) _). vm_compute in vi. subst vi.
  set (ix := Double.get_indexes _ _). vm_compute in ix. subst ix.
  cbv iota beta. cbn [Double.sort Double.insert].
  rewrite (double_getitem_last [x]) by discriminate.
  cbn [List.length Nat.sub nth Py.bind].
  set (g := F64.sub _ (F64.of_int (-1))). vm_compute in g. subst g.
  assert (Hn : F64.is_nan x = false) by (destruct x; try discriminate; reflexivity).
  rewrite Hn. f_equal. unfold Double.lerp.
  set (c := F64.leb _ _). vm_compute in c. subst c. cbv iota.
  rewrite (sub_self x Hx).
  set (d := F64.sub F64.one _). vm_compute in d. subst d.
  destruct x as [[]|[]| |s m e]; try discriminate Hx; reflexivity.
Qed.

(** ** Rounding to the nearest double *)

(** The number of binary digits. *)
Lemma digits2_pos_bounds (p : positive) :
  2 ^ (Zpos (digits2_pos p) - 1) <= Zpos p < 2 ^ Zpos (digits2_pos p).
Proof.
  induction p as [p IH|p IH|]; cbn [digits2_pos];
    rewrite ?Pos2Z.inj_succ;
    try (replace (Z.succ (Z.pos (digits2_pos p)) - 1)
           with (Z.succ (Z.pos (digits2_pos p) - 1)) by lia;
         rewrite !Z.pow_succ_r by lia; lia).
  vm_compute. split; [discriminate|reflexivity].
Qed.

Lemma Zdigits2_bounds (z : Z) :
  0 < z -> 2 ^ (Zdigits2 z - 1) <= z < 2 ^ Zdigits2 z.
Proof.
  destruct z as [|p|p]; intros H; try lia. apply digits2_pos_bounds.
Qed.

Lemma Zdigits2_pos (z : Z) : 0 < z -> 0 < Zdigits2 z.
Proof. destruct z; intros H; try lia. reflexivity. Qed.

Lemma Zdigits2_unique (z d : Z) :
  2 ^ (d - 1) <= z < 2 ^ d -> 0 < d -> Zdigits2 z = d.
Proof.
  intros [Hlo Hhi] Hd.
  assert (Hz : 0 < z) by (pose proof (Z.pow_pos_nonneg 2 (d - 1)); lia).
  destruct (Zdigits2_bounds z Hz) as [Blo Bhi].
  pose proof (Zdigits2_pos z Hz) as HD.
  assert (H1 : Zdigits2 z - 1 < d).
  { apply (Z.pow_lt_mono_r_iff 2); lia. }
  assert (H2 : d - 1 < Zdigits2 z).
  { apply (Z.pow_lt_mono_r_iff 2); lia. }
  lia.
Qed.

Lemma Zdigits2_le (z x : Z) :
  0 <= z < 2 ^ x -> 0 <= x -> Zdigits2 z <= x.
Proof.
  intros [H0 H1] Hx. destruct (Z.eq_dec z 0) as [->|Hne]; [exact Hx|].
  assert (Hz : 0 < z) by lia.
  destruct (Zdigits2_bounds z Hz) as [Blo _].
  pose proof (Zdigits2_pos z Hz) as HD.
  assert (H2 : Zdigits2 z - 1 < x).
  { apply (Z.pow_lt_mono_r_iff 2); lia. }
  lia.
Qed.

(** Shifting to the right. *)
Lemma iter_pos_nat {A : Type} (f : A -> A) (p : positive) (x : A) :
  iter_pos f p x = Nat.iter (Pos.to_nat p) f x.
Proof.
  revert x. induction p as [p IH|p IH|]; intros x; cbn [iter_pos].
  - rewrite !IH, Pos2Nat.inj_xI.
    replace (S (2 * Pos.to_nat p)) with (Pos.to_nat p + Pos.to_nat p + 1)%nat
      by lia.
    rewrite !Nat.iter_add. reflexivity.
  - rewrite !IH, Pos2Nat.inj_xO.
    replace (2 * Pos.to_nat p)%nat with (Pos.to_nat p + Pos.to_nat p)%nat
      by lia.
    rewrite Nat.iter_add. reflexivity.
  - reflexivity.
Qed.

Lemma shr_1_arith (m : Z) (r s : bool) :
  0 <= m ->
  shr_1 (Build_shr_record m r s)
  = Build_shr_record (m / 2) (Z.odd m) (r || s).
Proof.
  intros H. rewrite <- Z.div2_div.
  destruct m as [|[p|p|]|p]; try lia; reflexivity.
Qed.

(** After [n] shifts the mantissa is divided by [2^n]; the round bit is
    the bit shifted out last, the sticky bit tells whether a bit shifted
    out before was set. *)
Lemma shr_iter (M : Z) (n : nat) :
  0 <= M ->
  Nat.iter (S n) shr_1 (Build_shr_record M false false)
  = Build_shr_record (M / 2 ^ Z.of_nat (S n))
                     (Z.testbit M (Z.of_nat n))
                     (negb (M mod 2 ^ Z.of_nat n =? 0)).
Proof.
  intros HM. induction n as [|n IH].
  - cbn [Nat.iter]. rewrite shr_1_arith by exact HM.
    change (2 ^ Z.of_nat 1) with 2. change (2 ^ Z.of_nat 0) with 1.
    rewrite Z.bit0_odd, Z.mod_1_r. reflexivity.
  - rewrite Nat.iter_succ, IH.
    assert (Hq : 0 <= M / 2 ^ Z.of_nat (S n)).
    { apply Z.div_pos; [exact HM|]. apply Z.pow_pos_nonneg; lia. }
    rewrite shr_1_arith by exact Hq. f_equal.
    + rewrite (Nat2Z.inj_succ (S n)), Z.pow_succ_r by lia.
      rewrite (Z.mul_comm 2).
      rewrite Z.div_div by (try apply Z.pow_pos_nonneg; lia). reflexivity.
    + rewrite (Z.testbit_odd M (Z.of_nat (S n))).
      rewrite Z.shiftr_div_pow2 by lia. reflexivity.
    + rewrite (Nat2Z.inj_succ n), Z.pow_succ_r by lia.
      rewrite (Z.mul_comm 2), Z.rem_mul_r by (try apply Z.pow_nonzero; lia).
      rewrite (Z.testbit_odd M (Z.of_nat n)), Z.shiftr_div_pow2 by lia.
      rewrite <- Z.bit0_mod, Z.bit0_odd.
      pose proof (Z.mod_pos_bound M (2 ^ Z.of_nat n)
                    (Z.pow_pos_nonneg 2 _ eq_refl (Nat2Z.is_nonneg n))) as Hb.
      pose proof (Z.pow_pos_nonneg 2 (Z.of_nat n) eq_refl
                    (Nat2Z.is_nonneg n)) as Hp.
      destruct (Z.odd (M / 2 ^ Z.of_nat n)); cbn [Z.b2z orb].
      * symmetry. apply negb_true_iff, Z.eqb_neq. nia.
      * rewrite Z.mul_0_r, Z.add_0_r. reflexivity.
Qed.

Lemma fexp_normal (x : Z) :
  - 1074 <= x - 53 -> fexp F64.prec F64.emax x = x - 53.
Proof. unfold fexp, emin, F64.prec, F64.emax. lia. Qed.

Lemma shr_fexp_keep (M e : Z) (l : location) :
  Zdigits2 M = 53 -> - 1074 <= e ->
  shr_fexp F64.prec F64.emax M e l = (shr_record_of_loc M l, e).
Proof.
  intros HD He. unfold shr_fexp. rewrite HD, fexp_normal by lia.
  replace (53 + e - 53 - e) with 0 by lia. reflexivity.
Qed.

Lemma shr_fexp_shift (M e : Z) :
  0 < M -> 53 < Zdigits2 M -> - 1074 <= Zdigits2 M + e - 53 ->
  shr_fexp F64.prec F64.emax M e loc_Exact
  = (Build_shr_record (M / 2 ^ (Zdigits2 M - 53))
                      (Z.testbit M (Zdigits2 M - 53 - 1))
                      (negb (M mod 2 ^ (Zdigits2 M - 53 - 1) =? 0)),
     e + (Zdigits2 M - 53)).
Proof.
  intros HM HD He. unfold shr_fexp. rewrite fexp_normal by lia.
  replace (Zdigits2 M + e - 53 - e) with (Zdigits2 M - 53) by lia.
  destruct (Zdigits2 M - 53) as [|p|p] eqn:Es; try lia.
  unfold shr. cbn [shr_record_of_loc]. rewrite iter_pos_nat.
  destruct (Pos.to_nat p) as [|n] eqn:En; [lia|].
  rewrite shr_iter by lia.
  assert (E1 : Z.of_nat (S n) = Z.pos p) by lia.
  assert (E2 : Z.of_nat n = Z.pos p - 1) by lia.
  rewrite E1, E2. reflexivity.
Qed.

(** The integer nearest to [M / 2^s]. *)
Lemma round_shifted (M s : Z) :
  0 <= M -> 0 < s ->
  let m1 := round_nearest_even
              (M / 2 ^ s)
              (loc_of_shr_record
                 (Build_shr_record (M / 2 ^ s) (Z.testbit M (s - 1))
                                   (negb (M mod 2 ^ (s - 1) =? 0)))) in
  M / 2 ^ s <= m1 <= M / 2 ^ s + 1
  /\ Z.abs (m1 * 2 ^ s - M) * 2 <= 2 ^ s.
Proof.
  intros HM Hs.
  assert (Hp : 0 < 2 ^ (s - 1)) by (apply Z.pow_pos_nonneg; lia).
  assert (E2 : 2 ^ s = 2 ^ (s - 1) * 2).
  { replace s with (Z.succ (s - 1)) at 1 by lia.
    rewrite Z.pow_succ_r by lia. lia. }
  pose proof (Z.div_mod M (2 ^ s)) as Hdm.
  assert (Hr : M mod 2 ^ s
               = M mod 2 ^ (s - 1)
                 + 2 ^ (s - 1) * Z.b2z (Z.testbit M (s - 1))).
  { rewrite E2, Z.rem_mul_r by lia.
    rewrite (Z.testbit_odd M (s - 1)), Z.shiftr_div_pow2 by lia.
    rewrite <- Z.bit0_odd, Z.bit0_mod. reflexivity. }
  pose proof (Z.mod_pos_bound M (2 ^ (s - 1)) Hp) as Hb.
  set (m0 := M / 2 ^ s) in *. set (r0 := M mod 2 ^ (s - 1)) in *.
  assert (HM' : M = 2 ^ (s - 1) * 2 * m0
                    + (r0 + 2 ^ (s - 1) * Z.b2z (Z.testbit M (s - 1)))).
  { rewrite <- Hr, <- E2. apply Hdm. lia. }
  clear Hdm Hr. rewrite E2.
  destruct (Z.testbit M (s - 1)); cbn [Z.b2z] in HM';
    destruct (Z.eqb_spec r0 0) as [E0|N0];
    cbn [negb loc_of_shr_record round_nearest_even]; cbv zeta;
    try (destruct (Z.even m0)); split; try lia; nia.
Qed.

(** Rounding a mantissa of 53 bits or more, away from the least and the
    greatest exponents: a finite double of 53 bits, at most half a unit of
    its last place from the number given. *)
Lemma round_aux_spec (sx : bool) (M e : Z) :
  0 < M -> 53 <= Zdigits2 M ->
  - 1074 <= Zdigits2 M + e - 53 -> Zdigits2 M + e - 53 + 1 <= 971 ->
  exists m' e',
    binary_round_aux F64.prec F64.emax sx M e loc_Exact
    = S754_finite sx (Z.to_pos m') e'
    /\ 2 ^ 52 <= m' < 2 ^ 53
    /\ e + (Zdigits2 M - 53) <= e' <= e + (Zdigits2 M - 53) + 1
    /\ Z.abs (m' * 2 ^ (e' - e) - M) * 2 <= 2 ^ (Zdigits2 M - 53).
Proof.
  intros HM HD Hlo Hhi.
  destruct (Zdigits2_bounds M HM) as [Blo Bhi].
  unfold binary_round_aux.
  destruct (Z.eq_dec (Zdigits2 M) 53) as [E53|N53].
  - (* no shift *)
    rewrite (shr_fexp_keep M e loc_Exact E53) by lia.
    cbn [shr_record_of_loc shr_m loc_of_shr_record round_nearest_even].
    rewrite (shr_fexp_keep M e loc_Exact E53) by lia.
    cbn [shr_record_of_loc shr_m].
    destruct M as [|p|p]; try lia.
    assert (Hle : (e <=? F64.emax - F64.prec) = true).
    { apply Z.leb_le. unfold F64.emax, F64.prec. lia. }
    rewrite Hle. exists (Zpos p), e.
    rewrite E53 in *. replace (e - e) with 0 by lia.
    split; [reflexivity|]. split; [exact (conj Blo Bhi)|].
    split; [lia|]. change (2 ^ 0) with 1. change (2 ^ (53 - 53)) with 1. lia.
  - (* a shift by [s] bits *)
    set (s := Zdigits2 M - 53) in *.
    assert (Hs : 0 < s) by (unfold s; lia).
    rewrite (shr_fexp_shift M e HM) by lia. fold s.
    cbn [shr_m].
    destruct (round_shifted M s (Z.lt_le_incl _ _ HM) Hs) as [Hm1 Hnear].
    set (m1 := round_nearest_even _ _) in *.
    assert (Hps : 0 < 2 ^ s) by (apply Z.pow_pos_nonneg; lia).
    assert (Hm0 : 2 ^ 52 <= M / 2 ^ s < 2 ^ 53).
    { replace (Zdigits2 M - 1) with (52 + s) in Blo by (unfold s; lia).
      replace (Zdigits2 M) with (53 + s) in Bhi by (unfold s; lia).
      rewrite Z.pow_add_r in Blo, Bhi by lia.
      split.
      - apply Z.div_le_lower_bound; lia.
      - apply Z.div_lt_upper_bound; lia. }
    destruct (Z.eq_dec m1 (2 ^ 53)) as [Ec|Nc].
    + (* the rounded mantissa has 54 bits *)
      assert (Hd1 : Zdigits2 m1 = 54) by (rewrite Ec; reflexivity).
      unfold shr_fexp. rewrite Hd1, fexp_normal by lia.
      replace (54 + (e + s) - 53 - (e + s)) with 1 by lia.
      rewrite Ec. cbn [shr_record_of_loc shr iter_pos].
      change (shr_1 (Build_shr_record (2 ^ 53) false false))
        with (Build_shr_record (2 ^ 52) false false).
      cbn [shr_m]. change (2 ^ 52) with (Zpos (2 ^ 52)).
      assert (Hle : (e + s + 1 <=? F64.emax - F64.prec) = true).
      { apply Z.leb_le. unfold F64.emax, F64.prec. lia. }
      rewrite Hle. exists (2 ^ 52), (e + s + 1).
      split; [reflexivity|]. split; [lia|]. split; [lia|].
      replace (e + s + 1 - e) with (Z.succ s) by lia.
      rewrite Z.pow_succ_r by lia.
      rewrite Ec in Hnear. change (2 ^ 53) with (2 ^ 52 * 2) in Hnear. lia.
    + (* 53 bits *)
      assert (Hd1 : Zdigits2 m1 = 53).
      { apply Zdigits2_unique; lia. }
      rewrite (shr_fexp_keep m1 (e + s) loc_Exact Hd1) by lia.
      cbn [shr_record_of_loc shr_m].
      destruct m1 as [|p|p] eqn:Em1; try lia.
      assert (Hle : (e + s <=? F64.emax - F64.prec) = true).
      { apply Z.leb_le. unfold F64.emax, F64.prec. lia. }
      rewrite Hle. exists (Zpos p), (e + s).
      split; [reflexivity|]. split; [lia|]. split; [lia|].
      replace (e + s - e) with s by lia. exact Hnear.
Qed.

Lemma round_aux_53 (sx : bool) (M e : Z) :
  0 < M -> Zdigits2 M = 53 -> - 1074 <= e <= 971 ->
  binary_round_aux F64.prec F64.emax sx M e loc_Exact
  = S754_finite sx (Z.to_pos M) e.
Proof.
  intros HM HD He. unfold binary_round_aux.
  rewrite (shr_fexp_keep M e loc_Exact HD) by lia.
  cbn [shr_record_of_loc shr_m loc_of_shr_record round_nearest_even].
  rewrite (shr_fexp_keep M e loc_Exact HD) by lia.
  cbn [shr_record_of_loc shr_m].
  destruct M as [|p|p]; try lia.
  assert (Hle : (e <=? F64.emax - F64.prec) = true).
  { apply Z.leb_le. unfold F64.emax, F64.prec. lia. }
  rewrite Hle. reflexivity.
Qed.

Lemma iter_xO (p q : positive) :
  Zpos (Pos.iter xO p q) = Zpos p * 2 ^ Zpos q.
Proof.
  induction q as [|q IH] using Pos.peano_ind.
  - cbn [Pos.iter]. rewrite Pos2Z.inj_xO. change (2 ^ 1) with 2. lia.
  - rewrite Pos.iter_succ, Pos2Z.inj_xO, IH, Pos2Z.inj_succ.
    rewrite Z.pow_succ_r by lia. lia.
Qed.

Lemma Zdigits2_shift (z j : Z) :
  0 < z -> 0 <= j -> Zdigits2 (z * 2 ^ j) = Zdigits2 z + j.
Proof.
  intros Hz Hj. destruct (Zdigits2_bounds z Hz) as [Blo Bhi].
  pose proof (Zdigits2_pos z Hz) as HD.
  assert (Hp : 0 < 2 ^ j) by (apply Z.pow_pos_nonneg; lia).
  apply Zdigits2_unique; [|lia].
  replace (Zdigits2 z + j - 1) with (Zdigits2 z - 1 + j) by lia.
  rewrite !Z.pow_add_r by lia. split; nia.
Qed.

(** Rounding a mantissa of at most 53 bits changes nothing: it is only
    written with 53 bits. *)
Lemma binary_round_exact (sx : bool) (p : positive) (e : Z) :
  Zdigits2 (Zpos p) <= 53 ->
  - 1074 <= Zdigits2 (Zpos p) + e - 53 -> Zdigits2 (Zpos p) + e - 53 <= 971 ->
  binary_round F64.prec F64.emax sx p e
  = S754_finite sx (Z.to_pos (Zpos p * 2 ^ (53 - Zdigits2 (Zpos p))))
                (Zdigits2 (Zpos p) + e - 53).
Proof.
  intros HD Hlo Hhi. unfold binary_round.
  change (Zpos (digits2_pos p)) with (Zdigits2 (Zpos p)).
  rewrite fexp_normal by lia. unfold shl_align.
  set (d := Zdigits2 (Zpos p)) in *.
  destruct (d + e - 53 - e) as [|q|q] eqn:Ed; try lia.
  - assert (E : d = 53) by lia.
    rewrite (round_aux_53 sx (Zpos p) e) by (fold d; lia).
    rewrite E. change (2 ^ (53 - 53)) with 1. rewrite Z.mul_1_r.
    f_equal. lia.
  - assert (Hq : Zpos q = 53 - d) by lia.
    rewrite (round_aux_53 sx (Zpos (Pos.iter xO p q)) (d + e - 53)).
    + rewrite iter_xO, Hq. reflexivity.
    + lia.
    + rewrite iter_xO, Zdigits2_shift by lia. fold d. lia.
    + lia.
Qed.

(** A positive integer below 2^53 converts without rounding. *)
Lemma of_int_exact (z : Z) :
  0 < z < 2 ^ 53 ->
  F64.of_int z
  = S754_finite false (Z.to_pos (z * 2 ^ (53 - Zdigits2 z)))
                (Zdigits2 z - 53).
Proof.
  intros Hz. destruct z as [|p|p]; try lia.
  unfold F64.of_int, binary_normalize.
  assert (HD : Zdigits2 (Zpos p) <= 53).
  { apply Zdigits2_le; lia. }
  pose proof (Zdigits2_pos (Zpos p) eq_refl) as H0.
  rewrite binary_round_exact by lia.
  f_equal; lia.
Qed.

Lemma binary_round_moderate (sx : bool) (p : positive) (e b : Z) :
  - b <= e -> Zdigits2 (Zpos p) + e <= b -> b <= 900 ->
  moderate (b + 53) (binary_round F64.prec F64.emax sx p e).
Proof.
  intros He Hm Hb.
  pose proof (Zdigits2_pos (Zpos p) eq_refl) as H0.
  destruct (Z_le_gt_dec (Zdigits2 (Zpos p)) 53) as [Hd|Hd].
  - rewrite binary_round_exact by lia. cbn [moderate].
    change (Zpos (digits2_pos ?q)) with (Zdigits2 (Zpos q)).
    rewrite Z2Pos.id
      by (apply Z.mul_pos_pos; [lia|apply Z.pow_pos_nonneg; lia]).
    rewrite Zdigits2_shift by lia. lia.
  - unfold binary_round.
    change (Zpos (digits2_pos p)) with (Zdigits2 (Zpos p)).
    rewrite fexp_normal by lia. unfold shl_align.
    destruct (Zdigits2 (Zpos p) + e - 53 - e) as [|q|q] eqn:Ed; try lia.
    destruct (round_aux_spec sx (Zpos p) e) as [m' [e' [E [Hm' [He' _]]]]];
      try lia.
    rewrite E. cbn [moderate].
    change (Zpos (digits2_pos ?q)) with (Zdigits2 (Zpos q)).
    rewrite Z2Pos.id by lia.
    rewrite (Zdigits2_unique m' 53) by lia. lia.
Qed.

Lemma binary_normalize_moderate (z e b : Z) (sz : bool) :
  - b <= e -> Zdigits2 z + e <= b -> b <= 900 ->
  moderate (b + 53) (binary_normalize F64.prec F64.emax z e sz).
Proof.
  intros He Hm Hb. destruct z as [|p|p]; cbn [binary_normalize].
  - exact I.
  - apply binary_round_moderate; assumption.
  - apply binary_round_moderate; assumption.
Qed.

Lemma moderate_finite (b : Z) (x : F64.float) :
  moderate b x -> F64.is_finite x = true.
Proof. destruct x; cbn; intros H; try contradiction; reflexivity. Qed.

Lemma moderate_weaken (b b' : Z) (x : F64.float) :
  moderate b x -> b <= b' -> moderate b' x.
Proof. destruct x; cbn; intros H Hb; try exact H. lia. Qed.

Lemma shl_align_value (m : positive) (e e' : Z) :
  e' <= e ->
  Zpos (fst (shl_align m e e')) = Zpos m * 2 ^ (e - e').
Proof.
  intros H. unfold shl_align.
  destruct (e' - e) as [|q|q] eqn:Ed; cbn [fst]; try lia.
  - replace (e - e') with 0 by lia. change (2 ^ 0) with 1. lia.
  - rewrite iter_xO. f_equal. f_equal. lia.
Qed.

(** The difference of two moderate doubles is moderate. *)
Lemma sub_moderate (b : Z) (x y : F64.float) :
  moderate b x -> moderate b y -> 0 <= b <= 800 ->
  moderate (b + 54) (F64.sub x y).
Proof.
  intros Hx Hy Hb.
  destruct x as [sx|sx| |sx mx ex], y as [sy|sy| |sy my ey];
    cbn [moderate] in Hx, Hy; try contradiction.
  - destruct sx, sy; exact I.
  - unfold F64.sub, SFsub. cbn [moderate]. lia.
  - unfold F64.sub, SFsub. cbn [moderate]. lia.
  - unfold F64.sub, SFsub. cbv zeta.
    change (Zpos (digits2_pos ?q)) with (Zdigits2 (Zpos q)) in Hx, Hy.
    pose proof (Zdigits2_pos (Zpos mx) eq_refl) as Dx.
    pose proof (Zdigits2_pos (Zpos my) eq_refl) as Dy.
    set (ez := Z.min ex ey).
    rewrite !shl_align_value by (unfold ez; lia).
    set (ax := Zpos mx * 2 ^ (ex - ez)). set (ay := Zpos my * 2 ^ (ey - ez)).
    assert (Hax : 0 < ax < 2 ^ (b - ez)).
    { unfold ax.
      pose proof (Zdigits2_bounds (Zpos mx) eq_refl) as [_ Bx].
      assert (Hp : 0 < 2 ^ (ex - ez))
        by (apply Z.pow_pos_nonneg; unfold ez; lia).
      split; [lia|].
      apply Z.lt_le_trans with (2 ^ Zdigits2 (Zpos mx) * 2 ^ (ex - ez));
        [nia|].
      rewrite <- Z.pow_add_r
        by (try apply Z.lt_le_incl, Zdigits2_pos; unfold ez; lia).
      apply Z.pow_le_mono_r; unfold ez; lia. }
    assert (Hay : 0 < ay < 2 ^ (b - ez)).
    { unfold ay.
      pose proof (Zdigits2_bounds (Zpos my) eq_refl) as [_ By].
      assert (Hp : 0 < 2 ^ (ey - ez))
        by (apply Z.pow_pos_nonneg; unfold ez; lia).
      split; [lia|].
      apply Z.lt_le_trans with (2 ^ Zdigits2 (Zpos my) * 2 ^ (ey - ez));
        [nia|].
      rewrite <- Z.pow_add_r
        by (try apply Z.lt_le_incl, Zdigits2_pos; unfold ez; lia).
      apply Z.pow_le_mono_r; unfold ez; lia. }
    assert (Hd : Zdigits2 (cond_Zopp sx ax - cond_Zopp sy ay) + ez <= b + 1).
    { assert (Habs : Z.abs (cond_Zopp sx ax - cond_Zopp sy ay)
                     < 2 ^ (b - ez + 1)).
      { rewrite Z.pow_add_r by (unfold ez; lia). change (2 ^ 1) with 2.
        destruct sx, sy; cbn [cond_Zopp]; lia. }
      assert (Hdg : Zdigits2 (cond_Zopp sx ax - cond_Zopp sy ay)
                    = Zdigits2 (Z.abs (cond_Zopp sx ax - cond_Zopp sy ay))).
      { destruct (cond_Zopp sx ax - cond_Zopp sy ay); reflexivity. }
      rewrite Hdg.
      pose proof (Zdigits2_le _ (b - ez + 1)
                    (conj (Z.abs_nonneg _) Habs)) as Hle.
      unfold ez in *. lia. }
    apply (moderate_weaken (b + 1 + 53)); [|lia].
    apply binary_normalize_moderate; unfold ez in *; lia.
Qed.

(** ** The index arithmetic of numpy *)

Lemma q95_value : q95 = S754_finite false 8556839292003942 (- 53).
Proof. vm_compute. reflexivity. Qed.

(** The virtual index [k * 0.95] in double precision: a 53-bit mantissa
    [m] at exponent [- t], nearest to the product of [k] and the double
    [0.95]. *)
Lemma virtual_index_value (k : Z) :
  1 <= k < 2 ^ 48 ->
  exists m t,
    F64.mul (F64.of_int k) q95 = S754_finite false (Z.to_pos m) (- t)
    /\ 2 ^ 52 <= m < 2 ^ 53
    /\ 52 - Zdigits2 k <= t <= 54 - Zdigits2 k
    /\ Z.abs (m * 2 ^ 53 - k * 2 ^ t * 8556839292003942) * 2 <= 2 ^ 53.
Proof.
  intros Hk.
  assert (Hk0 : 0 < k) by lia.
  pose proof (Zdigits2_pos k Hk0) as Hd0.
  assert (Hd : Zdigits2 k <= 48) by (apply Zdigits2_le; lia).
  destruct (Zdigits2_bounds k Hk0) as [Blo Bhi].
  rewrite of_int_exact by lia. rewrite q95_value.
  set (d := Zdigits2 k) in *.
  set (W := 2 ^ (53 - d)).
  assert (HW : 0 < W) by (apply Z.pow_pos_nonneg; lia).
  assert (E52 : 2 ^ (d - 1) * W = 2 ^ 52).
  { unfold W. rewrite <- Z.pow_add_r by lia. f_equal. lia. }
  assert (E53 : 2 ^ d * W = 2 ^ 53).
  { unfold W. rewrite <- Z.pow_add_r by lia. f_equal. lia. }
  assert (HkW : 2 ^ 52 <= k * W < 2 ^ 53).
  { rewrite <- E52, <- E53. split.
    - apply Z.mul_le_mono_nonneg_r; lia.
    - apply Z.mul_lt_mono_pos_r; lia. }
  set (kw := k * W) in *.
  change (F64.mul (S754_finite false (Z.to_pos kw) (d - 53))
                  (S754_finite false 8556839292003942 (- 53)))
    with (binary_round_aux F64.prec F64.emax false
            (Zpos (Z.to_pos kw * 8556839292003942)) (d - 53 + - 53) loc_Exact).
  rewrite Pos2Z.inj_mul, Z2Pos.id by lia.
  set (M := kw * 8556839292003942).
  assert (HM : 2 ^ 104 <= M < 2 ^ 106) by (unfold M; lia).
  assert (HM0 : 0 < M) by lia.
  destruct (Zdigits2_bounds M HM0) as [DMlo DMhi].
  pose proof (Zdigits2_pos M HM0) as HD0.
  assert (HD1 : Zdigits2 M <= 106) by (apply Zdigits2_le; lia).
  assert (HD2 : 105 <= Zdigits2 M).
  { destruct (Z_lt_le_dec (Zdigits2 M) 105) as [Hlt|Hge]; [|exact Hge].
    pose proof (Z.pow_le_mono_r 2 (Zdigits2 M) 104 ltac:(lia) ltac:(lia)).
    lia. }
  set (D := Zdigits2 M) in *.
  destruct (round_aux_spec false M (d - 53 + - 53))
    as [m [e' [E [Hm [He' HN]]]]]; try (fold D; lia).
  fold D in He', HN.
  exists m, (- e'). rewrite Z.opp_involutive.
  split; [exact E|]. split; [exact Hm|]. split; [lia|].
  set (t := - e').
  set (u := e' - (d - 53 + - 53)) in *.
  set (P := 2 ^ t). set (U := 2 ^ u) in *.
  assert (HP : 0 < P) by (apply Z.pow_pos_nonneg; unfold t; lia).
  assert (EUP : U * P = 2 ^ 53 * W).
  { unfold U, P, W. rewrite <- !Z.pow_add_r by (unfold u, t; lia).
    f_equal. unfold u, t. lia. }
  assert (HDU : 2 ^ (D - 53) <= U).
  { unfold U. apply Z.pow_le_mono_r; unfold u; lia. }
  set (X := m * U - M) in *.
  set (T53 := 2 ^ 53) in *.
  set (Y := m * T53 - k * P * 8556839292003942).
  assert (HYW : Y * W = X * P).
  { unfold Y, X, M, kw.
    transitivity (m * (T53 * W) - k * W * 8556839292003942 * P); [ring|].
    rewrite <- EUP. ring. }
  apply (Z.mul_le_mono_pos_r _ _ W HW).
  replace (Z.abs Y * 2 * W) with (Z.abs (Y * W) * 2)
    by (rewrite Z.abs_mul, (Z.abs_eq W) by lia; ring).
  rewrite HYW, Z.abs_mul, (Z.abs_eq P) by lia.
  rewrite <- EUP.
  replace (Z.abs X * P * 2) with (Z.abs X * 2 * P) by ring.
  apply Z.mul_le_mono_nonneg_r; lia.
Qed.

Lemma of_int_moderate (z : Z) :
  0 <= z < 2 ^ 53 -> moderate 53 (F64.of_int z).
Proof.
  intros Hz. destruct (Z.eq_dec z 0) as [->|Hne]; [exact I|].
  assert (Hz0 : 0 < z) by lia.
  pose proof (Zdigits2_pos z Hz0) as Hd0.
  assert (Hd : Zdigits2 z <= 53) by (apply Zdigits2_le; lia).
  rewrite of_int_exact by lia. cbn [moderate].
  change (Zpos (digits2_pos ?q)) with (Zdigits2 (Zpos q)).
  rewrite Z2Pos.id
    by (apply Z.mul_pos_pos; [lia|apply Z.pow_pos_nonneg; lia]).
  rewrite Zdigits2_shift by lia. lia.
Qed.

(** numpy's index arithmetic is right for every count of values up to
    2^48: the previous index is the whole part of [0.95 * k], the
    differences are finite, and a whole virtual index gives the weight
    zero. *)
Lemma index_facts (k : Z) : 1 <= k < max_values -> index_check k = true.
Proof.
  unfold max_values. intros Hk.
  assert (Hk0 : 0 < k) by lia.
  pose proof (Zdigits2_pos k Hk0) as Hd0.
  assert (Hd : Zdigits2 k <= 48) by (apply Zdigits2_le; lia).
  destruct (Zdigits2_bounds k Hk0) as [Blo Bhi].
  destruct (virtual_index_value k Hk) as [m [t [E [Hm [Ht HN]]]]].
  set (d := Zdigits2 k) in *.
  pose proof (Z.div_mod (95 * k) 100 ltac:(lia)) as Hdiv.
  pose proof (Z.mod_pos_bound (95 * k) 100 ltac:(lia)) as Hmod.
  unfold index_check. cbv zeta. fold (floor_rank k).
  change (95 * k / 100) with (floor_rank k) in Hdiv.
  set (L := floor_rank k) in *.
  set (r := 95 * k mod 100) in *.
  set (W := 2 ^ (53 - d)).
  assert (HW : 0 < W) by (apply Z.pow_pos_nonneg; lia).
  assert (E52 : 2 ^ (d - 1) * W = 2 ^ 52).
  { unfold W. rewrite <- Z.pow_add_r by lia. f_equal. lia. }
  assert (E53 : 2 ^ d * W = 2 ^ 53).
  { unfold W. rewrite <- Z.pow_add_r by lia. f_equal. lia. }
  assert (HkW : 2 ^ 52 <= k * W < 2 ^ 53).
  { rewrite <- E52, <- E53. split.
    - apply Z.mul_le_mono_nonneg_r; lia.
    - apply Z.mul_lt_mono_pos_r; lia. }
  set (P := 2 ^ t) in *.
  assert (HP : 16 <= P).
  { unfold P. change 16 with (2 ^ 4). apply Z.pow_le_mono_r; lia. }
  assert (HPW : (t = 54 - d /\ P = 2 * W) \/ (t = 53 - d /\ P = W)
                \/ (t = 52 - d /\ W = 2 * P)).
  { assert (Ht' : t = 54 - d \/ t = 53 - d \/ t = 52 - d) by lia.
    destruct Ht' as [Et|[Et|Et]]; [left|right; left|right; right];
      (split; [exact Et|]); unfold P, W; rewrite Et.
    - replace (54 - d) with (1 + (53 - d)) by lia.
      rewrite Z.pow_add_r by lia. reflexivity.
    - reflexivity.
    - replace (53 - d) with (1 + (52 - d)) by lia.
      rewrite Z.pow_add_r by lia. reflexivity. }
  set (A := k * P) in *.
  assert (HA : 19 * 5 * A = 100 * (L * P) + r * P) by (unfold A; nia).
  set (B := L * P) in *. set (C := r * P) in *.
  assert (Hr : r <= 95) by lia.
  assert (HC : 0 <= C <= 95 * P) by (unfold C; nia).
  assert (HL : 0 <= L < k) by lia.
  assert (HBA : B + P <= A) by (unfold A, B; nia).
  assert (HB0 : 0 <= B) by (unfold B; nia).
  (* the whole part *)
  assert (Hfloor : B <= m < B + P) by lia.
  assert (Efloor : m / P = L).
  { symmetry. apply (Z.div_unique m P L (m - B)); [lia|].
    unfold B. ring. }
  assert (Efl : F64.floor (S754_finite false (Z.to_pos m) (- t)) = L).
  { unfold F64.floor. cbv zeta. cbn [cond_Zopp].
    assert (Hneg : (- t <? 0) = true) by (apply Z.ltb_lt; lia).
    rewrite Hneg, Z.opp_involutive, Z2Pos.id by lia. exact Efloor. }
  (* not past the last index *)
  assert (Eab : F64.leb (F64.of_int k) (S754_finite false (Z.to_pos m) (- t))
                = false).
  { rewrite of_int_exact by lia. fold d. fold W.
    unfold F64.leb, SFleb, SFcompare.
    destruct HPW as [[Et EP]|[[Et EP]|[Et EP]]].
    - assert (Ec : (d - 53 ?= - t) = Gt) by (apply Z.compare_gt_iff; lia).
      rewrite Ec. reflexivity.
    - assert (Ec : (d - 53 ?= - t) = Eq) by (apply Z.compare_eq_iff; lia).
      rewrite Ec.
      assert (Em : Pos.compare_cont Eq (Z.to_pos (k * W)) (Z.to_pos m) = Gt).
      { change (Pos.compare_cont Eq ?a ?b) with (Pos.compare a b).
        rewrite <- Z2Pos.inj_compare by lia.
        apply Z.compare_gt_iff. unfold A in HBA. rewrite <- EP. lia. }
      rewrite Em. reflexivity.
    - exfalso. unfold A in HBA. lia. }
  unfold Double.get_indexes. cbv zeta.
  replace (k + 1 - 1) with k by lia.
  rewrite E, Efl, Eab.
  change (F64.ltb (S754_finite false (Z.to_pos m) (- t)) F64.zero) with false.
  cbv iota. rewrite !Z.eqb_refl. cbn [andb].
  (* the weights *)
  assert (Mv : moderate 60 (S754_finite false (Z.to_pos m) (- t))).
  { cbn [moderate].
    change (Zpos (digits2_pos ?q)) with (Zdigits2 (Zpos q)).
    rewrite Z2Pos.id by lia. rewrite (Zdigits2_unique m 53) by lia. lia. }
  assert (Ml : moderate 60 (F64.of_int L)).
  { apply (moderate_weaken 53); [|lia]. apply of_int_moderate. lia. }
  pose proof (sub_moderate 60 _ _ Mv Ml ltac:(lia)) as Mg.
  assert (M1 : moderate (60 + 54) F64.one).
  { apply (moderate_weaken 53); [|lia]. apply of_int_moderate. lia. }
  pose proof (sub_moderate (60 + 54) _ _ M1 Mg ltac:(lia)) as Mh.
  rewrite (moderate_finite _ _ Mg), (moderate_finite _ _ Mh). cbn [andb].
  destruct (Z.eqb_spec r 0) as [Er|Er]; [|reflexivity].
  cbn [negb orb].
  (* a whole virtual index *)
  assert (EmB : m = B) by (unfold C in *; rewrite Er in *; lia).
  assert (HL0 : 0 < L) by lia.
  assert (Hk20 : 20 <= k) by lia.
  assert (Hd5 : 5 <= d).
  { destruct (Z_lt_le_dec d 5) as [Hlt|Hge]; [|exact Hge].
    pose proof (Z.pow_le_mono_r 2 d 4 ltac:(lia) ltac:(lia)) as Hp.
    change (2 ^ 4) with 16 in Hp. lia. }
  assert (EdL : Zdigits2 L = 53 - t).
  { apply Zdigits2_unique; [|lia].
    assert (F52 : 2 ^ (53 - t - 1) * P = 2 ^ 52).
    { unfold P. rewrite <- Z.pow_add_r by lia. f_equal. lia. }
    assert (F53 : 2 ^ (53 - t) * P = 2 ^ 53).
    { unfold P. rewrite <- Z.pow_add_r by lia. f_equal. lia. }
    unfold B in *. split; nia. }
  rewrite (of_int_exact L) by lia. rewrite EdL.
  replace (53 - (53 - t)) with t by lia.
  replace (53 - t - 53) with (- t) by lia.
  fold P. fold B. rewrite <- EmB.
  rewrite sub_self by reflexivity. reflexivity.
Qed.

(** ** The figure of a fetch in double precision *)

Lemma differences_finite_In (vals : list F64.float) (a b : F64.float) :
  differences_finite vals = true -> In a vals -> In b vals ->
  F64.is_finite (F64.sub b a) = true.
Proof.
  unfold differences_finite. intros H Ha Hb.
  rewrite forallb_forall in H. specialize (H a Ha).
  rewrite forallb_forall in H. exact (H b Hb).
Qed.

Lemma finite_of_sub_self (x : F64.float) :
  F64.is_finite (F64.sub x x) = true -> F64.is_finite x = true.
Proof. destruct x as [[]|[]| |s m e]; intros H; try discriminate H; reflexivity. Qed.

Lemma same_double_finite (x y : F64.float) :
  same_double x y -> F64.is_finite x = true -> F64.is_finite y = true.
Proof.
  intros [->|[_ Hy]] H; [exact H|].
  destruct y; try discriminate Hy; reflexivity.
Qed.

Lemma Forall2_same_nth (l l' : list F64.float) (i : nat) :
  Forall2 same_double l l' ->
  same_double (nth i l F64.zero) (nth i l' F64.zero).
Proof.
  intros H. revert i. induction H as [|x y l l' Hxy _ IH]; intros [|i];
    simpl; try apply same_double_refl; [exact Hxy|apply IH].
Qed.

Lemma Forall2_same_length (l l' : list F64.float) :
  Forall2 same_double l l' -> List.length l = List.length l'.
Proof. induction 1; simpl; congruence. Qed.

(** The value of the reference for values that need no interpolation
    because there is one only. *)
Lemma interp95_double_single (x : F64.float) :
  F64.is_finite x = true -> same_double (interp95_double [x]) x.
Proof.
  intros Hx. unfold interp95_double.
  cbn [List.length Z.of_nat Pos.of_succ_nat Z.sub Z.opp Z.add Z.pos_sub].
  set (g := F64.sub _ _). vm_compute in g. subst g.
  change (Z.to_nat (floor_rank 0)) with 0%nat.
  change (Z.to_nat (ceiling_rank 0)) with 0%nat. cbn [nth].
  apply interpolate_at_zero; [reflexivity|].
  rewrite (sub_self x Hx). reflexivity.
Qed.




(** ** The text of a figure *)

Lemma round_half_even_nearest (q : Q) :
  (Qabs (q - inject_Z (Py.round_half_even q)) <= 1 # 2)%Q
  /\ ((Qabs (q - inject_Z (Py.round_half_even q)) == 1 # 2)%Q ->
      Z.even (Py.round_half_even q) = true).
Proof.
  unfold Py.round_half_even.
  pose proof (Qfloor_le q) as Hlo. pose proof (Qlt_floor q) as Hhi.
  rewrite inject_Z_plus in Hhi. change (inject_Z 1) with 1%Q in Hhi.
  set (f := Qfloor q) in *.
  destruct (q - inject_Z f ?= 1 # 2)%Q eqn:E.
  - apply Qeq_alt in E.
    destruct (Z.even f) eqn:Ev.
    + split; [|intros _; exact Ev].
      apply Qabs_Qle_condition. split; lra.
    + split.
      * rewrite inject_Z_plus. change (inject_Z 1) with 1%Q.
        apply Qabs_Qle_condition. split; lra.
      * intros _. rewrite Z.even_add, Ev. reflexivity.
  - apply Qlt_alt in E. split.
    + apply Qabs_Qle_condition. split; lra.
    + intros H. exfalso.
      rewrite Qabs_pos in H by lra. lra.
  - apply Qgt_alt in E. rewrite inject_Z_plus. change (inject_Z 1) with 1%Q.
    split.
    + apply Qabs_Qle_condition. split; lra.
    + intros H. exfalso.
      rewrite Qabs_neg in H by lra. lra.
Qed.

Lemma round_half_even_nonneg (q : Q) :
  (0 <= q)%Q -> 0 <= Py.round_half_even q.
Proof.
  intros H. unfold Py.round_half_even.
  assert (Hf : 0 <= Qfloor q).
  { change 0 with (Qfloor 0). apply Qfloor_resp_le. exact H. }
  destruct (q - inject_Z (Qfloor q) ?= 1 # 2)%Q; [|lia|lia].
  destruct (Z.even (Qfloor q)); lia.
Qed.

Lemma str_of_int_uint (z : Z) :
  0 <= z ->
  Py.str_of_int z = NilZero.string_of_uint (N.to_uint (Z.to_N z)).
Proof. destruct z as [|p|p]; intros H; [reflexivity|reflexivity|lia]. Qed.

Lemma to_uint_not_nil (n : N) : N.to_uint n <> Decimal.Nil.
Proof.
  rewrite <- (DecimalN.Unsigned.of_to n) at 1.
  rewrite DecimalN.Unsigned.to_of. apply DecimalFacts.unorm_nonnil.
Qed.

Lemma to_uint_normal (n : N) : Decimal.unorm (N.to_uint n) = N.to_uint n.
Proof.
  rewrite <- (DecimalN.Unsigned.of_to n) at 2.
  rewrite DecimalN.Unsigned.to_of. reflexivity.
Qed.

Lemma digits_point_free (d : Decimal.uint) :
  point_free (NilEmpty.string_of_uint d) = true.
Proof. induction d; simpl; auto. Qed.

Lemma digits_unsigned (d : Decimal.uint) (rest : string) :
  d <> Decimal.Nil ->
  strip_sign (NilEmpty.string_of_uint d ++ rest)
  = (false, (NilEmpty.string_of_uint d ++ rest)%string).
Proof. destruct d; intros H; [congruence| | | | | | | | | |]; reflexivity. Qed.

Lemma string_of_uint_not_nil (d : Decimal.uint) :
  d <> Decimal.Nil ->
  NilZero.string_of_uint d = NilEmpty.string_of_uint d.
Proof. destruct d; intros H; [congruence| | | | | | | | | |]; reflexivity. Qed.

Lemma split_point_app (w f : string) :
  point_free w = true ->
  split_point (w ++ String "." f) = Some (w, f).
Proof.
  induction w as [|c w IH]; intros H; simpl in *.
  - reflexivity.
  - apply andb_prop in H. destruct H as [Hc Hw].
    apply negb_true_iff in Hc. rewrite Hc, (IH Hw). reflexivity.
Qed.

Lemma fraction_table :
  forallb fraction_check (map Z.of_nat (seq 0 100)) = true.
Proof. vm_compute. reflexivity. Qed.

Lemma fraction_digits (r : Z) :
  0 <= r < 100 -> fraction_check r = true.
Proof.
  intros H. pose proof fraction_table as T.
  rewrite forallb_forall in T. apply T.
  apply in_map_iff. exists (Z.to_nat r). split; [lia|].
  apply in_seq. lia.
Qed.

(** What [format_2f] writes for [n] hundredths is read back as [n]. *)
Lemma read_2f_format (negative : bool) (n : Z) :
  0 <= n ->
  read_2f ((if negative then "-" else "")
             ++ Py.str_of_int (n / 100) ++ "."
             ++ (if n mod 100 <? 10 then "0" else "")
             ++ Py.str_of_int (n mod 100))
  = Some (negative, n).
Proof.
  intros Hn.
  assert (Hw : 0 <= n / 100) by (apply Z.div_pos; lia).
  assert (Hr : 0 <= n mod 100 < 100) by (apply Z.mod_pos_bound; lia).
  pose proof (fraction_digits _ Hr) as Hf. unfold fraction_check in Hf.
  cbv zeta in Hf.
  set (frac := ((if (n mod 100 <? 10)%Z then "0" else "")
                  ++ Py.str_of_int (n mod 100)%Z)%string) in *.
  apply andb_prop in Hf. destruct Hf as [Hlen Hread].
  destruct (NilZero.uint_of_string frac) as [df|] eqn:Edf; [|discriminate].
  apply Z.eqb_eq in Hread.
  rewrite (str_of_int_uint _ Hw).
  set (dw := N.to_uint (Z.to_N (n / 100))).
  pose proof (to_uint_not_nil (Z.to_N (n / 100))) as Hnil. fold dw in Hnil.
  rewrite (string_of_uint_not_nil dw Hnil).
  assert (Hs : strip_sign ((if negative then "-" else "")
                             ++ NilEmpty.string_of_uint dw ++ "." ++ frac)
               = (negative,
                  (NilEmpty.string_of_uint dw ++ String "." frac)%string)).
  { destruct negative; [reflexivity|]. apply (digits_unsigned dw _ Hnil). }
  unfold read_2f. rewrite Hs.
  rewrite (split_point_app _ _ (digits_point_free dw)).
  rewrite <- (string_of_uint_not_nil dw Hnil), (NilZero.usu dw Hnil), Edf.
  rewrite Hlen. unfold dw at 1 2. rewrite to_uint_normal.
  rewrite (Decimal.internal_uint_dec_lb _ _ eq_refl). cbn [andb].
  unfold dw. rewrite DecimalN.Unsigned.of_to, Hread, Z2N.id by exact Hw.
  f_equal. f_equal. pose proof (Z.div_mod n 100). lia.
Qed.

(** [format_2f] writes the double with two decimals. *)
Lemma format_2f_two_decimals (x : F64.float) :
  two_decimals x (Double.format_2f x).
Proof.
  assert (H : forall y : F64.float,
             F64.is_finite y = true ->
             exists n,
               read_2f
                 (let n := Py.round_half_even (Qabs (F64.to_Q y) * 100)%Q in
                  let frac := n mod 100 in
                  let sign := if F64.sign_bit y then "-" else "" in
                  let pad := if frac <? 10 then "0" else "" in
                  (sign ++ Py.str_of_int (n / 100) ++ "." ++ pad
                     ++ Py.str_of_int frac)%string)
               = Some (F64.sign_bit y, n)
               /\ nearest_hundredths (Qabs (F64.to_Q y)) n).
  { intros y _.
    exists (Py.round_half_even (Qabs (F64.to_Q y) * 100)%Q).
    split.
    - cbv zeta. apply read_2f_format. apply round_half_even_nonneg.
      apply Qmult_le_0_compat; [apply Qabs_nonneg|discriminate].
    - apply round_half_even_nearest. }
  destruct x as [s|s| |s m e]; [|reflexivity|reflexivity|].
  - apply (H (S754_zero s) eq_refl).
  - apply (H (S754_finite s m e) eq_refl).
Qed.

(** ** The report of a run in double precision *)

Lemma join_lines_text (lines : list string) :
  Py.join newline lines = lines_text lines.
Proof.
  unfold Py.join. induction lines as [|l [|l' rest] IH]; try reflexivity.
  cbn [String.concat lines_text] in *. rewrite IH. reflexivity.
Qed.

(** The billing loop appends one result and one line per customer group,
    in the order of the groups. *)
Lemma double_bill_customers_shape (rrd_fetch : Double.fetcher) (s e : Z)
    (customers : customers_dict) (out : list string)
    (results : list (string * F64.float)) (lines : list string) :
  exists extra,
    snd (fst (Double.bill_customers rrd_fetch s e customers out results lines))
    = results ++ extra
    /\ snd (Double.bill_customers rrd_fetch s e customers out results lines)
       = lines ++ map (fun r => Double.report_line (fst r) (snd r)) extra
    /\ map fst extra = map fst customers.
Proof.
  revert out results lines.
  induction customers as [|[name rrds] rest IH]; intros out results lines.
  - exists []. cbn. rewrite !app_nil_r. auto.
  - cbn [Double.bill_customers].
    destruct (Double.collect_samples rrd_fetch s e rrds out [])
      as [out' samples].
    destruct (IH out' (results ++ [(name, Double.val_95_of samples)])
                 (lines ++ [Double.report_line name
                              (Double.val_95_of samples)]))
      as [extra [Hr [Hl Hn]]].
    exists ((name, Double.val_95_of samples) :: extra).
    rewrite Hr, Hl, <- !app_assoc. cbn. rewrite Hn. auto.
Qed.

Lemma lines_of_entries (results : list (string * F64.float)) :
  map (fun r => Double.report_line (fst r) (snd r)) results
  = map (fun e => (fst e ++ ": " ++ snd e ++ " Mbps")%string)
        (combine (map fst results)
                 (map (fun r => Double.format_2f (snd r)) results)).
Proof.
  induction results as [|[name v] rest IH]; [reflexivity|].
  cbn [map combine fst snd]. rewrite IH. reflexivity.
Qed.

Lemma build_report_layout (label : string)
    (results : list (string * F64.float)) :
  build_report label
    (map (fun r => Double.report_line (fst r) (snd r)) results)
  = report_layout label
      (combine (map fst results)
               (map (fun r => Double.format_2f (snd r)) results)).
Proof.
  unfold build_report, report_layout.
  rewrite join_lines_text, lines_of_entries, !string_append_assoc.
  reflexivity.
Qed.

(** C8.  The report of a run is the header line naming the period label,
    an empty line, and one line ["name: figure Mbps"] per billing result;
    the figure is written with two decimals, as the multiple of 0.01
    nearest to the billed double (the even one of two equally near), and
    the results, and with them the lines, follow the order in which the
    customers were first seen in the directory.  The text is what is
    printed, or the body of the message when a recipient is given. *)
Theorem report_text_and_order (args : Args) (env : Env)
    (rrd_fetch : Double.fetcher) (results : list (string * F64.float)) :
  Double.billing_results args env rrd_fetch = Some results ->
  exists label cfg rows figures,
    get_month_label (now env 1%nat) (prev args) = Py.Ok label
    /\ load_observium_db_config env (observium_config args) = Py.Ok cfg
    /\ mysql_ports env cfg = Py.Ok rows
    /\ map fst results
       = first_seen (discovered_names env (rrd_base args) rows)
    /\ Forall2 two_decimals (map snd results) figures
    /\ match email_given args with
       | None =>
           last (stdout (Double.main args env rrd_fetch)) ""
           = report_layout label (combine (map fst results) figures)
       | Some to_addr =>
           match send_email env to_addr (report_subject label)
                   (report_layout label
                      (combine (map fst results) figures)) with
           | None =>
               mails (Double.main args env rrd_fetch)
               = [(to_addr, report_subject label,
                   report_layout label (combine (map fst results) figures))]
           | Some err => uncaught (Double.main args env rrd_fetch) = Some err
           end
       end.
Proof.
  intros Hres. unfold Double.billing_results in Hres. unfold Double.main.
  destruct (get_date_range _ _ _) as [[s e]|]; [|discriminate].
  destruct (get_month_label _ _) as [label|]; [|discriminate].
  destruct (load_observium_db_config _ _) as [cfg|]; [|discriminate].
  destruct (load_customer_interfaces env cfg (rrd_base args))
    as [out [[|c cs]|]] eqn:Hl; try discriminate.
  assert (Hq : exists rows, mysql_ports env cfg = Py.Ok rows).
  { unfold load_customer_interfaces in Hl.
    destruct (mysql_ports env cfg) as [rows|]; [eauto|discriminate]. }
  destruct Hq as [rows Hq].
  pose proof (load_customer_interfaces_order env cfg _ rows out _ Hq Hl) as Ho.
  destruct (double_bill_customers_shape rrd_fetch s e (c :: cs) out [] [])
    as [extra [Hb [Hn Hk]]].
  destruct (Double.bill_customers rrd_fetch s e (c :: cs) out [] [])
    as [[out' res] lines].
  cbn [fst snd] in Hb, Hn. rewrite app_nil_l in Hb, Hn.
  injection Hres as <-. subst res lines.
  exists label, cfg, rows, (map (fun r => Double.format_2f (snd r)) extra).
  split; [reflexivity|]. split; [reflexivity|]. split; [exact Hq|].
  split; [rewrite Hk; exact Ho|].
  split.
  { clear. induction extra as [|[name v] rest IH]; constructor;
      [apply format_2f_two_decimals|exact IH]. }
  cbv beta iota zeta. rewrite build_report_layout.
  destruct (email_given args) as [to_addr|].
  - destruct (send_email env to_addr _ _); reflexivity.
  - cbn [stdout returned]. apply last_last.
Qed.

Lemma report_text_and_order_witness :
  (exists results label cfg rows figures,
     Double.billing_results sample_args rounding_env rounding_fetch
     = Some results
     /\ get_month_label (now rounding_env 1%nat) (prev sample_args)
        = Py.Ok label
     /\ load_observium_db_config rounding_env (observium_config sample_args)
        = Py.Ok cfg
     /\ mysql_ports rounding_env cfg = Py.Ok rows
     /\ map fst results
        = first_seen
            (discovered_names rounding_env (rrd_base sample_args) rows)
     /\ Forall2 two_decimals (map snd results) figures
     /\ last (stdout (Double.main sample_args rounding_env rounding_fetch)) ""
        = report_layout label (combine (map fst results) figures))
  /\ last (stdout (Double.main sample_args rounding_env rounding_fetch)) ""
     = ("95th Percentile Billing Report for August 2025" ++ newline
          ++ newline
          ++ "Acme: 2.67 Mbps" ++ newline
          ++ "Beta: 0.01 Mbps" ++ newline
          ++ "Gamma: 0.00 Mbps")%string.
Proof.
  split; [|vm_compute; reflexivity].
  eexists.
  assert (H : Double.billing_results sample_args rounding_env rounding_fetch
              = Some _) by (vm_compute; reflexivity).
  destruct (report_text_and_order sample_args rounding_env rounding_fetch _ H)
    as [label [cfg [rows [figures [H1 [H2 [H3 [H4 [H5 H6]]]]]]]]].
  exists label, cfg, rows, figures.
  split; [exact H|]. repeat (split; [assumption|]). exact H6.
Defined.


End DoublePrecision.


(* ================================================================== *)
(** * Part IV: further properties of the code *)
(* ================================================================== *)

(** ** [compute_95th] *)

Lemma permA_length (l l' : list Q) :
  PermutationA Qeq l l' -> List.length l = List.length l'.
Proof. induction 1; simpl; congruence. Qed.

Lemma figure_of_permA (l l' : list Q) :
  PermutationA Qeq l l' -> figure_of l == figure_of l'.
Proof.
  intros H. pose proof (permA_length l l' H) as Hlen.
  destruct l as [|x l], l' as [|x' l']; try discriminate Hlen.
  - reflexivity.
  - unfold figure_of. apply interp95_eqlist. apply sort_permA. exact H.
Qed.

(** On a well-formed fetch [compute_95th] returns the figure of the
    reference values. *)
Lemma percentile_of_fetch_figure (rrd_file : string) (f : fetch_data) :
  well_formed f ->
  exists v,
    percentile_of_fetch rrd_file f = Py.Ok v
    /\ v == figure_of (reference_mbps (samples_of_fetch f)).
Proof.
  intros Hwf.
  destruct (percentile_of_fetch_ok rrd_file f Hwf) as [vals [Hv [He Hp]]].
  assert (Hfig : figure_of (to_mbps vals)
                 == figure_of (reference_mbps (samples_of_fetch f))).
  { apply figure_of_permA. apply eqlistA_PermutationA. exact He. }
  destruct vals as [|v0 vals'].
  - exists 0. split; [exact Hp|]. rewrite <- Hfig. reflexivity.
  - destruct (percentile_95_ok (to_mbps (v0 :: vals')) ltac:(discriminate))
      as [v [x [y [g [Hok [Hint _]]]]]].
    exists v. split; [rewrite Hp; exact Hok|].
    rewrite <- Hfig. exact Hint.
Qed.

Lemma reference_mbps_perm (l l' : list Sample) :
  Permutation l l' -> Permutation (reference_mbps l) (reference_mbps l').
Proof.
  induction 1 as [|s l l' _ IH|s s' l|l l' l'' _ IH1 _ IH2]; simpl.
  - constructor.
  - destruct (inRate s), (outRate s); try exact IH. constructor. exact IH.
  - destruct (inRate s), (outRate s), (inRate s'), (outRate s');
      try reflexivity; try constructor.
  - etransitivity; eassumption.
Qed.

(** X1. The figure does not depend on the order of the samples: two
    well-formed fetch results whose rows are a rearrangement of each other
    give the same figure. *)
Theorem sample_order_is_irrelevant (rrd_file : string) (f f' : fetch_data) :
  well_formed f -> well_formed f' ->
  Permutation (fd_rows f) (fd_rows f') ->
  same_figure (percentile_of_fetch rrd_file f)
              (percentile_of_fetch rrd_file f').
Proof.
  intros Hwf Hwf' Hperm.
  destruct (percentile_of_fetch_figure rrd_file f Hwf) as [v [Hv Ev]].
  destruct (percentile_of_fetch_figure rrd_file f' Hwf') as [v' [Hv' Ev']].
  rewrite Hv, Hv'. simpl. rewrite Ev, Ev'.
  apply figure_of_permA.
  apply Permutation_PermutationA; [exact Q_Setoid|].
  apply reference_mbps_perm. unfold samples_of_fetch.
  apply Permutation_map. exact Hperm.
Qed.

Lemma sample_order_is_irrelevant_witness :
  same_figure
    (percentile_of_fetch "port-1.rrd" fetch_mixed)
    (percentile_of_fetch "port-1.rrd"
       (mk_fetch (fd_range fetch_mixed) series_names (rev (fd_rows fetch_mixed)))).
Proof.
  apply (sample_order_is_irrelevant "port-1.rrd" fetch_mixed
           (mk_fetch (fd_range fetch_mixed) series_names (rev (fd_rows fetch_mixed)))).
  - split; [simpl; lia|repeat constructor].
  - split; [simpl; lia|repeat constructor].
  - apply Permutation_rev.
Defined.

Lemma reference_mbps_swap (rows : list (list (option Q))) :
  Forall (fun row => (2 <= List.length row)%nat) rows ->
  eqlistA Qeq (reference_mbps (map sample_of_row (map swap_in_out rows)))
              (reference_mbps (map sample_of_row rows)).
Proof.
  induction 1 as [|row rows Hrow _ IH]; [constructor|].
  destruct row as [|a [|b rest]]; simpl in Hrow; try lia.
  simpl. destruct a as [x|], b as [y|]; try exact IH.
  constructor; [|exact IH].
  rewrite (Q.max_comm y x). reflexivity.
Qed.

(** X2. Exchanging the inbound and the outbound series leaves the figure
    unchanged: only the larger of the two rates of a sample counts. *)
Theorem directions_are_interchangeable (rrd_file : string) (f : fetch_data) :
  well_formed f ->
  same_figure
    (percentile_of_fetch rrd_file f)
    (percentile_of_fetch rrd_file
       (mk_fetch (fd_range f) (fd_names f) (map swap_in_out (fd_rows f)))).
Proof.
  intros Hwf.
  assert (Hwf' : well_formed
            (mk_fetch (fd_range f) (fd_names f) (map swap_in_out (fd_rows f)))).
  { destruct Hwf as [Hn Hr]. split; [exact Hn|]. simpl.
    apply Forall_map. eapply Forall_impl; [|exact Hr].
    intros [|a [|b rest]] E; simpl in *; exact E. }
  destruct (percentile_of_fetch_figure rrd_file f Hwf) as [v [Hv Ev]].
  destruct (percentile_of_fetch_figure rrd_file _ Hwf') as [v' [Hv' Ev']].
  rewrite Hv, Hv'. simpl. rewrite Ev, Ev'.
  symmetry. apply figure_of_permA. apply eqlistA_PermutationA.
  unfold samples_of_fetch. simpl fd_rows.
  apply reference_mbps_swap. apply well_formed_rows. exact Hwf.
Qed.

Lemma directions_are_interchangeable_witness :
  same_figure
    (percentile_of_fetch "port-1.rrd" fetch_mixed)
    (percentile_of_fetch "port-1.rrd"
       (mk_fetch (fd_range fetch_mixed) (fd_names fetch_mixed)
                 (map swap_in_out (fd_rows fetch_mixed)))).
Proof.
  apply (directions_are_interchangeable "port-1.rrd" fetch_mixed).
  split; [simpl; lia|repeat constructor].
Defined.

(** X3. An interface without a single sample that has both directions
    (no rows at all, or gaps only) yields exactly [0.0]; it is no
    error. *)
Theorem no_valid_sample_gives_zero (rrd_file : string) (f : fetch_data) :
  (2 <= List.length (fd_names f))%nat ->
  Forall is_gap (fd_rows f) ->
  percentile_of_fetch rrd_file f = Py.Ok 0.
Proof.
  intros Hn Hg. unfold percentile_of_fetch.
  apply Nat.ltb_ge in Hn. rewrite Hn.
  rewrite <- (app_nil_r (fd_rows f)), (combined_vals_gaps _ [] Hg).
  reflexivity.
Qed.

Lemma no_valid_sample_gives_zero_witness :
  percentile_of_fetch "port-1.rrd"
    (mk_fetch (fd_range fetch_mixed) series_names
              [[None; Some 5]; [Some 7; None]; [None; None]])
  = Py.Ok 0.
Proof.
  apply (no_valid_sample_gives_zero "port-1.rrd").
  - simpl. lia.
  - gap_rows.
Defined.

Lemma convex_between (x y g lo hi : Q) :
  lo <= x <= hi -> lo <= y <= hi -> 0 <= g -> g <= 1 ->
  lo <= (1 - g) * x + g * y <= hi.
Proof.
  intros [Hx1 Hx2] [Hy1 Hy2] Hg0 Hg1.
  pose proof (convex_nonneg (x - lo) (y - lo) g) as H1.
  pose proof (convex_nonneg (hi - x) (hi - y) g) as H2.
  assert (E1 : (1 - g) * x + g * y
               == lo + ((1 - g) * (x - lo) + g * (y - lo))) by ring.
  assert (E2 : (1 - g) * x + g * y
               == hi - ((1 - g) * (hi - x) + g * (hi - y))) by ring.
  split.
  - rewrite E1. assert (0 <= (1 - g) * (x - lo) + g * (y - lo))
      by (apply H1; lra). lra.
  - rewrite E2. assert (0 <= (1 - g) * (hi - x) + g * (hi - y))
      by (apply H2; lra). lra.
Qed.



(** Below its last position, the array with [m] inserted holds [m] or
    elements of the array, and [m] only in front of a larger element. *)
Lemma insert_nth_bound (m B : Q) (t : list Q) :
  Forall (fun x => x <= B) t ->
  forall i, (i < List.length t)%nat -> nth i (Np.insert m t) 0 <= B.
Proof.
  induction 1 as [|y t Hy Ht IH]; intros i Hi; simpl in Hi; [lia|].
  simpl. destruct (Qle_bool m y) eqn:E.
  - apply Qle_bool_iff in E. destruct i as [|i]; simpl.
    + eapply Qle_trans; eassumption.
    + destruct i as [|i]; simpl; [exact Hy|].
      rewrite Forall_forall in Ht. apply Ht. apply nth_In. lia.
  - destruct i as [|i]; simpl; [exact Hy|]. apply IH. lia.
Qed.

Lemma sort_Forall (P : Q -> Prop) (l : list Q) :
  Forall P l -> Forall P (Np.sort l).
Proof.
  rewrite !Forall_forall. intros H x Hx. apply H. apply sort_In. exact Hx.
Qed.

(** From 21 values on, the index [0.95 * (n - 1)] and its ceiling stay
    below the last rank. *)
Lemma ceiling_rank_below_last (k : Z) :
  (20 <= k)%Z ->
  (0 <= Qfloor ((95 # 100) * inject_Z k)
   <= Qceiling ((95 # 100) * inject_Z k))%Z
  /\ (Qceiling ((95 # 100) * inject_Z k) <= k - 1)%Z.
Proof.
  intros Hk. pose proof Hk as Hq. rewrite Zle_Qle in Hq.
  change (inject_Z 20) with 20 in Hq.
  split; [split|].
  - change 0%Z with (Qfloor 0). apply Qfloor_resp_le. lra.
  - rewrite Zle_Qle. apply Qle_floor_ceiling.
  - rewrite <- (Qceiling_Z (k - 1)). apply Qceiling_resp_le.
    unfold Z.sub. rewrite inject_Z_plus, inject_Z_opp.
    change (inject_Z 1) with 1. lra.
Qed.



(** X6. The outcomes of [compute_95th]: an exception of rrdtool is passed
    on unchanged; a fetch naming fewer than two data series raises the
    [ValueError] that names the file, whatever its rows hold; every other
    fetch whose rows are as wide as its list of names returns a figure. *)
Theorem compute_95th_outcomes (env : Env) (rrd_file : string) (s e : Z) :
  (forall err,
     rrd_fetch env rrd_file s e = Py.Raise err ->
     compute_95th env rrd_file s e = Py.Raise err)
  /\ (forall f,
        rrd_fetch env rrd_file s e = Py.Ok f ->
        (List.length (fd_names f) < 2)%nat ->
        compute_95th env rrd_file s e
        = Py.Raise (Py.ValueError
            ("RRD " ++ rrd_file ++ " must have at least two DS (in/out)")))
  /\ (forall f,
        rrd_fetch env rrd_file s e = Py.Ok f ->
        (2 <= List.length (fd_names f))%nat ->
        Forall (fun row => List.length row = List.length (fd_names f))
               (fd_rows f) ->
        exists v, compute_95th env rrd_file s e = Py.Ok v).
Proof.
  unfold compute_95th. repeat split.
  - intros err H. rewrite H. reflexivity.
  - intros f H Hn. rewrite H. cbn [Py.bind]. unfold percentile_of_fetch.
    apply Nat.ltb_lt in Hn. rewrite Hn. reflexivity.
  - intros f H Hn Hrows. rewrite H. cbn [Py.bind].
    destruct (percentile_of_fetch_figure rrd_file f (conj Hn Hrows))
      as [v [Hv _]].
    exists v. exact Hv.
Qed.

Lemma compute_95th_outcomes_witness :
  compute_95th (constant_env (Py.Raise (Py.LibraryError "no such file")))
    "port-1.rrd" 0 300
  = Py.Raise (Py.LibraryError "no such file")
  /\ compute_95th
       (constant_env (Py.Ok (mk_fetch (fd_range fetch_mixed) ["traffic"]
                                      [[Some 1]])))
       "port-1.rrd" 0 300
     = Py.Raise (Py.ValueError
                   "RRD port-1.rrd must have at least two DS (in/out)")
  /\ exists v,
       compute_95th (constant_env (Py.Ok fetch_mixed)) "port-1.rrd" 0 300
       = Py.Ok v.
Proof.
  split; [|split].
  - apply (proj1 (compute_95th_outcomes _ "port-1.rrd" 0%Z 300%Z)).
    reflexivity.
  - apply (proj1 (proj2 (compute_95th_outcomes _ "port-1.rrd" 0%Z 300%Z))
             (mk_fetch (fd_range fetch_mixed) ["traffic"] [[Some 1]])).
    + reflexivity.
    + simpl. lia.
  - apply (proj2 (proj2 (compute_95th_outcomes _ "port-1.rrd" 0%Z 300%Z))
             fetch_mixed).
    + reflexivity.
    + simpl. lia.
    + repeat constructor.
Defined.

(** ** [get_date_range] and [get_month_label] *)

Local Open Scope Z_scope.

(** The calendar repeats every 400 years, which are 146097 days. *)
Lemma days_before_year_period (y : Z) :
  DT._days_before_year (y + 400) = DT._days_before_year y + 146097.
Proof.
  unfold DT._days_before_year. cbv zeta.
  Z.to_euclidean_division_equations. lia.
Qed.

Lemma is_leap_period (y : Z) : DT._is_leap (y + 400) = DT._is_leap y.
Proof.
  unfold DT._is_leap.
  replace ((y + 400) mod 4) with (y mod 4)
    by (Z.to_euclidean_division_equations; lia).
  replace ((y + 400) mod 100) with (y mod 100)
    by (Z.to_euclidean_division_equations; lia).
  replace ((y + 400) mod 400) with (y mod 400)
    by (Z.to_euclidean_division_equations; lia).
  reflexivity.
Qed.

Lemma ymd2ord_period (y m d : Z) :
  DT._ymd2ord (y + 400) m d = DT._ymd2ord y m d + 146097.
Proof.
  unfold DT._ymd2ord, DT._days_before_month.
  rewrite days_before_year_period, is_leap_period. lia.
Qed.

Lemma days_in_month_period (y m : Z) :
  DT._days_in_month (y + 400) m = DT._days_in_month y m.
Proof. unfold DT._days_in_month. rewrite is_leap_period. reflexivity. Qed.

Lemma ord2ymd_period (n : Z) :
  DT._ord2ymd (n + 146097)
  = (let '(y, m, d) := DT._ord2ymd n in (y + 400, m, d)).
Proof.
  unfold DT._ord2ymd. change DT._DI400Y with 146097.
  replace ((n + 146097 - 1) / 146097) with ((n - 1) / 146097 + 1)
    by (Z.to_euclidean_division_equations; lia).
  replace ((n + 146097 - 1) mod 146097) with ((n - 1) mod 146097)
    by (Z.to_euclidean_division_equations; lia).
  cbv zeta.
  destruct (_ || _); [f_equal; f_equal; lia|].
  destruct (_ <? _); f_equal; f_equal; lia.
Qed.

Ltac month_cases m :=
  let H := fresh "Hcases" in
  assert (H : m = 1 \/ m = 2 \/ m = 3 \/ m = 4 \/ m = 5 \/ m = 6
              \/ m = 7 \/ m = 8 \/ m = 9 \/ m = 10 \/ m = 11 \/ m = 12)
    by lia;
  repeat (destruct H as [H|H]; [subst m|]); [..|subst m].

Lemma days_in_month_positive (y m : Z) :
  1 <= m <= 12 -> 28 <= DT._days_in_month y m <= 31.
Proof.
  intros Hm. unfold DT._days_in_month.
  month_cases m; simpl; try lia.
  destruct (DT._is_leap y); simpl; lia.
Qed.

Lemma make_first_of_month (y m : Z) :
  1 <= y <= 9999 -> 1 <= m <= 12 ->
  DT.make y m 1 = Py.Ok (DT.mk_datetime y m 1 0 0 0 0).
Proof.
  intros Hy Hm. unfold DT.make.
  pose proof (days_in_month_positive y m Hm) as Hd.
  destruct (Z.leb_spec 1 y); [|lia].
  destruct (Z.leb_spec y 9999); [|lia].
  destruct (Z.leb_spec 1 m); [|lia].
  destruct (Z.leb_spec m 12); [|lia].
  destruct (Z.leb_spec 1 (DT._days_in_month y m)); [|lia].
  reflexivity.
Qed.

Lemma ymd2ord_first_bound (y m : Z) :
  y <= 9999 -> 1 <= m <= 12 -> DT._ymd2ord y m 1 - 1 <= DT._MAXORDINAL.
Proof.
  intros Hy Hm.
  assert (Hb : DT._days_before_year y <= 3651695).
  { unfold DT._days_before_year. cbv zeta.
    Z.to_euclidean_division_equations. lia. }
  assert (Hm' : DT._days_before_month y m <= 335).
  { unfold DT._days_before_month.
    month_cases m; simpl; destruct (DT._is_leap y); simpl; lia. }
  unfold DT._ymd2ord, DT._MAXORDINAL. lia.
Qed.

(** [first - timedelta(seconds=1)] for the first instant of a month. *)
Lemma sub_first_instant (y m : Z) :
  DT.sub (DT.mk_datetime y m 1 0 0 0 0) (DT.timedelta_seconds 1)
  = if (0 <? DT._ymd2ord y m 1 - 1)
       && (DT._ymd2ord y m 1 - 1 <=? DT._MAXORDINAL)
    then let '(y0, m0, d) := DT._ord2ymd (DT._ymd2ord y m 1 - 1) in
         Py.Ok (DT.mk_datetime y0 m0 d 23 59 59 0)
    else Py.Raise (Py.OverflowError "date value out of range").
Proof.
  unfold DT.sub, DT.add, DT.toordinal. cbn.
  replace (DT._ymd2ord y m 1 + 0 + -1 + 0) with (DT._ymd2ord y m 1 - 1) by lia.
  reflexivity.
Qed.

(** Every month of the years 1 to 401, one more than a full cycle of the
    calendar, passes the check. *)
Lemma all_months_checked_true : months_checked_from 401 1 = true.
Proof. vm_compute. reflexivity. Qed.

Lemma months_checked_from_spec (n : nat) (y0 : Z) :
  months_checked_from n y0 = true ->
  forall y m,
    y0 <= y < y0 + Z.of_nat n -> 1 <= m <= 12 ->
    last_second_before y m = true.
Proof.
  revert y0. induction n as [|n IH]; intros y0 H y m Hy Hm; [lia|].
  cbn [months_checked_from] in H. apply andb_true_iff in H.
  destruct H as [Hthis Hrest].
  destruct (Z.eq_dec y y0) as [->|N].
  - rewrite forallb_forall in Hthis. apply Hthis.
    month_cases m; simpl; tauto.
  - apply (IH (y0 + 1) Hrest); lia.
Qed.

Lemma previous_month_period (y m : Z) :
  previous_month (y + 400) m
  = (fst (previous_month y m) + 400, snd (previous_month y m)).
Proof.
  unfold previous_month. destruct (m =? 1); simpl; f_equal; lia.
Qed.

(** One second before the first instant of a month, within a cycle of
    the calendar. *)
Lemma end_of_previous_month_base (y m : Z) :
  1 <= y <= 401 -> 1 <= m <= 12 -> (y, m) <> (1, 1) ->
  DT.sub (DT.mk_datetime y m 1 0 0 0 0) (DT.timedelta_seconds 1)
  = Py.Ok (DT.mk_datetime (fst (previous_month y m)) (snd (previous_month y m))
             (DT._days_in_month (fst (previous_month y m))
                                (snd (previous_month y m)))
             23 59 59 0).
Proof.
  intros Hy Hm Hne.
  pose proof (months_checked_from_spec 401 1 all_months_checked_true y m
                ltac:(lia) Hm) as H.
  unfold last_second_before in H.
  rewrite (make_first_of_month y m ltac:(lia) Hm) in H.
  destruct (DT.sub _ _) as [t|err].
  - destruct (previous_month y m) as [py pm]. simpl fst. simpl snd.
    repeat (apply andb_true_iff in H; destruct H as [H ?]).
    repeat match goal with
           | E : (_ =? _) = true |- _ => apply Z.eqb_eq in E
           end.
    destruct t; simpl in *. subst. reflexivity.
  - exfalso. apply andb_true_iff in H. destruct H as [H1 H2].
    apply Z.eqb_eq in H1, H2. apply Hne. congruence.
Qed.

(** The same 400 years later. *)
Lemma end_of_previous_month_step (y m : Z) :
  y + 400 <= 9999 -> 1 <= m <= 12 ->
  DT.sub (DT.mk_datetime y m 1 0 0 0 0) (DT.timedelta_seconds 1)
  = Py.Ok (DT.mk_datetime (fst (previous_month y m)) (snd (previous_month y m))
             (DT._days_in_month (fst (previous_month y m))
                                (snd (previous_month y m)))
             23 59 59 0) ->
  DT.sub (DT.mk_datetime (y + 400) m 1 0 0 0 0) (DT.timedelta_seconds 1)
  = Py.Ok (DT.mk_datetime (fst (previous_month (y + 400) m))
             (snd (previous_month (y + 400) m))
             (DT._days_in_month (fst (previous_month (y + 400) m))
                                (snd (previous_month (y + 400) m)))
             23 59 59 0).
Proof.
  intros Hy Hm H. rewrite sub_first_instant in H. rewrite sub_first_instant.
  pose proof (ymd2ord_first_bound (y + 400) m Hy Hm) as Hb.
  rewrite ymd2ord_period in Hb. rewrite ymd2ord_period.
  rewrite previous_month_period. cbn [fst snd].
  rewrite days_in_month_period.
  unfold DT._MAXORDINAL in *.
  generalize dependent (DT._ymd2ord y m 1). intros ord H Hb.
  generalize dependent (previous_month y m). intros [py pm]. cbn [fst snd].
  generalize (DT._days_in_month py pm). intros dim H.
  replace (ord + 146097 - 1) with (ord - 1 + 146097) by lia.
  rewrite ord2ymd_period.
  destruct (Z.ltb_spec 0 (ord - 1)) as [Hpos|Hpos]; [|discriminate H].
  destruct (Z.leb_spec (ord - 1) 3652059) as [Hmax|Hmax]; [|discriminate H].
  cbn [andb] in H.
  destruct (Z.ltb_spec 0 (ord - 1 + 146097)); [|lia].
  destruct (Z.leb_spec (ord - 1 + 146097) 3652059); [|lia].
  cbn [andb].
  destruct (DT._ord2ymd (ord - 1)) as [[y0 m0] d0].
  injection H as -> -> ->. reflexivity.
Qed.

Lemma end_of_previous_month_upto (n : nat) (y m : Z) :
  1 <= y <= 401 + 400 * Z.of_nat n -> y <= 9999 -> 1 <= m <= 12 ->
  (y, m) <> (1, 1) ->
  DT.sub (DT.mk_datetime y m 1 0 0 0 0) (DT.timedelta_seconds 1)
  = Py.Ok (DT.mk_datetime (fst (previous_month y m)) (snd (previous_month y m))
             (DT._days_in_month (fst (previous_month y m))
                                (snd (previous_month y m)))
             23 59 59 0).
Proof.
  revert y. induction n as [|n IH]; intros y Hy Hmax Hm Hne.
  - apply end_of_previous_month_base; [lia|exact Hm|exact Hne].
  - destruct (Z_le_gt_dec y (401 + 400 * Z.of_nat n)) as [L|G].
    + apply IH; [lia|exact Hmax|exact Hm|exact Hne].
    + replace y with (y - 400 + 400) by lia.
      apply end_of_previous_month_step; [lia|exact Hm|].
      apply IH; [lia|lia|exact Hm|].
      intros E. injection E as E1 E2. lia.
Qed.

Lemma end_of_previous_month (y m : Z) :
  1 <= y <= 9999 -> 1 <= m <= 12 -> (y, m) <> (1, 1) ->
  DT.sub (DT.mk_datetime y m 1 0 0 0 0) (DT.timedelta_seconds 1)
  = Py.Ok (DT.mk_datetime (fst (previous_month y m)) (snd (previous_month y m))
             (DT._days_in_month (fst (previous_month y m))
                                (snd (previous_month y m)))
             23 59 59 0).
Proof.
  intros Hy Hm Hne.
  apply (end_of_previous_month_upto 24 y m); [lia|lia|exact Hm|exact Hne].
Qed.

Lemma previous_month_valid (y m : Z) :
  1 <= y <= 9999 -> 1 <= m <= 12 -> (y, m) <> (1, 1) ->
  1 <= fst (previous_month y m) <= 9999
  /\ 1 <= snd (previous_month y m) <= 12.
Proof.
  intros Hy Hm Hne. unfold previous_month.
  destruct (Z.eqb_spec m 1) as [->|N]; simpl; [|lia].
  assert (y <> 1) by congruence. lia.
Qed.



Lemma int_of_timestamp_after_epoch (mktime : DT.datetime -> Z)
    (t : DT.datetime) :
  0 <= mktime t -> 0 <= DT.microsecond t < 1000000 ->
  Py.int_of_float (DT.timestamp mktime t) = mktime t.
Proof.
  intros Hm Hus. unfold Py.int_of_float, DT.timestamp.
  cbn [Qnum Qden Qplus Qdiv Qmult Qinv inject_Z Z.mul Pos.mul].
  rewrite Z.mul_1_r.
  rewrite Z.quot_div_nonneg by lia.
  symmetry. apply (Z.div_unique _ _ _ (DT.microsecond t)); lia.
Qed.



(** ** [load_customer_interfaces] *)

Lemma group_rows_lookup (env : Env) (base name : string)
    (rows : list port_row) (out : list string) (d : customers_dict) :
  dict_get name (snd (group_rows env base rows out d))
  = match dict_get name d with
    | Some vs => Some (vs ++ paths_of env base name rows)
    | None =>
        match paths_of env base name rows with
        | [] => None
        | p :: ps => Some (p :: ps)
        end
    end.
Proof.
  revert out d. unfold paths_of.
  induction rows as [|r rest IH]; intros out d.
  - simpl. destruct (dict_get name d); [rewrite app_nil_r|]; reflexivity.
  - cbn [group_rows filter].
    destruct (path_exists env (rrd_path base r)); cbn [andb]; [|apply IH].
    rewrite IH.
    destruct (String.eqb_spec (cust_name_of (ifAlias r)) name) as [E|N].
    + rewrite <- E, dict_get_append_same. cbn [map].
      destruct (dict_get (cust_name_of (ifAlias r)) d).
      * rewrite <- app_assoc. reflexivity.
      * reflexivity.
    + rewrite dict_get_append_other by (intros E; apply N; symmetry; exact E).
      reflexivity.
Qed.

(** X9. The group of a customer holds exactly the RRD files of the
    directory rows that carry its name and whose file exists, in the order
    of the rows; a name without such a row has no group. *)
Theorem customer_group_contents (env : Env) (cfg : db_config)
    (base : string) (rows : list port_row) (out : list string)
    (customers : customers_dict) (name : string) :
  mysql_ports env cfg = Py.Ok rows ->
  load_customer_interfaces env cfg base = (out, Py.Ok customers) ->
  dict_get name customers
  = match paths_of env base name rows with
    | [] => None
    | p :: ps => Some (p :: ps)
    end.
Proof.
  intros Hq Hl. unfold load_customer_interfaces in Hl. rewrite Hq in Hl.
  destruct rows as [|r rest].
  - injection Hl as _ <-. reflexivity.
  - pose proof (group_rows_lookup env base name (r :: rest) [] []) as Hg.
    destruct (group_rows env base (r :: rest) [] []) as [out0 cs].
    injection Hl as _ <-. exact Hg.
Qed.

Lemma customer_group_contents_witness :
  dict_get "Acme"
    [("Acme", ["/opt/observium/rrd/edge1/port-1.rrd";
               "/opt/observium/rrd/edge1/port-2.rrd"]);
     ("Beta", ["/opt/observium/rrd/edge2/port-7.rrd"])]
  = match paths_of scenario_env "/opt/observium/rrd" "Acme" scenario_rows with
    | [] => None
    | p :: ps => Some (p :: ps)
    end.
Proof.
  apply (customer_group_contents scenario_env sample_config
           "/opt/observium/rrd" scenario_rows [] _ "Acme").
  - reflexivity.
  - vm_compute. reflexivity.
Defined.

Lemma existsb_eqb_false (k : string) (l : list string) :
  existsb (String.eqb k) l = false -> ~ In k l.
Proof.
  intros H Hin. assert (existsb (String.eqb k) l = true).
  { apply existsb_exists. exists k. split; [exact Hin|apply String.eqb_refl]. }
  congruence.
Qed.

Lemma dict_append_NoDup (k v : string) (d : customers_dict) :
  NoDup (map fst d) -> NoDup (map fst (dict_append k v d)).
Proof.
  intros H. rewrite dict_append_keys.
  destruct (existsb (String.eqb k) (map fst d)) eqn:E; [exact H|].
  apply NoDup_app; [exact H|repeat constructor; intros []|].
  intros x Hx [<-|[]]. exact (existsb_eqb_false _ _ E Hx).
Qed.

Lemma dict_append_nonempty (k v : string) (d : customers_dict) :
  Forall (fun c => snd c <> []) d ->
  Forall (fun c => snd c <> []) (dict_append k v d).
Proof.
  induction 1 as [|[k' vs] rest Hc Hrest IH]; simpl.
  - constructor; [discriminate|constructor].
  - destruct (String.eqb k' k).
    + constructor; [|exact Hrest]. simpl. destruct vs; discriminate.
    + constructor; assumption.
Qed.

Lemma group_rows_invariant (env : Env) (base : string)
    (rows : list port_row) (out : list string) (d : customers_dict) :
  NoDup (map fst d) -> Forall (fun c => snd c <> []) d ->
  NoDup (map fst (snd (group_rows env base rows out d)))
  /\ Forall (fun c => snd c <> []) (snd (group_rows env base rows out d)).
Proof.
  revert out d. induction rows as [|r rest IH]; intros out d Hk Hne.
  - split; assumption.
  - simpl. destruct (path_exists env (rrd_path base r)).
    + apply IH; [apply dict_append_NoDup|apply dict_append_nonempty];
        assumption.
    + apply IH; assumption.
Qed.

(** X10. Whatever the directory returns, the customer groups have
    pairwise distinct names and none of them is empty: a customer is
    listed once, and only if at least one of its RRD files exists. *)
Theorem customer_groups_distinct_and_nonempty (env : Env) (cfg : db_config)
    (base : string) (out : list string) (customers : customers_dict) :
  load_customer_interfaces env cfg base = (out, Py.Ok customers) ->
  NoDup (map fst customers)
  /\ Forall (fun c => snd c <> []) customers.
Proof.
  intros Hl. unfold load_customer_interfaces in Hl.
  destruct (mysql_ports env cfg) as [[|r rest]|err]; try discriminate.
  - injection Hl as _ <-. split; constructor.
  - pose proof (group_rows_invariant env base (r :: rest) [] []
                  ltac:(constructor) ltac:(constructor)) as Hg.
    destruct (group_rows env base (r :: rest) [] []) as [out0 cs].
    injection Hl as _ <-. exact Hg.
Qed.

Lemma customer_groups_distinct_and_nonempty_witness :
  NoDup (map fst
           [("Acme", ["/opt/observium/rrd/edge1/port-1.rrd";
                      "/opt/observium/rrd/edge1/port-2.rrd"]);
            ("Beta", ["/opt/observium/rrd/edge2/port-7.rrd"])])
  /\ Forall (fun c : string * list string => snd c <> [])
       [("Acme", ["/opt/observium/rrd/edge1/port-1.rrd";
                  "/opt/observium/rrd/edge1/port-2.rrd"]);
        ("Beta", ["/opt/observium/rrd/edge2/port-7.rrd"])].
Proof.
  apply (customer_groups_distinct_and_nonempty scenario_env sample_config
           "/opt/observium/rrd" []).
  vm_compute. reflexivity.
Defined.

Lemma group_rows_output (env : Env) (base : string) (rows : list port_row)
    (out : list string) (d : customers_dict) :
  fst (group_rows env base rows out d)
  = out ++ map (missing_warning base)
             (filter (fun r => negb (path_exists env (rrd_path base r))) rows).
Proof.
  revert out d. induction rows as [|r rest IH]; intros out d; simpl.
  - rewrite app_nil_r. reflexivity.
  - destruct (path_exists env (rrd_path base r)); simpl.
    + apply IH.
    + rewrite IH, <- app_assoc. reflexivity.
Qed.

Lemma dict_append_total (k v : string) (d : customers_dict) :
  List.length (concat (map snd (dict_append k v d)))
  = S (List.length (concat (map snd d))).
Proof.
  induction d as [|[k' vs] rest IH]; simpl; [reflexivity|].
  destruct (String.eqb k' k); simpl.
  - rewrite !length_app. simpl. lia.
  - rewrite !length_app, IH. lia.
Qed.

Lemma group_rows_total (env : Env) (base : string) (rows : list port_row)
    (out : list string) (d : customers_dict) :
  List.length (concat (map snd (snd (group_rows env base rows out d))))
  = (List.length (concat (map snd d))
     + List.length
         (filter (fun r => path_exists env (rrd_path base r)) rows))%nat.
Proof.
  revert out d. induction rows as [|r rest IH]; intros out d; simpl.
  - lia.
  - destruct (path_exists env (rrd_path base r)); simpl.
    + rewrite IH, dict_append_total. lia.
    + apply IH.
Qed.

Lemma filter_partition_length {A : Type} (f : A -> bool) (l : list A) :
  (List.length (filter f l) + List.length (filter (fun x => negb (f x)) l)
   = List.length l)%nat.
Proof.
  induction l as [|x l IH]; simpl; [reflexivity|].
  destruct (f x); simpl; lia.
Qed.

(** X11. Every directory row is accounted for exactly once: the rows
    without RRD file are reported, in row order, by one warning each that
    quotes the alias and the path, all other rows are filed, so the
    number of warnings and the number of filed paths add up to the
    number of rows. *)
Theorem every_row_filed_or_reported (env : Env) (cfg : db_config)
    (base : string) (rows : list port_row) (out : list string)
    (customers : customers_dict) :
  mysql_ports env cfg = Py.Ok rows ->
  rows <> [] ->
  load_customer_interfaces env cfg base = (out, Py.Ok customers) ->
  out = map (missing_warning base)
            (filter (fun r => negb (path_exists env (rrd_path base r))) rows)
  /\ (List.length out + List.length (concat (map snd customers))
      = List.length rows)%nat.
Proof.
  intros Hq Hne Hl. unfold load_customer_interfaces in Hl. rewrite Hq in Hl.
  destruct rows as [|r rest]; [congruence|].
  pose proof (group_rows_output env base (r :: rest) [] []) as Ho.
  pose proof (group_rows_total env base (r :: rest) [] []) as Ht.
  destruct (group_rows env base (r :: rest) [] []) as [out0 cs].
  injection Hl as <- <-. simpl fst in Ho. simpl snd in Ht.
  rewrite app_nil_l in Ho.
  split; [exact Ho|].
  rewrite Ho, Ht, length_map.
  change (List.length (concat (map snd (@nil (string * list string)))))
    with 0%nat.
  pose proof (filter_partition_length
                (fun r0 => path_exists env (rrd_path base r0)) (r :: rest)).
  lia.
Qed.

Lemma every_row_filed_or_reported_witness :
  ["Warning: RRD file not found for interface 'cust:  Acme ': /opt/observium/rrd/edge1/port-2.rrd"]
  = map (missing_warning "/opt/observium/rrd")
        (filter (fun r => negb (path_exists missing_file_env
                                  (rrd_path "/opt/observium/rrd" r)))
                scenario_rows)
  /\ (List.length
        ["Warning: RRD file not found for interface 'cust:  Acme ': /opt/observium/rrd/edge1/port-2.rrd"]
      + List.length
          (concat (map snd
             [("Acme", ["/opt/observium/rrd/edge1/port-1.rrd"]);
              ("Beta", ["/opt/observium/rrd/edge2/port-7.rrd"])]))
      = List.length scenario_rows)%nat.
Proof.
  apply (every_row_filed_or_reported missing_file_env sample_config
           "/opt/observium/rrd" scenario_rows).
  - reflexivity.
  - discriminate.
  - vm_compute. reflexivity.
Defined.

(** *** Names *)

Lemma lstrip_head (s : string) :
  Py.lstrip s = EmptyString
  \/ exists c t, Py.lstrip s = String c t /\ Py.isspace c = false.
Proof.
  induction s as [|c s IH]; simpl; [left; reflexivity|].
  destruct (Py.isspace c) eqn:E; [exact IH|].
  right. exists c, s. split; [reflexivity|exact E].
Qed.

Lemma rstrip_idempotent (s : string) : Py.rstrip (Py.rstrip s) = Py.rstrip s.
Proof.
  induction s as [|c s IH]; simpl; [reflexivity|].
  destruct (Py.rstrip s) as [|d t] eqn:E.
  - destruct (Py.isspace c) eqn:Ec; simpl; [reflexivity|].
    rewrite Ec. reflexivity.
  - simpl. simpl in IH. rewrite IH. reflexivity.
Qed.

Lemma rstrip_keeps_head (c : ascii) (s : string) :
  Py.isspace c = false -> exists t, Py.rstrip (String c s) = String c t.
Proof.
  intros E. simpl. destruct (Py.rstrip s) as [|d t].
  - rewrite E. exists EmptyString. reflexivity.
  - exists (String d t). reflexivity.
Qed.

Lemma strip_idempotent (s : string) : Py.strip (Py.strip s) = Py.strip s.
Proof.
  unfold Py.strip.
  destruct (lstrip_head s) as [E|[c [t [E Hc]]]]; rewrite E.
  - reflexivity.
  - destruct (rstrip_keeps_head c t Hc) as [t' E']. rewrite E'.
    simpl Py.lstrip. rewrite Hc. rewrite <- E'. apply rstrip_idempotent.
Qed.

Lemma split1_colon_free (s : string) :
  colon_free s = true -> Py.split1 ":" s = [s].
Proof.
  induction s as [|c s IH]; simpl; intros H; [reflexivity|].
  apply andb_true_iff in H. destruct H as [Hc Hs].
  apply negb_true_iff in Hc. rewrite Hc, (IH Hs). reflexivity.
Qed.

Lemma split1_shape (s : string) :
  (colon_free s = true /\ Py.split1 ":" s = [s])
  \/ exists pre post,
       colon_free pre = true /\ s = (pre ++ String ":" post)%string
       /\ Py.split1 ":" s = [pre; post].
Proof.
  induction s as [|c s IH]; simpl.
  - left. split; reflexivity.
  - destruct (Ascii.eqb c ":") eqn:Ec.
    + right. exists EmptyString, s. apply Ascii.eqb_eq in Ec. subst c.
      repeat split.
    + simpl. destruct IH as [[Hf Hs]|[pre [post [Hf [Hs Hsp]]]]].
      * left. rewrite Hf, Hs. split; reflexivity.
      * right. exists (String c pre), post. simpl. rewrite Ec, Hf, Hsp.
        repeat split. rewrite Hs at 1. reflexivity.
Qed.

(** X12. The customer name derived from an alias never carries leading
    or trailing whitespace (stripping it again changes nothing), so two
    groups cannot differ by surrounding blanks only; an alias without any
    colon is filed under "Unknown", and an alias with a colon under the
    stripped text after its first colon. *)
Theorem customer_name_is_stripped (alias : string) :
  Py.strip (cust_name_of alias) = cust_name_of alias
  /\ (colon_free alias = true -> cust_name_of alias = "Unknown"%string)
  /\ (forall pre post,
        colon_free pre = true ->
        alias = (pre ++ String ":" post)%string ->
        cust_name_of alias = Py.strip post).
Proof.
  split; [|split].
  - unfold cust_name_of.
    destruct (split1_shape alias) as [[_ Hs]|[pre [post [_ [_ Hs]]]]];
      rewrite Hs; simpl.
    + reflexivity.
    + apply strip_idempotent.
  - intros H. unfold cust_name_of. rewrite (split1_colon_free alias H).
    reflexivity.
  - intros pre post Hf ->. apply cust_name_after_first_colon. exact Hf.
Qed.

Lemma customer_name_is_stripped_witness :
  cust_name_of "GigabitEthernet0/1" = "Unknown"%string
  /\ cust_name_of "Cust: Beta Networks : core " = "Beta Networks : core"%string.
Proof.
  split.
  - apply (proj1 (proj2 (customer_name_is_stripped "GigabitEthernet0/1"))).
    reflexivity.
  - apply (proj2 (proj2 (customer_name_is_stripped
                           "Cust: Beta Networks : core "))
             "Cust"%string " Beta Networks : core "%string).
    + reflexivity.
    + reflexivity.
Defined.

(** ** [main] *)

Lemma collect_samples_output (env : Env) (s e : Z) (rrd_list : list string)
    (out : list string) (acc : list Q) :
  fst (collect_samples env s e rrd_list out acc)
  = out ++ error_lines env s e rrd_list.
Proof.
  revert out acc. induction rrd_list as [|rrd rest IH]; intros out acc; simpl.
  - rewrite app_nil_r. reflexivity.
  - destruct (compute_95th env rrd s e) as [v|err].
    + apply IH.
    + rewrite IH, <- app_assoc. reflexivity.
Qed.

Lemma bill_customers_output (env : Env) (s e : Z) (customers : customers_dict)
    (out : list string) (results : list (string * Q)) (lines : list string) :
  fst (fst (bill_customers env s e customers out results lines))
  = out ++ concat (map (fun c => error_lines env s e (snd c)) customers).
Proof.
  revert out results lines.
  induction customers as [|[name rrds] rest IH]; intros out results lines;
    simpl.
  - rewrite app_nil_r. reflexivity.
  - pose proof (collect_samples_output env s e rrds out []) as Hc.
    destruct (collect_samples env s e rrds out []) as [out' samples].
    simpl in Hc. subst out'. rewrite IH, <- app_assoc. reflexivity.
Qed.

(** X13. A run with customer groups prints, after the warnings of the
    directory, one error line per RRD file that could not be read, in
    the order of the customers and their files.  The report comes last
    on the output when no recipient is given; with a recipient it is not
    printed but mailed, as the body of one message, and the body is the
    very text that would have been printed.  An empty recipient counts
    as none. *)
Theorem report_printed_or_mailed (args : Args) (env : Env)
    (out : list string) (customers : customers_dict) (to_addr : string) :
  discovered args env = Some (out, customers) ->
  customers <> [] ->
  to_addr <> EmptyString ->
  (forall subject body, send_email env to_addr subject body = None) ->
  exists s e label body,
    get_date_range (now env 0%nat) (mktime env) (prev args) = Py.Ok (s, e)
    /\ get_month_label (now env 1%nat) (prev args) = Py.Ok label
    /\ main (with_email args (Some to_addr)) env
       = mk_outcome
           (out ++ concat (map (fun c => error_lines env s e (snd c))
                               customers))
           [(to_addr, report_subject label, body)] None 0
    /\ main (with_email args None) env
       = mk_outcome
           ((out ++ concat (map (fun c => error_lines env s e (snd c))
                                customers))
              ++ [body])
           [] None 0
    /\ main (with_email args (Some EmptyString)) env
       = main (with_email args None) env.
Proof.
  intros Hd Hne Hto Hsend.
  destruct (main_after_discovery (with_email args (Some to_addr)) env out
              customers Hd) as [s [e [label [Hr [Hl Hm1]]]]].
  destruct (main_after_discovery (with_email args None) env out
              customers Hd) as [s' [e' [label' [Hr' [Hl' Hm2]]]]].
  cbn [with_email prev] in Hr, Hl, Hr', Hl'.
  rewrite Hr in Hr'. rewrite Hl in Hl'.
  injection Hr' as <- <-. injection Hl' as <-.
  destruct customers as [|c cs]; [congruence|].
  pose proof (bill_customers_output env s e (c :: cs) out [] []) as Ho.
  destruct (bill_customers env s e (c :: cs) out [] []) as [[out' res] lines].
  simpl fst in Ho. subst out'.
  exists s, e, label, (build_report label lines).
  split; [exact Hr|]. split; [exact Hl|].
  split; [|split].
  - rewrite Hm1. cbv beta iota zeta.
    assert (Eg : email_given (with_email args (Some to_addr)) = Some to_addr)
      by (destruct to_addr; [congruence|reflexivity]).
    rewrite Eg, Hsend. reflexivity.
  - rewrite Hm2. reflexivity.
  - reflexivity.
Qed.

Lemma report_printed_or_mailed_witness :
  exists s e label body,
    get_date_range (now scenario_env 0%nat) (mktime scenario_env)
      (prev sample_args) = Py.Ok (s, e)
    /\ get_month_label (now scenario_env 1%nat) (prev sample_args)
       = Py.Ok label
    /\ main (with_email sample_args (Some "noc@example.net"%string))
         scenario_env
       = mk_outcome
           ([] ++ concat (map (fun c => error_lines scenario_env s e (snd c))
                   [("Acme"%string,
                     ["/opt/observium/rrd/edge1/port-1.rrd"%string;
                      "/opt/observium/rrd/edge1/port-2.rrd"%string]);
                    ("Beta"%string,
                     ["/opt/observium/rrd/edge2/port-7.rrd"%string])]))
           [("noc@example.net"%string, report_subject label, body)] None 0
    /\ main (with_email sample_args None) scenario_env
       = mk_outcome
           (([] ++ concat (map (fun c => error_lines scenario_env s e (snd c))
                   [("Acme"%string,
                     ["/opt/observium/rrd/edge1/port-1.rrd"%string;
                      "/opt/observium/rrd/edge1/port-2.rrd"%string]);
                    ("Beta"%string,
                     ["/opt/observium/rrd/edge2/port-7.rrd"%string])]))
              ++ [body])
           [] None 0
    /\ main (with_email sample_args (Some EmptyString)) scenario_env
       = main (with_email sample_args None) scenario_env.
Proof.
  apply (report_printed_or_mailed sample_args scenario_env []
           _ "noc@example.net"%string).
  - vm_compute. reflexivity.
  - discriminate.
  - discriminate.
  - reflexivity.
Defined.

(** X14. When the mail server refuses the message the report is lost: it
    is neither printed nor recorded as sent, only the warnings and error
    lines have been printed, and the run ends with the exception of the
    delivery and exit code 1. *)
Theorem failed_delivery_loses_report (args : Args) (env : Env)
    (out : list string) (customers : customers_dict) (to_addr : string)
    (err : Py.exn) :
  discovered args env = Some (out, customers) ->
  customers <> [] ->
  email_given args = Some to_addr ->
  (forall subject body, send_email env to_addr subject body = Some err) ->
  exists s e,
    get_date_range (now env 0%nat) (mktime env) (prev args) = Py.Ok (s, e)
    /\ main args env
       = mk_outcome
           (out ++ concat (map (fun c => error_lines env s e (snd c))
                               customers))
           [] (Some err) 1.
Proof.
  intros Hd Hne Hto Hsend.
  destruct (main_after_discovery args env out customers Hd)
    as [s [e [label [Hr [Hl Hm]]]]].
  destruct customers as [|c cs]; [congruence|].
  pose proof (bill_customers_output env s e (c :: cs) out [] []) as Ho.
  destruct (bill_customers env s e (c :: cs) out [] []) as [[out' res] lines].
  simpl fst in Ho. subst out'.
  exists s, e. split; [exact Hr|].
  rewrite Hm. cbv beta iota zeta. rewrite Hto, Hsend. reflexivity.
Qed.

Lemma failed_delivery_loses_report_witness :
  exists s e,
    get_date_range (now refusing_env 0%nat) (mktime refusing_env)
      (prev (with_email sample_args (Some "noc@example.net"%string)))
    = Py.Ok (s, e)
    /\ main (with_email sample_args (Some "noc@example.net"%string))
         refusing_env
       = mk_outcome
           ([] ++ concat (map (fun c => error_lines refusing_env s e (snd c))
                   [("Acme"%string,
                     ["/opt/observium/rrd/edge1/port-1.rrd"%string;
                      "/opt/observium/rrd/edge1/port-2.rrd"%string]);
                    ("Beta"%string,
                     ["/opt/observium/rrd/edge2/port-7.rrd"%string])]))
           [] (Some (Py.LibraryError "connection refused")) 1.
Proof.
  apply (failed_delivery_loses_report
           (with_email sample_args (Some "noc@example.net"%string))
           refusing_env [] _ "noc@example.net"%string).
  - vm_compute. reflexivity.
  - discriminate.
  - reflexivity.
  - reflexivity.
Defined.

(** X15. A failure to load the configuration or to query the directory
    ends the run at once: nothing has been printed, nothing is mailed,
    the exception is the one raised there and the exit code is 1. *)
Theorem early_failure_is_fatal (args : Args) (env : Env)
    (range : Z * Z) (label : string) (err : Py.exn) :
  get_date_range (now env 0%nat) (mktime env) (prev args) = Py.Ok range ->
  get_month_label (now env 1%nat) (prev args) = Py.Ok label ->
  load_observium_db_config env (observium_config args) = Py.Raise err
  \/ (exists cfg,
        load_observium_db_config env (observium_config args) = Py.Ok cfg
        /\ mysql_ports env cfg = Py.Raise err) ->
  main args env = mk_outcome [] [] (Some err) 1.
Proof.
  intros Hr Hl H. unfold main. rewrite Hr, Hl. destruct range as [s e].
  destruct H as [Hc|[cfg [Hc Hq]]]; rewrite Hc; [reflexivity|].
  unfold load_customer_interfaces. rewrite Hq. reflexivity.
Qed.

Lemma early_failure_is_fatal_witness :
  main sample_args unreadable_config_env
  = mk_outcome [] [] (Some (Py.LibraryError "no such file")) 1.
Proof.
  apply (early_failure_is_fatal sample_args unreadable_config_env
           (1754006400, 1756684799) "August 2025"%string).
  - vm_compute. reflexivity.
  - reflexivity.
  - left. reflexivity.
Defined.

(** *** The figure billed to a customer *)

Lemma billed_figure_computed (env : Env) (s e : Z) (rrd_list : list string) :
  billed_figure env s e rrd_list
  = val_95_of (computed_percentiles env s e rrd_list).
Proof.
  unfold billed_figure. rewrite collect_samples_values. reflexivity.
Qed.

(** The billing results pair every customer with its billed figure. *)
Lemma bill_customers_figures (env : Env) (s e : Z)
    (customers : customers_dict) (out : list string) :
  snd (fst (bill_customers env s e customers out [] []))
  = map (fun c => (fst c, billed_figure env s e (snd c))) customers.
Proof.
  rewrite bill_customers_results. simpl app.
  apply map_ext. intros c. rewrite billed_figure_computed. reflexivity.
Qed.

Lemma computed_percentiles_app (env : Env) (s e : Z) (l1 l2 : list string) :
  computed_percentiles env s e (l1 ++ l2)
  = computed_percentiles env s e l1 ++ computed_percentiles env s e l2.
Proof.
  induction l1 as [|rrd l1 IH]; simpl; [reflexivity|].
  destruct (compute_95th env rrd s e); simpl; rewrite IH; reflexivity.
Qed.

Lemma computed_percentiles_perm (env : Env) (s e : Z) (l l' : list string) :
  Permutation l l' ->
  Permutation (computed_percentiles env s e l)
              (computed_percentiles env s e l').
Proof.
  induction 1 as [|x l l' _ IH|x y l|l l' l'' _ IH1 _ IH2]; simpl.
  - constructor.
  - destruct (compute_95th env x s e); [constructor|]; exact IH.
  - destruct (compute_95th env x s e), (compute_95th env y s e);
      try reflexivity. constructor.
  - etransitivity; eassumption.
Qed.

Lemma val_95_of_maximum (l : list Q) :
  l <> [] -> is_maximum l (val_95_of l).
Proof.
  destruct l as [|x l]; [congruence|]. intros _. apply max_from_maximum.
Qed.

Lemma val_95_of_incl (l l' : list Q) :
  l <> [] -> incl l l' -> (val_95_of l <= val_95_of l')%Q.
Proof.
  intros Hne Hincl.
  assert (Hne' : l' <> []).
  { destruct l as [|x l]; [congruence|]. intros ->.
    apply (Hincl x). left; reflexivity. }
  destruct (val_95_of_maximum l Hne) as [Hin _].
  destruct (val_95_of_maximum l' Hne') as [_ Hub].
  apply Hub. apply Hincl. exact Hin.
Qed.



(** X17. An interface whose RRD cannot be read leaves the figure of its
    customer as it would be without that interface. *)
Theorem unreadable_interface_is_neutral (env : Env) (s e : Z)
    (before after : list string) (rrd : string) (err : Py.exn) :
  compute_95th env rrd s e = Py.Raise err ->
  billed_figure env s e (before ++ rrd :: after)
  = billed_figure env s e (before ++ after).
Proof.
  intros Hbad. rewrite !billed_figure_computed, !computed_percentiles_app.
  simpl. rewrite Hbad. reflexivity.
Qed.

Lemma unreadable_interface_is_neutral_witness :
  billed_figure scenario_env 0 300
    (["/opt/observium/rrd/edge1/port-1.rrd"%string]
       ++ "/opt/observium/rrd/edge2/port-7.rrd"%string
       :: ["/opt/observium/rrd/edge1/port-2.rrd"%string])
  = billed_figure scenario_env 0 300
      (["/opt/observium/rrd/edge1/port-1.rrd"%string]
         ++ ["/opt/observium/rrd/edge1/port-2.rrd"%string]).
Proof.
  apply (unreadable_interface_is_neutral scenario_env 0 300 _ _ _
           (Py.LibraryError "could not read the RRD")).
  reflexivity.
Defined.



(** ** [load_observium_db_config] *)

Local Open Scope string_scope.

Lemma string_append_nil_r (s : string) : s ++ "" = s.
Proof. induction s as [|c s IH]; simpl; [reflexivity|rewrite IH; reflexivity]. Qed.

Lemma strip_prefix_app (p r : string) : strip_prefix p (p ++ r) = Some r.
Proof.
  induction p as [|a p IH]; simpl; [reflexivity|].
  rewrite Ascii.eqb_refl. exact IH.
Qed.

Lemma strip_prefix_inv (p s r : string) :
  strip_prefix p s = Some r -> s = p ++ r.
Proof.
  revert s. induction p as [|a p IH]; intros s H; simpl in H.
  - injection H as ->. reflexivity.
  - destruct s as [|b s]; [discriminate|].
    destruct (Ascii.eqb_spec a b) as [->|N]; [|discriminate].
    simpl. rewrite (IH s H). reflexivity.
Qed.

Lemma lstrip_inv (s : string) :
  exists ws, s = ws ++ Py.lstrip s /\ all_space ws = true.
Proof.
  induction s as [|c s [ws [E Hws]]]; simpl.
  - exists "". split; reflexivity.
  - destruct (Py.isspace c) eqn:Ec.
    + exists (String c ws). simpl. rewrite Ec, Hws, <- E. split; reflexivity.
    + exists "". split; reflexivity.
Qed.

Lemma take_unquoted_inv (s v r : string) :
  take_unquoted s = (v, r) ->
  s = v ++ r /\ quote_free v = true
  /\ (r = "" \/ exists r', r = String "'" r').
Proof.
  revert v r. induction s as [|c s IH]; intros v r H; simpl in H.
  - injection H as <- <-. repeat split. left; reflexivity.
  - destruct (Ascii.eqb_spec c "'") as [->|N].
    + injection H as <- <-. repeat split. right. exists s. reflexivity.
    + destruct (take_unquoted s) as [v0 r0].
      injection H as <- <-.
      destruct (IH v0 r0 eq_refl) as [E [Hq Hr]].
      apply Ascii.eqb_neq in N.
      simpl. rewrite N, Hq, <- E. repeat split. exact Hr.
Qed.

Lemma take_unquoted_app (v r : string) :
  quote_free v = true ->
  take_unquoted (v ++ String "'" r) = (v, String "'" r).
Proof.
  induction v as [|c v IH]; simpl; intros H; [reflexivity|].
  apply andb_true_iff in H. destruct H as [Hc Hv].
  apply negb_true_iff in Hc. rewrite Hc, (IH Hv). reflexivity.
Qed.

Lemma search_setting_unfold (key s : string) :
  search_setting key s
  = match match_setting key s with
    | Some v => Some v
    | None =>
        match s with
        | EmptyString => None
        | String _ s' => search_setting key s'
        end
    end.
Proof. destruct s; reflexivity. Qed.

(** A match starts with a dollar sign. *)
Lemma match_setting_first (key : string) (c : ascii) (s : string) :
  Ascii.eqb c "$" = false -> match_setting key (String c s) = None.
Proof.
  intros H. unfold match_setting, setting_literal.
  cbn [String.append strip_prefix].
  rewrite Ascii.eqb_sym in H. rewrite H. reflexivity.
Qed.

Lemma search_skip_dollar_free (key pre s : string) :
  dollar_free pre = true ->
  search_setting key (pre ++ s) = search_setting key s.
Proof.
  induction pre as [|c pre IH]; simpl; intros H; [reflexivity|].
  apply andb_true_iff in H. destruct H as [Hc Hpre].
  apply negb_true_iff in Hc.
  rewrite (match_setting_first key c _ Hc). exact (IH Hpre).
Qed.

(** Two texts that agree up to their first quote. *)
Lemma strip_prefix_quoted (a b w r x : string) :
  quote_free a = true -> quote_free w = true ->
  strip_prefix (a ++ String "'" b) (w ++ String "'" r) = Some x ->
  a = w /\ strip_prefix b r = Some x.
Proof.
  revert w. induction a as [|c a IH]; intros w Ha Hw H.
  - destruct w as [|d w]; cbn [String.append strip_prefix] in H.
    + rewrite Ascii.eqb_refl in H. split; [reflexivity|exact H].
    + simpl in Hw. apply andb_true_iff in Hw. destruct Hw as [Hd _].
      apply negb_true_iff in Hd. rewrite Ascii.eqb_sym in Hd.
      rewrite Hd in H. discriminate.
  - simpl in Ha. apply andb_true_iff in Ha. destruct Ha as [Hc Ha].
    apply negb_true_iff in Hc.
    destruct w as [|d w]; cbn [String.append strip_prefix] in H.
    + rewrite Hc in H. discriminate.
    + simpl in Hw. apply andb_true_iff in Hw. destruct Hw as [_ Hw].
      destruct (Ascii.eqb_spec c d) as [->|N]; [|discriminate].
      destruct (IH w Ha Hw H) as [-> Hx]. split; [reflexivity|exact Hx].
Qed.

Lemma plain_quote_free (s : string) : plain s = true -> quote_free s = true.
Proof.
  induction s as [|c s IH]; simpl; intros H; [reflexivity|].
  repeat (apply andb_true_iff in H; destruct H as [H ?]).
  rewrite H, IH by assumption. reflexivity.
Qed.

Lemma plain_dollar_free (s : string) : plain s = true -> dollar_free s = true.
Proof.
  induction s as [|c s IH]; simpl; intros H; [reflexivity|].
  repeat (apply andb_true_iff in H; destruct H as [H ?]).
  rewrite IH by assumption.
  match goal with E : negb (Ascii.eqb c "$") = true |- _ => rewrite E end.
  reflexivity.
Qed.

Lemma strip_prefix_semicolon (key t : string) :
  plain key = true -> strip_prefix (key ++ "']") (String ";" t) = None.
Proof.
  destruct key as [|c key]; simpl; intros H; [reflexivity|].
  repeat (apply andb_true_iff in H; destruct H as [H ?]).
  match goal with
  | E : negb (Ascii.eqb c ";") = true |- _ =>
      apply negb_true_iff in E; rewrite E
  end.
  reflexivity.
Qed.

(** No match starts inside the value of a setting. *)
Lemma match_setting_in_value (key w s : string) :
  plain key = true -> quote_free w = true ->
  match_setting key (w ++ String "'" (String ";" s)) = None.
Proof.
  intros Hk Hw. unfold match_setting.
  destruct (strip_prefix (setting_literal key)
              (w ++ String "'" (String ";" s))) as [r1|] eqn:E;
    [|reflexivity].
  exfalso.
  change (setting_literal key)
    with ("$config[" ++ String "'" (key ++ "']")) in E.
  destruct (strip_prefix_quoted "$config[" _ _ _ _ eq_refl Hw E) as [_ E'].
  rewrite (strip_prefix_semicolon key s Hk) in E'. discriminate.
Qed.

Lemma search_skip_value (key v s : string) :
  plain key = true -> quote_free v = true ->
  search_setting key (v ++ String "'" (String ";" s))
  = search_setting key (String "'" (String ";" s)).
Proof.
  intros Hk. induction v as [|c v IH]; intros Hv; [reflexivity|].
  rewrite search_setting_unfold.
  rewrite (match_setting_in_value key (String c v) s Hk Hv).
  simpl in Hv. apply andb_true_iff in Hv. destruct Hv as [_ Hv].
  simpl. exact (IH Hv).
Qed.

(** The text after the dollar sign of a setting line holds no match. *)
Lemma search_skip_line_tail (key k v s : string) :
  plain key = true -> plain k = true -> quote_free v = true ->
  search_setting key (("config['" ++ k ++ "'] = '" ++ v ++ "';" ++ newline)
                        ++ s)
  = search_setting key s.
Proof.
  intros Hkey Hk Hv.
  replace (("config['" ++ k ++ "'] = '" ++ v ++ "';" ++ newline) ++ s)
    with (("config['" ++ k ++ "'] = '")
            ++ (v ++ String "'" (String ";" (newline ++ s))))
    by (rewrite !string_append_assoc; reflexivity).
  rewrite search_skip_dollar_free.
  - rewrite (search_skip_value key v _ Hkey Hv).
    apply (search_skip_dollar_free key ("';" ++ newline) s). reflexivity.
  - simpl. clear - Hk. apply plain_dollar_free in Hk.
    induction k as [|c k IH]; simpl in *; [reflexivity|].
    apply andb_true_iff in Hk. destruct Hk as [Hc Hk].
    rewrite Hc. exact (IH Hk).
Qed.

(** A line that sets another key is passed over. *)
Lemma search_skip_line (key k v s : string) :
  plain key = true -> plain k = true -> key <> k -> quote_free v = true ->
  search_setting key (setting_line k v ++ s) = search_setting key s.
Proof.
  intros Hkey Hk Hne Hv.
  rewrite search_setting_unfold.
  assert (Hm : match_setting key (setting_line k v ++ s) = None).
  { unfold match_setting.
    destruct (strip_prefix (setting_literal key) (setting_line k v ++ s))
      as [r1|] eqn:E; [|reflexivity].
    exfalso.
    change (setting_literal key)
      with ("$config[" ++ String "'" (key ++ String "'" "]")) in E.
    change (setting_line k v ++ s)
      with ("$config["
              ++ String "'" ((k ++ "'] = '" ++ v ++ "';" ++ newline) ++ s))
      in E.
    destruct (strip_prefix_quoted "$config[" _ "$config[" _ _
                eq_refl eq_refl E) as [_ E1].
    rewrite string_append_assoc in E1.
    destruct (strip_prefix_quoted key "]" k
                (("] = '" ++ v ++ "';" ++ newline) ++ s) r1
                (plain_quote_free _ Hkey) (plain_quote_free _ Hk) E1)
      as [E2 _].
    exact (Hne E2). }
  rewrite Hm.
  change (setting_line k v ++ s)
    with (String "$"
            (("config['" ++ k ++ "'] = '" ++ v ++ "';" ++ newline) ++ s)).
  apply search_skip_line_tail; assumption.
Qed.

Lemma setting_line_split (key v s : string) :
  setting_line key v ++ s
  = setting_literal key
      ++ (" = '" ++ (v ++ String "'" (String ";" (newline ++ s)))).
Proof.
  unfold setting_line, setting_literal.
  rewrite !string_append_assoc. reflexivity.
Qed.

(** At the start of the line that sets it, a setting with a non-empty
    value is matched, and one with an empty value is not. *)
Lemma match_setting_line (key v s : string) :
  quote_free v = true ->
  match_setting key (setting_line key v ++ s) = found v.
Proof.
  intros Hv. rewrite setting_line_split. unfold match_setting.
  rewrite strip_prefix_app.
  change (Py.lstrip (" = '" ++ (v ++ String "'" (String ";" (newline ++ s)))))
    with (String "=" (" '" ++ (v ++ String "'" (String ";" (newline ++ s))))).
  cbv beta iota.
  change (negb (Ascii.eqb "=" "=")) with false. cbv iota.
  change (Py.lstrip (" '" ++ (v ++ String "'" (String ";" (newline ++ s)))))
    with (String "'" (v ++ String "'" (String ";" (newline ++ s)))).
  cbv beta iota.
  change (negb (Ascii.eqb "'" "'")) with false. cbv iota.
  rewrite (take_unquoted_app v _ Hv).
  destruct v; reflexivity.
Qed.

Lemma search_own_line (key v s : string) :
  plain key = true -> quote_free v = true ->
  search_setting key (setting_line key v ++ s)
  = match found v with
    | Some x => Some x
    | None => search_setting key s
    end.
Proof.
  intros Hk Hv. rewrite search_setting_unfold, (match_setting_line key v s Hv).
  destruct v as [|c v]; [|reflexivity].
  cbn [found].
  change (setting_line key "" ++ s)
    with (String "$"
            (("config['" ++ key ++ "'] = '" ++ "" ++ "';" ++ newline) ++ s)).
  apply search_skip_line_tail; [exact Hk|exact Hk|reflexivity].
Qed.

Lemma search_nothing (key : string) : search_setting key "" = None.
Proof.
  rewrite search_setting_unfold. unfold match_setting, setting_literal.
  reflexivity.
Qed.

Lemma found_some (v : string) :
  v <> "" -> found v = Some v.
Proof. destruct v; [congruence|reflexivity]. Qed.

Ltac skip_lines :=
  repeat first
    [ rewrite search_skip_line by (reflexivity || assumption || discriminate)
    | rewrite search_nothing ].

(** What the four searches find in a rendered configuration followed by
    any text. *)
Lemma search_rendered (c : db_config) (rest : string) :
  quote_free (db_host c) = true -> quote_free (db_user c) = true ->
  quote_free (db_password c) = true -> quote_free (db_database c) = true ->
  search_setting "db_host" (render_observium_config c ++ rest)
  = match found (db_host c) with
    | Some x => Some x
    | None => search_setting "db_host" rest
    end
  /\ search_setting "db_user" (render_observium_config c ++ rest)
     = match found (db_user c) with
       | Some x => Some x
       | None => search_setting "db_user" rest
       end
  /\ search_setting "db_pass" (render_observium_config c ++ rest)
     = match found (db_password c) with
       | Some x => Some x
       | None => search_setting "db_pass" rest
       end
  /\ search_setting "db_name" (render_observium_config c ++ rest)
     = match found (db_database c) with
       | Some x => Some x
       | None => search_setting "db_name" rest
       end.
Proof.
  intros Hh Hu Hp Hn. unfold render_observium_config.
  rewrite !string_append_assoc.
  assert (Hpre : forall key s,
             search_setting key ("<?php" ++ newline ++ s)
             = search_setting key s).
  { intros key s.
    apply (search_skip_dollar_free key ("<?php" ++ newline) s). reflexivity. }
  rewrite !Hpre.
  repeat split.
  - rewrite search_own_line by (reflexivity || assumption).
    destruct (found (db_host c)); [reflexivity|]. skip_lines. reflexivity.
  - skip_lines. rewrite search_own_line by (reflexivity || assumption).
    destruct (found (db_user c)); [reflexivity|]. skip_lines. reflexivity.
  - skip_lines. rewrite search_own_line by (reflexivity || assumption).
    destruct (found (db_password c)); [reflexivity|]. skip_lines. reflexivity.
  - skip_lines. rewrite search_own_line by (reflexivity || assumption).
    reflexivity.
Qed.

(** X19. Scanning reads back what a configuration file sets: a file
    with the four lines [$config['db_...'] = '...';], whose values are
    non-empty and free of single quotes, yields exactly these four values,
    whatever text follows the lines. *)
Theorem scan_reads_rendered_config (c : db_config) (rest : string) :
  quote_free (db_host c) = true -> db_host c <> "" ->
  quote_free (db_user c) = true -> db_user c <> "" ->
  quote_free (db_password c) = true -> db_password c <> "" ->
  quote_free (db_database c) = true -> db_database c <> "" ->
  scan_observium_config (render_observium_config c ++ rest) = Some c.
Proof.
  intros Hh Hh' Hu Hu' Hp Hp' Hn Hn'.
  destruct (search_rendered c rest Hh Hu Hp Hn) as [E1 [E2 [E3 E4]]].
  unfold scan_observium_config.
  rewrite E1, E2, E3, E4, !found_some by assumption.
  destruct c; reflexivity.
Qed.

Lemma scan_reads_rendered_config_witness :
  scan_observium_config
    (render_observium_config sample_config
       ++ "$config['db_host'] = 'elsewhere';")
  = Some sample_config.
Proof.
  apply (scan_reads_rendered_config sample_config
           "$config['db_host'] = 'elsewhere';");
    (reflexivity || discriminate).
Defined.

(** X20. A setting with an empty value is not recognised: when the file
    sets the password to [''] and nothing follows its four lines, the
    scan fails (the script stops with the [AttributeError] of
    [.group(1)]). *)
Theorem empty_value_is_not_recognised (c : db_config) :
  quote_free (db_host c) = true -> quote_free (db_user c) = true ->
  quote_free (db_database c) = true ->
  db_password c = "" ->
  scan_observium_config (render_observium_config c) = None.
Proof.
  intros Hh Hu Hn Hp.
  destruct (search_rendered c "" Hh Hu ltac:(rewrite Hp; reflexivity) Hn)
    as [_ [_ [E3 _]]].
  rewrite string_append_nil_r in E3.
  unfold scan_observium_config. rewrite E3, Hp. cbn [found].
  rewrite search_nothing.
  destruct (search_setting "db_host" _); [|reflexivity].
  destruct (search_setting "db_user" _); reflexivity.
Qed.

Lemma empty_value_is_not_recognised_witness :
  scan_observium_config
    (render_observium_config
       (mk_db_config "localhost" "observium" "" "observium"))
  = None.
Proof.
  apply (empty_value_is_not_recognised
           (mk_db_config "localhost" "observium" "" "observium"));
    reflexivity.
Defined.

Lemma match_setting_inv (key s v : string) :
  match_setting key s = Some v ->
  v <> "" /\ quote_free v = true
  /\ exists ws1 ws2 post,
       all_space ws1 = true /\ all_space ws2 = true
       /\ s = setting_literal key ++ ws1 ++ "=" ++ ws2 ++ "'" ++ v ++ "'"
               ++ post.
Proof.
  unfold match_setting. intros H.
  destruct (strip_prefix (setting_literal key) s) as [r1|] eqn:E1;
    [|discriminate].
  apply strip_prefix_inv in E1.
  destruct (lstrip_inv r1) as [ws1 [Er1 Hws1]].
  destruct (Py.lstrip r1) as [|c1 r2]; [discriminate|].
  destruct (Ascii.eqb_spec c1 "=") as [->|N]; [|discriminate].
  cbn [negb] in H.
  destruct (lstrip_inv r2) as [ws2 [Er2 Hws2]].
  destruct (Py.lstrip r2) as [|c2 r3]; [discriminate|].
  destruct (Ascii.eqb_spec c2 "'") as [->|N]; [|discriminate].
  cbn [negb] in H.
  destruct (take_unquoted r3) as [v0 r4] eqn:E3.
  destruct (take_unquoted_inv r3 v0 r4 E3) as [Er3 [Hq Hr4]].
  destruct v0 as [|c v0]; [discriminate|].
  destruct r4 as [|d r4]; [discriminate|].
  injection H as <-.
  destruct Hr4 as [Hr4|[r' Hr4]]; [discriminate|].
  injection Hr4 as -> ->.
  split; [discriminate|]. split; [exact Hq|].
  exists ws1, ws2, r'. split; [exact Hws1|]. split; [exact Hws2|].
  rewrite E1, Er1, Er2, Er3. simpl. reflexivity.
Qed.

(** X21. What a search returns really is set in the text: the value is
    non-empty, holds no single quote, and the text contains the literal
    [$config['KEY']], optional whitespace, an equals sign, optional
    whitespace, and the value between single quotes. *)
Theorem search_finds_a_setting (key content v : string) :
  search_setting key content = Some v ->
  v <> "" /\ quote_free v = true
  /\ exists pre ws1 ws2 post,
       all_space ws1 = true /\ all_space ws2 = true
       /\ content = pre ++ setting_literal key ++ ws1 ++ "=" ++ ws2
                      ++ "'" ++ v ++ "'" ++ post.
Proof.
  induction content as [|c content IH]; intros H;
    rewrite search_setting_unfold in H.
  - destruct (match_setting key "") as [x|] eqn:E; [|discriminate].
    injection H as ->.
    destruct (match_setting_inv _ _ _ E) as [H1 [H2 [ws1 [ws2 [post H3]]]]].
    split; [exact H1|]. split; [exact H2|].
    exists "", ws1, ws2, post. exact H3.
  - destruct (match_setting key (String c content)) as [x|] eqn:E.
    + injection H as ->.
      destruct (match_setting_inv _ _ _ E) as [H1 [H2 [ws1 [ws2 [post H3]]]]].
      split; [exact H1|]. split; [exact H2|].
      exists "", ws1, ws2, post. exact H3.
    + destruct (IH H) as [H1 [H2 [pre [ws1 [ws2 [post [H3 [H4 H5]]]]]]]].
      split; [exact H1|]. split; [exact H2|].
      exists (String c pre), ws1, ws2, post.
      split; [exact H3|]. split; [exact H4|].
      simpl. rewrite H5. reflexivity.
Qed.

Lemma search_finds_a_setting_witness :
  "a$b c" <> "" /\ quote_free "a$b c" = true
  /\ exists pre ws1 ws2 post,
       all_space ws1 = true /\ all_space ws2 = true
       /\ ("<?php $config['db_pass']  ='a$b c'; // $config['db_pass'] = 'x';")
          = pre ++ setting_literal "db_pass" ++ ws1 ++ "=" ++ ws2
                ++ "'" ++ "a$b c" ++ "'" ++ post.
Proof.
  apply (search_finds_a_setting "db_pass"
           "<?php $config['db_pass']  ='a$b c'; // $config['db_pass'] = 'x';").
  vm_compute. reflexivity.
Defined.

Lemma search_without_literal (key content : string) :
  (forall pre post, content <> pre ++ setting_literal key ++ post) ->
  search_setting key content = None.
Proof.
  intros Habs.
  destruct (search_setting key content) as [v|] eqn:E; [|reflexivity].
  exfalso. revert Habs E.
  induction content as [|c content IH]; intros Habs E;
    rewrite search_setting_unfold in E.
  - destruct (match_setting key "") as [x|] eqn:Em; [|discriminate].
    unfold match_setting in Em.
    destruct (strip_prefix (setting_literal key) "") as [r|] eqn:Es;
      [|discriminate].
    apply strip_prefix_inv in Es. exact (Habs "" r Es).
  - destruct (match_setting key (String c content)) as [x|] eqn:Em.
    + unfold match_setting in Em.
      destruct (strip_prefix (setting_literal key) (String c content))
        as [r|] eqn:Es; [|discriminate].
      apply strip_prefix_inv in Es. exact (Habs "" r Es).
    + apply IH; [|exact E].
      intros pre post Hc. apply (Habs (String c pre) post).
      simpl. rewrite Hc. reflexivity.
Qed.

(** X22. A setting that is missing makes the scan fail: if the literal
    [$config['KEY']] of one of the four settings occurs nowhere in the
    text, no configuration is returned (the script stops with the
    [AttributeError] of [.group(1)]). *)
Theorem missing_setting_fails (key content : string) :
  In key ["db_host"; "db_user"; "db_pass"; "db_name"] ->
  (forall pre post, content <> pre ++ setting_literal key ++ post) ->
  scan_observium_config content = None.
Proof.
  intros Hkey Habs. pose proof (search_without_literal key content Habs) as E.
  unfold scan_observium_config.
  destruct Hkey as [<-|[<-|[<-|[<-|[]]]]]; rewrite E;
    repeat match goal with
           | |- context [match search_setting ?k ?c with _ => _ end] =>
               destruct (search_setting k c)
           end; reflexivity.
Qed.

Lemma string_length_append (a b : string) :
  String.length (a ++ b) = (String.length a + String.length b)%nat.
Proof. induction a as [|c a IH]; simpl; [reflexivity|rewrite IH; reflexivity]. Qed.

Lemma missing_setting_fails_witness :
  scan_observium_config "<?php" = None.
Proof.
  apply (missing_setting_fails "db_user" "<?php").
  - right. left. reflexivity.
  - intros pre post H.
    assert (L : String.length "<?php"
                = String.length (pre ++ setting_literal "db_user" ++ post))
      by (rewrite <- H; reflexivity).
    rewrite !string_length_append in L. simpl in L. lia.
Defined.

(** ** The path of an RRD file *)

Local Open Scope string_scope.

Lemma endswith_char_app (a b : string) (c : ascii) :
  b <> "" -> Py.endswith_char (a ++ b) c = Py.endswith_char b c.
Proof.
  intros Hb. induction a as [|d a IH]; [reflexivity|].
  simpl. rewrite IH.
  destruct (a ++ b) eqn:E; [|reflexivity].
  destruct a; simpl in E; [congruence|discriminate].
Qed.

Lemma slash_free_end (s : string) :
  slash_free s = true -> Py.endswith_char s "/" = false.
Proof.
  induction s as [|c s IH]; simpl; intros H; [reflexivity|].
  apply andb_true_iff in H. destruct H as [Hc Hs].
  apply negb_true_iff in Hc.
  destruct s; [exact Hc|apply IH; exact Hs].
Qed.

Lemma slash_free_start (s : string) :
  slash_free s = true -> Py.startswith s "/" = false.
Proof.
  intros H. destruct s as [|c s]; [reflexivity|].
  simpl in H. apply andb_true_iff in H. destruct H as [Hc _].
  apply negb_true_iff in Hc. unfold Py.startswith. cbn [String.prefix].
  destruct (ascii_dec "/" c) as [E|N]; [|reflexivity].
  subst c. discriminate Hc.
Qed.

Lemma eqb_empty_false (s : string) : s <> "" -> String.eqb s "" = false.
Proof. intros H. apply String.eqb_neq. exact H. Qed.

(** X24. The path of a port's RRD file is
    [<rrd base>/<hostname>/port-<ifIndex>.rrd] for a hostname without
    slash and a base that does not end in one; a hostname that begins
    with a slash, however, replaces the base, so that the file is looked
    up outside the RRD directory. *)
Theorem rrd_path_shape (base : string) (r : port_row) :
  (base <> "" -> Py.endswith_char base "/" = false ->
   hostname r <> "" -> slash_free (hostname r) = true ->
   rrd_path base r = base ++ "/" ++ hostname r ++ "/" ++ port_file r)
  /\ (Py.startswith (hostname r) "/" = true ->
      Py.endswith_char (hostname r) "/" = false ->
      rrd_path base r = hostname r ++ "/" ++ port_file r).
Proof.
  unfold rrd_path, OsPath.join. cbn [fold_left].
  assert (Hport : Py.startswith (port_file r) "/" = false) by reflexivity.
  fold (port_file r). split.
  - intros Hb Hbe Hh Hs. unfold OsPath.join2 at 2.
    rewrite (slash_free_start _ Hs), (eqb_empty_false _ Hb), Hbe.
    cbn [orb]. unfold OsPath.join2. rewrite Hport.
    assert (Hne : base ++ "/" ++ hostname r <> "").
    { destruct base; [congruence|discriminate]. }
    rewrite (eqb_empty_false _ Hne).
    rewrite endswith_char_app by (simpl; discriminate).
    change ("/" ++ hostname r) with (String "/" (hostname r)).
    assert (He : Py.endswith_char (String "/" (hostname r)) "/" = false).
    { pose proof (slash_free_end _ Hs) as Hend.
      destruct (hostname r); [congruence|exact Hend]. }
    rewrite He. cbn [orb]. rewrite !string_append_assoc. reflexivity.
  - intros Hs He. unfold OsPath.join2 at 2. rewrite Hs.
    unfold OsPath.join2. rewrite Hport, He.
    assert (Hne : hostname r <> "").
    { intros E. rewrite E in Hs. discriminate. }
    rewrite (eqb_empty_false _ Hne). reflexivity.
Qed.

Lemma rrd_path_shape_witness :
  rrd_path "/opt/observium/rrd" (mk_row 12 "Cust:Acme" "edge1")
  = "/opt/observium/rrd/edge1/port-12.rrd"
  /\ rrd_path "/opt/observium/rrd" (mk_row 12 "Cust:Acme" "/etc/edge1")
     = "/etc/edge1/port-12.rrd".
Proof.
  split.
  - apply (proj1 (rrd_path_shape "/opt/observium/rrd"
                    (mk_row 12 "Cust:Acme" "edge1")));
      (reflexivity || discriminate).
  - apply (proj2 (rrd_path_shape "/opt/observium/rrd"
                    (mk_row 12 "Cust:Acme" "/etc/edge1")));
      reflexivity.
Defined.
